(** * Flowly AI chat service: command resolution and endpoint guard

    A shallow embedding of [backend/src/modules/ai-chat/ai-chat.service.ts]
    ([AiChatService]): the endpoint guard [validateApiUrl], the grammar
    validator [validateCommandParameters], the command extraction and
    brace repair done by [chat], the context mutators
    [updateContextFromCommand] and [extractContextFromMessage], and the
    session map [conversationContexts] with [clearContext] and
    [cleanupOldContexts]; further the provider detection
    [detectProvider], the model name check [validateModelName], the
    connection test [testConnection] and the example payloads of
    [generateSystemPrompt].

    Conventions of the embedding.
    - A JavaScript string is a [string]: a sequence of code units, each
      a one-byte [ascii] (U+0000 to U+00FF).  Code units above U+00FF are
      outside the alphabet of the model, and so is a JSON text whose
      escapes denote one.
    - A thrown exception is the [Throw] branch of [Res]; the service's
      in-memory map is passed explicitly.
    - The platform's [URL] parser and the static grammar
      [constants/commands.json] are parameters of the development. *)

From Stdlib Require Import ZArith Ascii String List Bool Lia DecimalString.
From stdpp Require Import base option gmap strings.

Local Open Scope Z_scope.

(** ** Text primitives of the platform *)

Module Text.

Definition code (c : ascii) : N := N_of_ascii c.

Definition in_range (lo hi c : ascii) : bool :=
  (code lo <=? code c)%N && (code c <=? code hi)%N.

(** [String.prototype.toLowerCase] on one code unit: A-Z, and the
    Latin-1 capitals U+00C0..U+00DE except the multiplication sign. *)
Definition lower_char (c : ascii) : ascii :=
  let n := code c in
  if ((65 <=? n) && (n <=? 90))%N then ascii_of_N (n + 32)
  else if ((192 <=? n) && (n <=? 222) && negb (n =? 215))%N then ascii_of_N (n + 32)
  else c.

(** The inverse direction inside the alphabet; [U+00FF] and [U+00B5] have
    capitals outside it and [U+00DF] has none, so they stay. *)
Definition upper_char (c : ascii) : ascii :=
  let n := code c in
  if ((97 <=? n) && (n <=? 122))%N then ascii_of_N (n - 32)
  else if ((224 <=? n) && (n <=? 254) && negb (n =? 247))%N then ascii_of_N (n - 32)
  else c.

Fixpoint toLowerCase (s : string) : string :=
  match s with
  | EmptyString => EmptyString
  | String c t => String (lower_char c) (toLowerCase t)
  end.

(** Line terminators and white space of ECMAScript, within the alphabet. *)
Definition is_line_terminator (c : ascii) : bool :=
  (code c =? 10)%N || (code c =? 13)%N.

Definition is_space (c : ascii) : bool :=
  let n := code c in
  ((9 <=? n) && (n <=? 13))%N || (n =? 32)%N || (n =? 160)%N.

Fixpoint trimStart (s : string) : string :=
  match s with
  | String c t => if is_space c then trimStart t else s
  | EmptyString => EmptyString
  end.

(** [trimEnd] keeps a character when it is not white space or when
    something survives after it. *)
Fixpoint trimEnd (s : string) : string :=
  match s with
  | EmptyString => EmptyString
  | String c t =>
      match trimEnd t with
      | EmptyString => if is_space c then EmptyString else String c EmptyString
      | t' => String c t'
      end
  end.

Definition trim (s : string) : string := trimEnd (trimStart s).

Fixpoint startsWith (s p : string) : bool :=
  match p, s with
  | EmptyString, _ => true
  | String a p', String b s' => Ascii.eqb a b && startsWith s' p'
  | String _ _, EmptyString => false
  end.

Fixpoint includes (s needle : string) : bool :=
  startsWith s needle ||
  match s with
  | EmptyString => false
  | String _ t => includes t needle
  end.

Fixpoint endsWith (s p : string) : bool :=
  String.eqb s p ||
  match s with
  | EmptyString => false
  | String _ t => endsWith t p
  end.

(** [s.substring(0, n)] *)
Fixpoint take (n : nat) (s : string) : string :=
  match n, s with
  | S n', String c t => String c (take n' t)
  | _, _ => EmptyString
  end.

Fixpoint repeat_char (c : ascii) (n : nat) : string :=
  match n with
  | O => EmptyString
  | S n' => String c (repeat_char c n')
  end.

Fixpoint join (sep : string) (l : list string) : string :=
  match l with
  | [] => EmptyString
  | [x] => x
  | x :: rest => x +:+ sep +:+ join sep rest
  end.

(** Concrete texts are written with an apostrophe where the text has a
    double quote; [q] puts the double quotes back. *)
Fixpoint q (s : string) : string :=
  match s with
  | EmptyString => EmptyString
  | String c t => String (if Ascii.eqb c "'" then ascii_of_N 34 else c) (q t)
  end.

End Text.

(** ** Regular expressions

    The patterns of the service use literals, classes, [.], [\s],
    alternation, optional groups, capture groups, anchors, and greedy or
    lazy repetition of a single-character atom.  [run] is a backtracking
    matcher in continuation style: alternatives are tried left to right,
    a greedy repetition tries the longest run first and a lazy one the
    shortest, which is the order ECMAScript prescribes. *)

Module Regex.
Import Text.

Inductive item : Type :=
| IChar (c : ascii)
| IRange (lo hi : ascii)
| ISpace.

Inductive atom : Type :=
| AChar (c : ascii)
| ASet (items : list item)
| ANot (items : list item)
| ADot
| ASpace.

Inductive regex : Type :=
| Eps
| One (a : atom)
| Seq (r1 r2 : regex)
| Alt (r1 r2 : regex)
| Opt (r : regex)
| Star (a : atom)
| Plus (a : atom)
| StarLazy (a : atom)
| PlusLazy (a : atom)
| Group (n : nat) (r : regex)
| Bol
| Eol.

Record flags : Type := { ignoreCase : bool; multiline : bool }.

Definition no_flags : flags := {| ignoreCase := false; multiline := false |}.
Definition flag_m : flags := {| ignoreCase := false; multiline := true |}.
Definition flag_i : flags := {| ignoreCase := true; multiline := false |}.

(** Without the [i] flag a character matches itself; with it, two
    characters match when they agree up to case. *)
Definition same_char (ic : bool) (c x : ascii) : bool :=
  Ascii.eqb c x || (ic && Ascii.eqb (upper_char c) (upper_char x)).

Definition item_matches (ic : bool) (i : item) (x : ascii) : bool :=
  match i with
  | IChar c => same_char ic c x
  | IRange lo hi =>
      in_range lo hi x ||
      (ic && (in_range lo hi (lower_char x) || in_range lo hi (upper_char x)))
  | ISpace => is_space x
  end.

Definition atom_matches (ic : bool) (a : atom) (x : ascii) : bool :=
  match a with
  | AChar c => same_char ic c x
  | ASet items => existsb (fun i => item_matches ic i x) items
  | ANot items => negb (existsb (fun i => item_matches ic i x) items)
  | ADot => negb (is_line_terminator x)
  | ASpace => is_space x
  end.

Definition captures : Type := list (nat * string).

Fixpoint capture (n : nat) (c : captures) : option string :=
  match c with
  | [] => None
  | (m, s) :: rest => if Nat.eqb m n then Some s else capture n rest
  end.

(** A continuation receives the character before the position, the
    rest of the input and the captures so far. *)
Definition cont (R : Type) : Type := option ascii -> string -> captures -> option R.

Section Matcher.
Context {R : Type}.
Variable f : flags.

Fixpoint greedy (a : atom) (k : cont R) (prev : option ascii) (s : string)
    (c : captures) : option R :=
  match s with
  | String x t =>
      if atom_matches (ignoreCase f) a x then
        match greedy a k (Some x) t c with
        | Some r => Some r
        | None => k prev s c
        end
      else k prev s c
  | EmptyString => k prev s c
  end.

Fixpoint reluctant (a : atom) (k : cont R) (prev : option ascii) (s : string)
    (c : captures) : option R :=
  match k prev s c with
  | Some r => Some r
  | None =>
      match s with
      | String x t =>
          if atom_matches (ignoreCase f) a x then reluctant a k (Some x) t c else None
      | EmptyString => None
      end
  end.

Definition one (a : atom) (k : cont R) : cont R :=
  fun prev s c =>
    match s with
    | String x t => if atom_matches (ignoreCase f) a x then k (Some x) t c else None
    | EmptyString => None
    end.

Definition at_bol (prev : option ascii) : bool :=
  match prev with
  | None => true
  | Some x => multiline f && is_line_terminator x
  end.

Definition at_eol (s : string) : bool :=
  match s with
  | EmptyString => true
  | String x _ => multiline f && is_line_terminator x
  end.

Fixpoint run (r : regex) (k : cont R) : cont R :=
  match r with
  | Eps => k
  | One a => one a k
  | Seq r1 r2 => run r1 (run r2 k)
  | Alt r1 r2 =>
      fun prev s c =>
        match run r1 k prev s c with
        | Some x => Some x
        | None => run r2 k prev s c
        end
  | Opt r1 =>
      fun prev s c =>
        match run r1 k prev s c with
        | Some x => Some x
        | None => k prev s c
        end
  | Star a => greedy a k
  | Plus a => one a (greedy a k)
  | StarLazy a => reluctant a k
  | PlusLazy a => one a (reluctant a k)
  | Group n r1 =>
      fun prev s c =>
        run r1 (fun prev' s' c' =>
                  k prev' s' ((n, take (String.length s - String.length s') s) :: c'))
            prev s c
  | Bol => fun prev s c => if at_bol prev then k prev s c else None
  | Eol => fun prev s c => if at_eol s then k prev s c else None
  end.

End Matcher.

(** One match: its captures, the input left after it and the character
    just before that. *)
Record found : Type := { groups : captures; last : option ascii; rest : string }.

Definition finish : cont found :=
  fun prev s c => Some {| groups := c; last := prev; rest := s |}.

(** [RegExp.prototype.exec]: the leftmost position where the pattern
    matches; the second component is the input from that position on. *)
Fixpoint exec_from (f : flags) (r : regex) (prev : option ascii) (s : string)
    : option (found * string) :=
  match run f r finish prev s [] with
  | Some m => Some (m, s)
  | None =>
      match s with
      | String x t => exec_from f r (Some x) t
      | EmptyString => None
      end
  end.

Definition exec (f : flags) (r : regex) (s : string) : option captures :=
  option_map (fun m => groups (fst m)) (exec_from f r None s).

Definition test (f : flags) (r : regex) (s : string) : bool :=
  match exec f r s with Some _ => true | None => false end.

(** [String.prototype.matchAll] with the [g] flag: the search resumes
    where the last match ended, one character further after an empty
    match.  [fuel] bounds the number of matches. *)
Fixpoint matchAll_from (fuel : nat) (f : flags) (r : regex) (prev : option ascii)
    (s : string) : list captures :=
  match fuel with
  | O => []
  | S fuel' =>
      match exec_from f r prev s with
      | None => []
      | Some (m, from) =>
          groups m ::
          (if (String.length (rest m) <? String.length from)%nat
           then matchAll_from fuel' f r (last m) (rest m)
           else match rest m with
                | String x t => matchAll_from fuel' f r (Some x) t
                | EmptyString => []
                end)
      end
  end.

Definition matchAll (f : flags) (r : regex) (s : string) : list captures :=
  matchAll_from (S (String.length s)) f r None s.

Definition group (n : nat) (c : captures) : string :=
  match capture n c with Some s => s | None => EmptyString end.

(** Pattern-building helpers. *)
Fixpoint lit (s : string) : regex :=
  match s with
  | EmptyString => Eps
  | String c EmptyString => One (AChar c)
  | String c t => Seq (One (AChar c)) (lit t)
  end.

Fixpoint cat (l : list regex) : regex :=
  match l with
  | [] => Eps
  | [r] => r
  | r :: rest => Seq r (cat rest)
  end.

Fixpoint alt (l : list regex) : regex :=
  match l with
  | [] => Eps
  | [r] => r
  | r :: rest => Alt r (alt rest)
  end.

End Regex.

(** ** Results and exceptions *)

Inductive exn : Type :=
| BadRequestException (message : string)
| Error (message : string).

Definition exn_message (e : exn) : string :=
  match e with
  | BadRequestException m => m
  | Error m => m
  end.

Inductive Res (A : Type) : Type :=
| Ok (a : A)
| Throw (e : exn).
Arguments Ok {A} a.
Arguments Throw {A} e.

(** ** The endpoint guard *)

Module Guard.
Import Text Regex.

(** The fields of a parsed [URL] object that the service reads. *)
Record URL : Type := {
  protocol : string;
  hostname : string;
  port : string;
  href : string
}.

Definition allowedHosts : list string :=
  [ "openrouter.ai"; "api.openrouter.ai";
    "api.openai.com";
    "api.anthropic.com";
    "generativelanguage.googleapis.com"; "aiplatform.googleapis.com" ].

Definition lower_digit_dash : atom :=
  ASet [IRange "a" "z"; IRange "0" "9"; IChar "-"].

Definition awsBedrockPattern : regex :=
  cat [ Bol;
        Group 1 (alt [ lit "bedrock"; lit "bedrock-runtime"; lit "bedrock-agent";
                       lit "bedrock-agent-runtime"; lit "bedrock-data-automation";
                       lit "bedrock-data-automation-runtime" ]);
        Opt (Group 2 (lit "-fips"));
        lit ".";
        Group 3 (Plus lower_digit_dash);
        lit ".amazonaws.com";
        Eol ].

Definition azurePattern : regex :=
  cat [ Bol; Plus lower_digit_dash; lit ".openai.azure.com"; Eol ].

Definition googlePattern : regex :=
  Alt (cat [ Bol; Opt (Group 1 (Seq (Plus lower_digit_dash) (lit ".")));
             lit "aiplatform.googleapis.com"; Eol ])
      (cat [ Bol; Plus lower_digit_dash; lit ".p.googleapis.com"; Eol ]).

(** [/^172\.(1[6-9]|2[0-9]|3[0-1])\./] *)
Definition private172Pattern : regex :=
  cat [ Bol; lit "172.";
        Group 1 (alt [ Seq (lit "1") (One (ASet [IRange "6" "9"]));
                       Seq (lit "2") (One (ASet [IRange "0" "9"]));
                       Seq (lit "3") (One (ASet [IRange "0" "1"])) ]);
        lit "." ].

(** [/^[fF][cCdD]/] and [/^[fF][eE][89aAbB]/] *)
Definition uniqueLocalPattern : regex :=
  cat [ Bol; One (ASet [IChar "f"; IChar "F"]);
        One (ASet [IChar "c"; IChar "C"; IChar "d"; IChar "D"]) ].

Definition linkLocalPattern : regex :=
  cat [ Bol; One (ASet [IChar "f"; IChar "F"]); One (ASet [IChar "e"; IChar "E"]);
        One (ASet [IChar "8"; IChar "9"; IChar "a"; IChar "A"; IChar "b"; IChar "B"]) ].

Definition string_in (s : string) (l : list string) : bool :=
  existsb (String.eqb s) l.

(** [s.replace(/^\[|\]$/g, '')]: a leading [[] and a trailing []] go. *)
Fixpoint dropLastBracket (s : string) : string :=
  match s with
  | EmptyString => EmptyString
  | String c EmptyString => if Ascii.eqb c "]" then EmptyString else s
  | String c t => String c (dropLastBracket t)
  end.

Definition stripBrackets (s : string) : string :=
  match s with
  | String "[" EmptyString => EmptyString
  | String "[" t => dropLastBracket t
  | _ => dropLastBracket s
  end.

(** [s.replace(/\/$/, '')] *)
Fixpoint stripTrailingSlash (s : string) : string :=
  match s with
  | EmptyString => EmptyString
  | String c EmptyString => if Ascii.eqb c "/" then EmptyString else s
  | String c t => String c (stripTrailingSlash t)
  end.

(** [Number(url.port)] for the digit strings a [URL] carries; [None] is
    [NaN]. *)
Definition digit_value (c : ascii) : option N :=
  if in_range "0" "9" c then Some (code c - 48)%N else None.

Fixpoint number_from (acc : N) (s : string) : option N :=
  match s with
  | EmptyString => Some acc
  | String c t =>
      match digit_value c with
      | Some d => number_from (acc * 10 + d)%N t
      | None => None
      end
  end.

(** [url.port ? Number(url.port) : 443] *)
Definition effectivePort (u : URL) : option N :=
  if String.eqb (port u) "" then Some 443%N else number_from 0%N (port u).

Definition normalizedHost (u : URL) : string :=
  stripBrackets (toLowerCase (hostname u)).

(** The allow-list test of the guard (its negation throws). *)
Definition hostAllowed (h : string) : bool :=
  string_in h allowedHosts ||
  test no_flags awsBedrockPattern h ||
  test no_flags azurePattern h ||
  test no_flags googlePattern h.

(** The loopback, link-local and private-range test. *)
Definition internalAddress (h : string) : bool :=
  string_in h ["localhost"; "127.0.0.1"; "::1"; "0.0.0.0"] ||
  startsWith h "192.168." ||
  startsWith h "10." ||
  startsWith h "127." ||
  startsWith h "169.254." ||
  test no_flags private172Pattern h ||
  test no_flags uniqueLocalPattern h ||
  test no_flags linkLocalPattern h.

Definition supportedProvider (h : string) : bool :=
  let isOpenAIHost := String.eqb h "api.openai.com" in
  let isOpenRouterHost := String.eqb h "openrouter.ai" || String.eqb h "api.openrouter.ai" in
  let isAnthropicHost := String.eqb h "api.anthropic.com" in
  let isGoogleHost := test no_flags googlePattern h in
  isOpenAIHost || isOpenRouterHost || isAnthropicHost || isGoogleHost.

Section WithParser.
(** [new URL(apiUrl)]: [None] when the constructor throws. *)
Variable URL_parse : string -> option URL.

Definition validateApiUrl (apiUrl : string) : Res string :=
  match URL_parse apiUrl with
  | None => Throw (BadRequestException "Invalid URL format")
  | Some url =>
      if negb (String.eqb (protocol url) "https:") then
        Throw (BadRequestException "Only HTTPS URLs allowed")
      else
        let hostname := normalizedHost url in
        if negb (hostAllowed hostname) then
          Throw (BadRequestException "Host not allowed")
        else if internalAddress hostname then
          Throw (BadRequestException "Internal IPs not allowed")
        else if negb (bool_decide (effectivePort url = Some 443%N)) then
          Throw (BadRequestException "Only standard HTTPS port 443 is allowed")
        else if negb (supportedProvider hostname) then
          Throw (BadRequestException "Unsupported AI provider host")
        else Ok (stripTrailingSlash (href url))
  end.

Definition detectProvider (apiUrl : string) : string :=
  match URL_parse apiUrl with
  | Some parsedUrl =>
      let hostname := hostname parsedUrl in
      if String.eqb hostname "openrouter.ai" || endsWith hostname ".openrouter.ai"
      then "openrouter"
      else if String.eqb hostname "api.openai.com" || endsWith hostname ".api.openai.com"
      then "openai"
      else if String.eqb hostname "api.anthropic.com" || endsWith hostname ".api.anthropic.com"
      then "anthropic"
      else if String.eqb hostname "generativelanguage.googleapis.com"
              || endsWith hostname ".generativelanguage.googleapis.com"
      then "google"
      else "custom"
  | None => "custom"
  end.

End WithParser.

(** The parse of a few endpoint strings, as the WHATWG parser gives it;
    used to run the guard on concrete inputs. *)
Definition sample_parse (s : string) : option URL :=
  if String.eqb s "https://openrouter.ai/api/v1" then
    Some {| protocol := "https:"; hostname := "openrouter.ai"; port := "";
            href := "https://openrouter.ai/api/v1" |}
  else if String.eqb s "https://api.openai.com/v1/" then
    Some {| protocol := "https:"; hostname := "api.openai.com"; port := "";
            href := "https://api.openai.com/v1/" |}
  else if String.eqb s "http://api.openai.com" then
    Some {| protocol := "http:"; hostname := "api.openai.com"; port := "";
            href := "http://api.openai.com/" |}
  else if String.eqb s "https://api.openai.com:8443/v1" then
    Some {| protocol := "https:"; hostname := "api.openai.com"; port := "8443";
            href := "https://api.openai.com:8443/v1" |}
  else if String.eqb s "https://generativelanguage.googleapis.com/v1beta" then
    Some {| protocol := "https:"; hostname := "generativelanguage.googleapis.com";
            port := ""; href := "https://generativelanguage.googleapis.com/v1beta" |}
  else if String.eqb s "http://generativelanguage.googleapis.com/v1beta" then
    Some {| protocol := "http:"; hostname := "generativelanguage.googleapis.com";
            port := ""; href := "http://generativelanguage.googleapis.com/v1beta" |}
  else if String.eqb s "https://us-central1-aiplatform.googleapis.com/v1" then
    Some {| protocol := "https:"; hostname := "us-central1-aiplatform.googleapis.com";
            port := ""; href := "https://us-central1-aiplatform.googleapis.com/v1" |}
  else None.

End Guard.

(** ** JavaScript values *)

Module Js.
Import Text.

(** The values [JSON.parse] can produce, and [undefined].  A number is
    kept as its decimal value [m * 10^e]; rounding to binary64 is not
    modelled (so a literal too small for binary64, which the platform
    reads as zero, stays non-zero here).  An object lists its own
    properties, each key once. *)
#[local] Unset Elimination Schemes.
Inductive value : Type :=
| VUndefined
| VNull
| VBool (b : bool)
| VNumber (m e : Z)
| VString (s : string)
| VArray (items : list value)
| VObject (props : list (string * value)).
#[local] Set Elimination Schemes.

(** [ToBoolean]: the falsy values are [undefined], [null], [false], zero
    and the empty string. *)
Definition ToBoolean (v : value) : bool :=
  match v with
  | VUndefined | VNull => false
  | VBool b => b
  | VNumber m _ => negb (m =? 0)
  | VString s => negb (String.eqb s "")
  | VArray _ | VObject _ => true
  end.

Fixpoint getOwn (props : list (string * value)) (k : string) : value :=
  match props with
  | [] => VUndefined
  | (k', v) :: rest => if String.eqb k' k then v else getOwn rest k
  end.

(** [o[k]] and [o.k].  Only own properties are modelled: the names of
    the grammar are taken not to be members of [Object.prototype]. *)
Definition getProp (o : value) (k : string) : value :=
  match o with
  | VObject props => getOwn props k
  | _ => VUndefined
  end.

Fixpoint setOwn (props : list (string * value)) (k : string) (v : value)
    : list (string * value) :=
  match props with
  | [] => [(k, v)]
  | (k', v') :: rest =>
      if String.eqb k' k then (k', v) :: rest else (k', v') :: setOwn rest k v
  end.

(** [o.k = v].  The receivers are the parsed parameters of a command,
    which are objects: the payload begins with a brace. *)
Definition setProp (o : value) (k : string) (v : value) : value :=
  match o with
  | VObject props => VObject (setOwn props k v)
  | _ => o
  end.

Definition decimal (n : N) : string :=
  match n with
  | N0 => "0"
  | _ => DecimalString.NilEmpty.string_of_uint (N.to_uint n)
  end.

(** [Number::toString].  Integers print in plain decimal, as the
    platform does below 10^21; any other number prints as mantissa and
    exponent.  Of this function the service only uses that the result is
    never blank. *)
Definition renderNumber (m e : Z) : string :=
  if m =? 0 then "0"
  else
    let sign := if m <? 0 then "-" else "" in
    let digits := decimal (Z.to_N (Z.abs m)) in
    if 0 <=? e then sign +:+ digits +:+ repeat_char "0" (Z.to_nat e)
    else sign +:+ digits +:+ "e-" +:+ decimal (Z.to_N (- e)).

(** [String(v)], for a value that has a string conversion
    ([convertsToString] below); for the other values the platform throws
    a [TypeError] instead, which is a hypothesis of the statements that
    depend on it. *)
Fixpoint ToString (v : value) : string :=
  match v with
  | VUndefined => "undefined"
  | VNull => "null"
  | VBool true => "true"
  | VBool false => "false"
  | VNumber m e => renderNumber m e
  | VString s => s
  | VArray items =>
      join "," (map (fun x => match x with
                              | VUndefined | VNull => EmptyString
                              | _ => ToString x
                              end) items)
  | VObject _ => "[object Object]"
  end.

(** The values for which [String(v)] returns.  An object converts
    through the [toString] it inherits; an own property named [toString]
    hides it, and a parsed value is never callable, so the conversion
    then throws a [TypeError] (the inherited [valueOf] returns the object
    itself).  An array converts by joining the conversions of its
    elements. *)
Fixpoint convertsToString (v : value) : bool :=
  match v with
  | VObject props => negb (existsb (fun kv => String.eqb (fst kv) "toString") props)
  | VArray items => forallb convertsToString items
  | _ => true
  end.

Definition numberEq (m1 e1 m2 e2 : Z) : bool :=
  if e1 <=? e2 then m1 =? m2 * 10 ^ (e2 - e1) else m1 * 10 ^ (e1 - e2) =? m2.

(** [a === b] where [a] was freshly parsed and [b] is held elsewhere:
    primitives compare by value, and two distinct objects are never
    identical. *)
Definition strictEquals (a b : value) : bool :=
  match a, b with
  | VUndefined, VUndefined => true
  | VNull, VNull => true
  | VBool x, VBool y => Bool.eqb x y
  | VNumber m1 e1, VNumber m2 e2 => numberEq m1 e1 m2 e2
  | VString x, VString y => String.eqb x y
  | _, _ => false
  end.

End Js.

(** ** [JSON.parse]

    A lexer that reads one character at a time and a pushdown parser that
    reads one token at a time.  A number or keyword lexeme is the longest
    run of number or letter characters and is checked as a whole; the
    accepted texts and their values are those of the JSON grammar. *)

Module Json.
Import Text Regex Js.

Inductive token : Type :=
| TLBrace | TRBrace | TLBracket | TRBracket | TColon | TComma
| TString (s : string)
| TNumber (m e : Z)
| TTrue | TFalse | TNull.

Inductive lstate : Type :=
| LDefault
| LString (acc : list ascii)
| LEscape (acc : list ascii)
| LUnicode (acc : list ascii) (hex : list N)
| LNumber (acc : list ascii)
| LWord (acc : list ascii).

Definition text_of (rev_chars : list ascii) : string :=
  string_of_list_ascii (rev rev_chars).

(** A JSON number: an optional minus, an integer part without leading
    zeros, an optional fraction and an optional exponent. *)
Definition digit : atom := ASet [IRange "0" "9"].

Definition numberPattern : regex :=
  cat [ Bol;
        Group 1 (Opt (lit "-"));
        Group 2 (Alt (lit "0") (Seq (One (ASet [IRange "1" "9"])) (Star digit)));
        Opt (Seq (lit ".") (Group 3 (Plus digit)));
        Opt (cat [ One (ASet [IChar "e"; IChar "E"]);
                   Group 4 (Opt (One (ASet [IChar "+"; IChar "-"])));
                   Group 5 (Plus digit) ]);
        Eol ].

Fixpoint digits_value (acc : N) (s : string) : N :=
  match s with
  | EmptyString => acc
  | String c t => digits_value (acc * 10 + (code c - 48))%N t
  end.

Definition number_token (lexeme : string) : option token :=
  match exec no_flags numberPattern lexeme with
  | None => None
  | Some c =>
      let frac := group 3 c in
      let mantissa := Z.of_N (digits_value 0%N (group 2 c +:+ frac)) in
      let exponent := Z.of_N (digits_value 0%N (group 5 c)) in
      let m := if String.eqb (group 1 c) "-" then - mantissa else mantissa in
      let e := if String.eqb (group 4 c) "-" then - exponent else exponent in
      Some (TNumber m (e - Z.of_nat (String.length frac)))
  end.

Definition word_token (lexeme : string) : option token :=
  if String.eqb lexeme "true" then Some TTrue
  else if String.eqb lexeme "false" then Some TFalse
  else if String.eqb lexeme "null" then Some TNull
  else None.

Definition dquote : ascii := ascii_of_N 34.

Definition is_json_space (c : ascii) : bool :=
  let n := code c in (n =? 9)%N || (n =? 10)%N || (n =? 13)%N || (n =? 32)%N.

Definition number_char (c : ascii) : bool :=
  in_range "0" "9" c || Ascii.eqb c "-" || Ascii.eqb c "+" || Ascii.eqb c "."
  || Ascii.eqb c "e" || Ascii.eqb c "E".

Definition word_char (c : ascii) : bool := in_range "a" "z" c.

Definition hex_value (c : ascii) : option N :=
  if in_range "0" "9" c then Some (code c - 48)%N
  else if in_range "a" "f" c then Some (code c - 87)%N
  else if in_range "A" "F" c then Some (code c - 55)%N
  else None.

(** The lexer outside any lexeme. *)
Definition lstep_default (c : ascii) : option (lstate * list token) :=
  if is_json_space c then Some (LDefault, [])
  else if Ascii.eqb c "{" then Some (LDefault, [TLBrace])
  else if Ascii.eqb c "}" then Some (LDefault, [TRBrace])
  else if Ascii.eqb c "[" then Some (LDefault, [TLBracket])
  else if Ascii.eqb c "]" then Some (LDefault, [TRBracket])
  else if Ascii.eqb c ":" then Some (LDefault, [TColon])
  else if Ascii.eqb c "," then Some (LDefault, [TComma])
  else if Ascii.eqb c dquote then Some (LString [], [])
  else if Ascii.eqb c "-" || in_range "0" "9" c then Some (LNumber [c], [])
  else if word_char c then Some (LWord [c], [])
  else None.

Definition after_lexeme (tok : option token) (c : ascii) : option (lstate * list token) :=
  match tok with
  | None => None
  | Some t =>
      match lstep_default c with
      | Some (st, out) => Some (st, t :: out)
      | None => None
      end
  end.

Definition lstep (st : lstate) (c : ascii) : option (lstate * list token) :=
  match st with
  | LDefault => lstep_default c
  | LString acc =>
      if Ascii.eqb c dquote then Some (LDefault, [TString (text_of acc)])
      else if Ascii.eqb c "\" then Some (LEscape acc, [])
      else if (code c <? 32)%N then None
      else Some (LString (c :: acc), [])
  | LEscape acc =>
      if Ascii.eqb c dquote || Ascii.eqb c "\" || Ascii.eqb c "/" then Some (LString (c :: acc), [])
      else if Ascii.eqb c "b" then Some (LString (ascii_of_N 8 :: acc), [])
      else if Ascii.eqb c "f" then Some (LString (ascii_of_N 12 :: acc), [])
      else if Ascii.eqb c "n" then Some (LString (ascii_of_N 10 :: acc), [])
      else if Ascii.eqb c "r" then Some (LString (ascii_of_N 13 :: acc), [])
      else if Ascii.eqb c "t" then Some (LString (ascii_of_N 9 :: acc), [])
      else if Ascii.eqb c "u" then Some (LUnicode acc [], [])
      else None
  | LUnicode acc hex =>
      match hex_value c with
      | None => None
      | Some d =>
          match hex with
          | [a; b; c'] =>
              let n := (((a * 16 + b) * 16 + c') * 16 + d)%N in
              (* a code unit above U+00FF is outside the alphabet *)
              if (n <? 256)%N then Some (LString (ascii_of_N n :: acc), []) else None
          | _ => Some (LUnicode acc (hex ++ [d]), [])
          end
      end
  | LNumber acc =>
      if number_char c then Some (LNumber (c :: acc), [])
      else after_lexeme (number_token (text_of acc)) c
  | LWord acc =>
      if word_char c then Some (LWord (c :: acc), [])
      else after_lexeme (word_token (text_of acc)) c
  end.

Definition lfinish (st : lstate) : option (list token) :=
  match st with
  | LDefault => Some []
  | LNumber acc => option_map (fun t => [t]) (number_token (text_of acc))
  | LWord acc => option_map (fun t => [t]) (word_token (text_of acc))
  | LString _ | LEscape _ | LUnicode _ _ => None
  end.

Fixpoint lex_from (st : lstate) (s : string) : option (list token) :=
  match s with
  | EmptyString => lfinish st
  | String c t =>
      match lstep st c with
      | None => None
      | Some (st', out) => option_map (app out) (lex_from st' t)
      end
  end.

Definition lex (s : string) : option (list token) := lex_from LDefault s.

(** The parser: [frame]s are the containers still open, innermost
    first; element lists are kept reversed while open. *)
Inductive frame : Type :=
| FArray (items : list value)
| FObject (props : list (string * value)) (key : string).

Inductive pstate : Type :=
| PValue (stk : list frame)
| PArrayOpen (stk : list frame)
| PArrayNext (items : list value) (stk : list frame)
| PObjectOpen (stk : list frame)
| PObjectKey (props : list (string * value)) (stk : list frame)
| PObjectColon (props : list (string * value)) (key : string) (stk : list frame)
| PObjectNext (props : list (string * value)) (stk : list frame)
| PDone (v : value).

(** A finished value goes into the innermost open container. *)
Definition complete (v : value) (stk : list frame) : pstate :=
  match stk with
  | [] => PDone v
  | FArray items :: rest => PArrayNext (v :: items) rest
  | FObject props key :: rest => PObjectNext (setOwn props key v) rest
  end.

Definition begin_value (t : token) (stk : list frame) : option pstate :=
  match t with
  | TString s => Some (complete (VString s) stk)
  | TNumber m e => Some (complete (VNumber m e) stk)
  | TTrue => Some (complete (VBool true) stk)
  | TFalse => Some (complete (VBool false) stk)
  | TNull => Some (complete VNull stk)
  | TLBracket => Some (PArrayOpen stk)
  | TLBrace => Some (PObjectOpen stk)
  | _ => None
  end.

Definition pstep (st : pstate) (t : token) : option pstate :=
  match st with
  | PValue stk => begin_value t stk
  | PArrayOpen stk =>
      match t with
      | TRBracket => Some (complete (VArray []) stk)
      | _ => begin_value t (FArray [] :: stk)
      end
  | PArrayNext items stk =>
      match t with
      | TComma => Some (PValue (FArray items :: stk))
      | TRBracket => Some (complete (VArray (rev items)) stk)
      | _ => None
      end
  | PObjectOpen stk =>
      match t with
      | TRBrace => Some (complete (VObject []) stk)
      | TString k => Some (PObjectColon [] k stk)
      | _ => None
      end
  | PObjectKey props stk =>
      match t with
      | TString k => Some (PObjectColon props k stk)
      | _ => None
      end
  | PObjectColon props k stk =>
      match t with
      | TColon => Some (PValue (FObject props k :: stk))
      | _ => None
      end
  | PObjectNext props stk =>
      match t with
      | TComma => Some (PObjectKey props stk)
      | TRBrace => Some (complete (VObject props) stk)
      | _ => None
      end
  | PDone _ => None
  end.

Fixpoint parse_from (st : pstate) (ts : list token) : option pstate :=
  match ts with
  | [] => Some st
  | t :: rest =>
      match pstep st t with
      | None => None
      | Some st' => parse_from st' rest
      end
  end.

Definition parse_tokens (ts : list token) : option value :=
  match parse_from (PValue []) ts with
  | Some (PDone v) => Some v
  | _ => None
  end.

(** [JSON.parse(text)]; [None] when it throws a [SyntaxError]. *)
Definition JSON_parse (text : string) : option value :=
  match lex text with
  | Some ts => parse_tokens ts
  | None => None
  end.

End Json.
(** ** The command grammar and the command embedded in a reply *)

Module Command.
Record t : Type := { name : string; params : list string }.
End Command.

Module Validation.
Record t : Type := { valid : bool; missing : list string; message : option string }.
End Validation.

Module Extractor.
Import Text Regex Js Json.

Definition not_bracket : atom := ANot [IChar "]"].

(** The three patterns tried by [chat], most demanding first: with the
    emphasis markers, without them, and without a closing brace. *)
Definition commandWithMarkers : regex :=
  cat [ lit "**[COMMAND:"; Star ASpace; Group 1 (Plus not_bracket); lit "]**";
        Star ASpace; Group 2 (cat [lit "{"; Star ADot; lit "}"]); Eol ].

Definition commandPlain : regex :=
  cat [ lit "[COMMAND:"; Star ASpace; Group 1 (Plus not_bracket); lit "]";
        Star ASpace; Group 2 (cat [lit "{"; Star ADot; lit "}"]); Eol ].

Definition commandUnclosed : regex :=
  cat [ lit "[COMMAND:"; Star ASpace; Group 1 (Plus not_bracket); lit "]";
        Star ASpace; Group 2 (Seq (lit "{") (Star ADot)) ].

(** [aiMessage.match(...)], falling through the three patterns. *)
Definition commandMatch (aiMessage : string) : option captures :=
  match exec flag_m commandWithMarkers aiMessage with
  | Some m => Some m
  | None =>
      match exec flag_m commandPlain aiMessage with
      | Some m => Some m
      | None => exec no_flags commandUnclosed aiMessage
      end
  end.

(** The command name and the parameter text read off a match:
    [commandMatch[1].trim()] and [commandMatch[2] || '{}']. *)
Definition extractCommand (aiMessage : string) : option (string * string) :=
  match commandMatch aiMessage with
  | None => None
  | Some c =>
      let commandName := trim (group 1 c) in
      let parametersString := if String.eqb (group 2 c) "" then "{}" else group 2 c in
      Some (commandName, parametersString)
  end.

(** The counting loop of the repair pass. *)
Fixpoint countOpenBraces (s : string) (openBraces : Z) : Z :=
  match s with
  | EmptyString => openBraces
  | String c t =>
      let o1 := if Ascii.eqb c "{" then openBraces + 1 else openBraces in
      let o2 := if Ascii.eqb c "}" then o1 - 1 else o1 in
      countOpenBraces t o2
  end.

(** The appending loop: one closing brace while [openBraces > 0]. *)
Definition repairJson (parametersString : string) : string :=
  parametersString +:+ repeat_char "}" (Z.to_nat (countOpenBraces parametersString 0)).

(** Strict parse, then the parse of the repaired text; [None] when the
    original [SyntaxError] is rethrown. *)
Definition parseParameters (parametersString : string) : option value :=
  match JSON_parse parametersString with
  | Some v => Some v
  | None => JSON_parse (repairJson parametersString)
  end.

End Extractor.

Module Validator.
Import Text Js.

Section WithGrammar.
(** The content of [constants/commands.json]. *)
Variable commands : list Command.t.

Definition findCommand (commandName : string) : option Command.t :=
  List.find (fun cmd => String.eqb (Command.name cmd) commandName) commands.

Definition requiredParams (command : Command.t) : list string :=
  List.filter (fun p => negb (endsWith p "?")) (Command.params command).

(** The test applied to each required parameter, for a value that has a
    string conversion ([convertsToString]). *)
Definition isMissing (parameters : value) (param : string) : bool :=
  negb (ToBoolean (getProp parameters param))
  || String.eqb (trim (ToString (getProp parameters param))) "".

Definition validateCommandParameters (commandName : string) (parameters : value)
    : Validation.t :=
  match findCommand commandName with
  | None =>
      {| Validation.valid := false;
         Validation.missing := [];
         Validation.message := Some ("Unknown command: " +:+ commandName) |}
  | Some command =>
      let missing := List.filter (isMissing parameters) (requiredParams command) in
      if (0 <? length missing)%nat then
        {| Validation.valid := false;
           Validation.missing := missing;
           Validation.message :=
             Some ("Missing required parameters for " +:+ commandName +:+ ": "
                   +:+ join ", " missing) |}
      else
        {| Validation.valid := true;
           Validation.missing := [];
           Validation.message := None |}
  end.

End WithGrammar.

(** A grammar in the shape of [commands.json], used to run the service
    on concrete inputs.  The entries follow the examples of the system
    prompt; [searchTasks] stands for a command whose workspace is
    optional. *)
Definition sample_commands : list Command.t :=
  [ {| Command.name := "listWorkspaces"; Command.params := [] |};
    {| Command.name := "createWorkspace"; Command.params := ["name"; "description"] |};
    {| Command.name := "navigateToWorkspace"; Command.params := ["workspaceSlug"] |};
    {| Command.name := "editWorkspace"; Command.params := ["workspaceSlug"; "updates"] |};
    {| Command.name := "listProjects"; Command.params := ["workspaceSlug"] |};
    {| Command.name := "navigateToProject"; Command.params := ["workspaceSlug"; "projectSlug"] |};
    {| Command.name := "createTask";
       Command.params := ["workspaceSlug"; "projectSlug"; "taskTitle"; "description?"] |};
    {| Command.name := "searchTasks"; Command.params := ["query"; "workspaceSlug?"] |} ].

End Validator.
(** ** Notions used to state the repair properties *)

Module RepairAnalysis.
Import Text Js Json.

(** The lexer run over a text without the final flush: the state reached
    and the tokens produced so far. *)
Fixpoint lex_run (st : lstate) (s : string) : option (lstate * list token) :=
  match s with
  | EmptyString => Some (st, [])
  | String c t =>
      match lstep st c with
      | None => None
      | Some (st', out) =>
          match lex_run st' t with
          | None => None
          | Some (st'', out') => Some (st'', out ++ out')
          end
      end
  end.

Definition brace_char (c : ascii) : bool := Ascii.eqb c "{" || Ascii.eqb c "}".

Definition clean (chars : list ascii) : bool :=
  forallb (fun c => negb (brace_char c)) chars.

Definition clean_token (t : token) : bool :=
  match t with
  | TString s => clean (list_ascii_of_string s)
  | _ => true
  end.

(** No key and no string value of the text contains a brace. *)
Definition braceFreeStrings (text : string) : bool :=
  match lex text with
  | Some ts => forallb clean_token ts
  | None => false
  end.

Definition char_delta (c : ascii) : Z :=
  if Ascii.eqb c "{" then 1 else if Ascii.eqb c "}" then -1 else 0.

Definition token_delta (t : token) : Z :=
  match t with
  | TLBrace => 1
  | TRBrace => -1
  | _ => 0
  end.

Fixpoint tokens_delta (ts : list token) : Z :=
  match ts with
  | [] => 0
  | t :: rest => token_delta t + tokens_delta rest
  end.

(** The characters of the string literal being read. *)
Definition pending (st : lstate) : list ascii :=
  match st with
  | LString acc | LEscape acc | LUnicode acc _ => acc
  | _ => []
  end.

(** The number of objects open in a parser state. *)
Definition frame_depth (f : frame) : Z :=
  match f with
  | FObject _ _ => 1
  | FArray _ => 0
  end.

Fixpoint stack_depth (stk : list frame) : Z :=
  match stk with
  | [] => 0
  | f :: rest => frame_depth f + stack_depth rest
  end.

Definition depth (st : pstate) : Z :=
  match st with
  | PValue stk | PArrayOpen stk | PArrayNext _ stk => stack_depth stk
  | PObjectOpen stk | PObjectKey _ stk | PObjectColon _ _ stk | PObjectNext _ stk =>
      1 + stack_depth stk
  | PDone _ => 0
  end.

(** The capture groups a pattern can set. *)
Fixpoint groups_of (r : Regex.regex) : list nat :=
  match r with
  | Regex.Seq r1 r2 | Regex.Alt r1 r2 => groups_of r1 ++ groups_of r2
  | Regex.Opt r1 => groups_of r1
  | Regex.Group n r1 => n :: groups_of r1
  | _ => []
  end.

(** The root of the value being parsed is an object. *)
Definition object_at_bottom (stk : list frame) : Prop :=
  match last stk with
  | Some (FObject _ _) => True
  | _ => False
  end.

Definition rooted_in_object (st : pstate) : Prop :=
  match st with
  | PValue stk | PArrayOpen stk | PArrayNext _ stk => object_at_bottom stk
  | PObjectOpen stk | PObjectKey _ stk | PObjectColon _ _ stk | PObjectNext _ stk =>
      stk = [] \/ object_at_bottom stk
  | PDone v => exists props, v = VObject props
  end.

End RepairAnalysis.
(** ** Session context and its mutators *)

Module Context.
Import Js.

(** One entry of [conversationContexts].  A field that is absent (or was
    deleted) reads [VUndefined]. *)
Record t : Type := {
  workspaceSlug : value;
  workspaceName : value;
  projectSlug : value;
  projectName : value;
  lastUpdated : Z;
  currentWorkSpaceProjectSlug : option (list string)
}.

(** [{ lastUpdated: new Date() }] *)
Definition fresh (now : Z) : t :=
  {| workspaceSlug := VUndefined; workspaceName := VUndefined;
     projectSlug := VUndefined; projectName := VUndefined;
     lastUpdated := now; currentWorkSpaceProjectSlug := None |}.

Definition set_workspaceSlug (v : value) (c : t) : t :=
  {| workspaceSlug := v; workspaceName := workspaceName c;
     projectSlug := projectSlug c; projectName := projectName c;
     lastUpdated := lastUpdated c;
     currentWorkSpaceProjectSlug := currentWorkSpaceProjectSlug c |}.

Definition set_workspaceName (v : value) (c : t) : t :=
  {| workspaceSlug := workspaceSlug c; workspaceName := v;
     projectSlug := projectSlug c; projectName := projectName c;
     lastUpdated := lastUpdated c;
     currentWorkSpaceProjectSlug := currentWorkSpaceProjectSlug c |}.

Definition set_projectSlug (v : value) (c : t) : t :=
  {| workspaceSlug := workspaceSlug c; workspaceName := workspaceName c;
     projectSlug := v; projectName := projectName c;
     lastUpdated := lastUpdated c;
     currentWorkSpaceProjectSlug := currentWorkSpaceProjectSlug c |}.

Definition set_projectName (v : value) (c : t) : t :=
  {| workspaceSlug := workspaceSlug c; workspaceName := workspaceName c;
     projectSlug := projectSlug c; projectName := v;
     lastUpdated := lastUpdated c;
     currentWorkSpaceProjectSlug := currentWorkSpaceProjectSlug c |}.

Definition set_lastUpdated (now : Z) (c : t) : t :=
  {| workspaceSlug := workspaceSlug c; workspaceName := workspaceName c;
     projectSlug := projectSlug c; projectName := projectName c;
     lastUpdated := now;
     currentWorkSpaceProjectSlug := currentWorkSpaceProjectSlug c |}.

Definition set_currentWorkSpaceProjectSlug (l : list string) (c : t) : t :=
  {| workspaceSlug := workspaceSlug c; workspaceName := workspaceName c;
     projectSlug := projectSlug c; projectName := projectName c;
     lastUpdated := lastUpdated c;
     currentWorkSpaceProjectSlug := Some l |}.

(** [delete context.projectSlug; delete context.projectName] *)
Definition clearProject (c : t) : t :=
  set_projectName VUndefined (set_projectSlug VUndefined c).

End Context.

Module SlugCheck.
Inductive status : Type := exact | fuzzy | not_found.
Record t : Type := { status_of : status; slug : string }.
End SlugCheck.

Module Mutator.
Import Text Regex Js.

(** [s.replace(/\s+/g, '-')]: each run of white space becomes one hyphen. *)
Fixpoint hyphenate (inRun : bool) (s : string) : string :=
  match s with
  | EmptyString => EmptyString
  | String c t =>
      if is_space c then
        if inRun then hyphenate true t else String "-" (hyphenate true t)
      else String c (hyphenate false t)
  end.

(** [s.replace(/[^a-z0-9-]/g, '')] *)
Fixpoint keepSlugChars (s : string) : string :=
  match s with
  | EmptyString => EmptyString
  | String c t =>
      if in_range "a" "z" c || in_range "0" "9" c || Ascii.eqb c "-"
      then String c (keepSlugChars t)
      else keepSlugChars t
  end.

(** [s.toLowerCase().replace(/\s+/g, '-').replace(/[^a-z0-9-]/g, '')] *)
Definition slugOf (s : string) : string :=
  keepSlugChars (hyphenate false (toLowerCase s)).

(** The local [slugify]: optional chaining lets [null] and [undefined]
    through, a string is converted, and any other value has no
    [toLowerCase] method. *)
Definition slugify (str : value) : Res value :=
  match str with
  | VUndefined | VNull => Ok VUndefined
  | VString s => Ok (VString (slugOf s))
  | _ => Throw (Error "str?.toLowerCase is not a function")
  end.

(** [a || b] *)
Definition or_else (a b : value) : value := if ToBoolean a then a else b.

(** [o?.k] *)
Definition optProp (o : value) (k : string) : value :=
  match o with
  | VUndefined | VNull => VUndefined
  | _ => getProp o k
  end.

Section WithCollaborators.
(** [workspacesService.getIdBySlug], [projectService.getAllSlugsByWorkspaceId]
    and the clock. *)
Variable getIdBySlug : value -> Res (option string).
Variable getAllSlugsByWorkspaceId : string -> Res (list string).
Variable now : Z.

Definition onNavigateToWorkspace (parameters : value) (context : Context.t)
    : Res Context.t :=
  if ToBoolean (getProp parameters "workspaceSlug") then
    match getIdBySlug (getProp parameters "workspaceSlug") with
    | Throw e => Throw e
    | Ok slug =>
        match getAllSlugsByWorkspaceId (default "" slug) with
        | Throw e => Throw e
        | Ok currentWorkSpaceAllProjects =>
            Ok (Context.clearProject
                  (Context.set_workspaceName
                     (or_else (getProp parameters "workspaceName")
                              (getProp parameters "workspaceSlug"))
                     (Context.set_workspaceSlug (getProp parameters "workspaceSlug")
                        (Context.set_currentWorkSpaceProjectSlug
                           currentWorkSpaceAllProjects context))))
        end
    end
  else Ok context.

(** The [createWorkspace] block, for a name that has a string conversion
    ([convertsToString]). *)
Definition onCreateWorkspace (parameters : value) (context : Context.t) : Context.t :=
  if ToBoolean (getProp parameters "name") then
    let workspaceSlug := slugOf (ToString (getProp parameters "name")) in
    Context.clearProject
      (Context.set_workspaceName (VString (ToString (getProp parameters "name")))
         (Context.set_workspaceSlug (VString workspaceSlug) context))
  else context.

Definition onProjectCommand (commandName : string) (parameters : value)
    (context : Context.t) : Res Context.t :=
  let name := getProp parameters "name" in
  let projectSlug := getProp parameters "projectSlug" in
  let workspaceSlug := getProp parameters "workspaceSlug" in
  let withProject : Res Context.t :=
    if String.eqb commandName "createProject" then
      match (if ToBoolean name then slugify name else Ok projectSlug) with
      | Throw e => Throw e
      | Ok s =>
          Ok (Context.set_projectName (or_else name projectSlug)
                (Context.set_projectSlug s context))
      end
    else
      match (if ToBoolean projectSlug then Ok projectSlug
             else if ToBoolean name then slugify name else Ok VUndefined) with
      | Throw e => Throw e
      | Ok s =>
          Ok (Context.set_projectName (or_else projectSlug name)
                (Context.set_projectSlug s context))
      end in
  match withProject with
  | Throw e => Throw e
  | Ok c =>
      Ok (if ToBoolean workspaceSlug then Context.set_workspaceSlug workspaceSlug c else c)
  end.

Definition onEditWorkspace (parameters : value) (context : Context.t) : Context.t :=
  if ToBoolean (optProp (getProp parameters "updates") "name") then
    if ToBoolean (getProp parameters "workspaceSlug") then
      Context.set_workspaceName (optProp (getProp parameters "updates") "name")
        (Context.set_workspaceSlug (getProp parameters "workspaceSlug") context)
    else context
  else context.

(** [updateContextFromCommand]: the context it writes back to the map,
    or the exception that leaves the context as it was. *)
Definition updateContextFromCommand (commandName : string) (parameters : value)
    (context : Context.t) : Res Context.t :=
  match (if String.eqb commandName "navigateToWorkspace"
         then onNavigateToWorkspace parameters context else Ok context) with
  | Throw e => Throw e
  | Ok c1 =>
      let c2 := if String.eqb commandName "createWorkspace"
                then onCreateWorkspace parameters c1 else c1 in
      match (if String.eqb commandName "navigateToProject"
                || String.eqb commandName "createProject"
             then onProjectCommand commandName parameters c2 else Ok c2) with
      | Throw e => Throw e
      | Ok c3 =>
          let c4 := if String.eqb commandName "editWorkspace"
                    then onEditWorkspace parameters c3 else c3 in
          Ok (Context.set_lastUpdated now c4)
      end
  end.

End WithCollaborators.

(** *** Heuristic extraction from the user message *)

Definition ws1 : regex := Plus ASpace.
Definition quote : atom := ASet [IChar (ascii_of_N 34); IChar "'"].
Definition not_quote : atom := ANot [IChar (ascii_of_N 34); IChar "'"].
(** not a quote, [.], [,], [!], [?] or a line feed *)
Definition name_char : atom :=
  ANot [IChar (ascii_of_N 34); IChar "'"; IChar "."; IChar ","; IChar "!"; IChar "?";
        IChar (ascii_of_N 10)].
Definition name_char_no_space : atom :=
  ANot [IChar (ascii_of_N 34); IChar "'"; IChar "."; IChar ","; IChar "!"; IChar "?";
        IChar (ascii_of_N 10); ISpace].

Definition goVerbs : regex :=
  alt [ cat [lit "go"; ws1; lit "with"]; lit "use"; lit "with";
        cat [lit "navigate"; ws1; lit "to"]; cat [lit "go"; ws1; lit "to"] ].

Definition takeMeVerbs : regex :=
  alt [ cat [lit "take"; ws1; lit "me"; ws1; lit "to"];
        cat [lit "navigate"; ws1; lit "to"]; cat [lit "go"; ws1; lit "to"] ].

Definition workspacePatterns : list regex :=
  [ cat [ goVerbs; ws1; lit "workspace"; ws1; One quote; Group 1 (Plus not_quote);
          Opt (One quote) ];
    cat [ lit "workspace"; ws1; lit "is"; ws1; One quote; Group 1 (Plus not_quote);
          Opt (One quote) ];
    cat [ lit "use"; ws1; Opt (One quote); Group 1 (Plus name_char); ws1;
          lit "workspace"; Opt (One quote) ];
    cat [ One quote; Group 1 (Plus not_quote); ws1; lit "workspace"; Opt (One quote) ];
    cat [ lit "in"; ws1; Opt (cat [lit "the"; ws1]); Opt (One quote);
          Group 1 (Plus name_char); ws1; lit "workspace"; Opt (One quote) ];
    cat [ Opt (One quote);
          Group 1 (Seq (One (ASet [IRange "a" "z"; IRange "A" "Z"])) (StarLazy name_char));
          ws1; lit "w"; One (ASet [IChar "u"; IChar "o"]); lit "rkspace"; Opt (One quote) ];
    cat [ takeMeVerbs; ws1; Opt (One quote); Group 1 (Plus name_char); Opt (One quote);
          Opt (cat [ws1; lit "workspace"]) ] ].

Definition projectPatterns : list regex :=
  [ cat [ Opt (cat [lit "ok"; Opt (lit ","); ws1]); goVerbs; ws1; Opt (One quote);
          Group 1 (PlusLazy name_char); ws1; lit "project"; Opt (One quote) ];
    cat [ Opt (cat [lit "i"; ws1]); alt [lit "choose"; lit "select"; lit "pick"]; ws1;
          Opt (One quote); Group 1 (Plus name_char); Opt (One quote) ];
    cat [ lit "project"; ws1; lit "is"; ws1; Opt (One quote); Group 1 (Plus name_char);
          Opt (One quote) ];
    cat [ Opt (One quote); Group 1 (Plus name_char_no_space); ws1; lit "project";
          Opt (One quote) ];
    cat [ lit "in"; ws1; Opt (cat [lit "the"; ws1]); Opt (One quote);
          Group 1 (PlusLazy name_char); ws1; lit "project"; Opt (One quote) ];
    cat [ takeMeVerbs; ws1; lit "project"; ws1; Opt (One quote); Group 1 (Plus name_char);
          Opt (One quote) ] ].

Definition skipWords : list string :=
  [ "yes"; "no"; "ok"; "fine"; "good"; "sure"; "right"; "correct"; "thanks"; "thank you";
    "i want to create a task drink water";
    "can you first list the projects sot hat i can choose";
    "the"; "a"; "an"; "and"; "or"; "but"; "with"; "without"; "please"; "help" ].

Definition MAX_MESSAGE_LENGTH : N := 10000.

Definition safeMessageOf (message : string) : string :=
  if (MAX_MESSAGE_LENGTH <? N.of_nat (String.length message))%N
  then take (N.to_nat MAX_MESSAGE_LENGTH) message
  else message.

(** The first match of one pattern whose group 1 is not empty, trimmed. *)
Fixpoint firstWorkspaceName (matches : list captures) : option string :=
  match matches with
  | [] => None
  | m :: more =>
      if String.eqb (group 1 m) "" then firstWorkspaceName more
      else Some (trim (group 1 m))
  end.

Definition looksLikeWorkspace (projectName : string) : bool :=
  includes (toLowerCase projectName) "workspace"
  || includes (toLowerCase projectName) "wokspace".

Definition isSkipped (projectName : string) : bool :=
  existsb (fun word => includes (toLowerCase projectName) word) skipWords
  || startsWith (toLowerCase projectName) "i want to"
  || startsWith (toLowerCase projectName) "can you".

(** The first match of one pattern that is neither workspace-like nor a
    filler word, trimmed. *)
Fixpoint firstProjectName (matches : list captures) : option string :=
  match matches with
  | [] => None
  | m :: more =>
      if String.eqb (group 1 m) "" then firstProjectName more
      else
        let projectName := trim (group 1 m) in
        if looksLikeWorkspace projectName then firstProjectName more
        else if isSkipped projectName then firstProjectName more
        else Some projectName
  end.

(** The body of the loop over [workspacePatterns]; the flag is
    [contextUpdated]. *)
Definition workspaceStep (safeMessage lowerMessage : string)
    (acc : Context.t * bool) (pattern : regex) : Context.t * bool :=
  match firstWorkspaceName (matchAll flag_i pattern safeMessage) with
  | None => acc
  | Some workspaceName =>
      let c := Context.set_workspaceName (VString workspaceName) (fst acc) in
      (if negb (includes lowerMessage "project") then Context.clearProject c else c, true)
  end.

Definition projectStep (safeMessage : string)
    (acc : Context.t * bool) (pattern : regex) : Context.t * bool :=
  match firstProjectName (matchAll flag_i pattern safeMessage) with
  | None => acc
  | Some projectName =>
      (Context.set_projectName (VString projectName)
         (Context.set_projectSlug (VString (slugOf projectName)) (fst acc)), true)
  end.

(** [extractContextFromMessage]: the context after the two loops, its
    time stamp refreshed when something was found. *)
Definition extractContextFromMessage (now : Z) (message : string) (context : Context.t)
    : Context.t :=
  let safeMessage := safeMessageOf message in
  let lowerMessage := toLowerCase safeMessage in
  let afterWorkspace :=
    fold_left (workspaceStep safeMessage lowerMessage) workspacePatterns (context, false) in
  let afterProject :=
    fold_left (projectStep safeMessage) projectPatterns afterWorkspace in
  if snd afterProject then Context.set_lastUpdated now (fst afterProject)
  else fst afterProject.

End Mutator.

(** ** Notions used to state the context properties *)

Module ContextAnalysis.
Import Text Regex Js Mutator.

Definition projectCleared (c : Context.t) : Prop :=
  Context.projectSlug c = VUndefined /\ Context.projectName c = VUndefined.




End ContextAnalysis.
(** ** The chat turn *)

Module ChatRequest.
(** The fields of [ChatRequestDto] the turn's control flow reads.  The
    message history only enters the request body, which is not modelled. *)
Record t : Type := {
  message : string;
  sessionId : option string;
  currentOrganizationId : option string
}.
End ChatRequest.

Module Action.
Record t : Type := { name : string; parameters : Js.value }.
End Action.

Module ChatResponse.
Record t : Type := {
  message : string;
  action : option Action.t;
  success : bool;
  error : option string
}.
End ChatResponse.

Module HttpResponse.
(** What [fetch] resolves to: [json] is the outcome of [response.json()]. *)
Record t : Type := { ok : bool; status : Z; json : Res Js.value }.
End HttpResponse.

Module Services.
(** The collaborators of the service and the clock.  A rejected promise
    is a [Throw]. *)
Record t : Type := {
  settings_get : string -> string -> option string -> Res (option string);
  findAllSlugs : string -> Res (list string);
  getIdBySlug : Js.value -> Res (option string);
  getAllSlugsByWorkspaceId : string -> Res (list string);
  validateProjectSlug : Js.value -> Res SlugCheck.t;
  fetch : string -> Res HttpResponse.t;
  now : Z
}.
End Services.

Module Chat.
Import Text Regex Js Json Guard Extractor Validator Mutator.

(** The same collaborators with another network. *)
Definition with_fetch (fetch : string -> Res HttpResponse.t) (env : Services.t)
    : Services.t :=
  {| Services.settings_get := Services.settings_get env;
     Services.findAllSlugs := Services.findAllSlugs env;
     Services.getIdBySlug := Services.getIdBySlug env;
     Services.getAllSlugsByWorkspaceId := Services.getAllSlugsByWorkspaceId env;
     Services.validateProjectSlug := Services.validateProjectSlug env;
     Services.fetch := fetch;
     Services.now := Services.now env |}.

(** [encodeURIComponent] on the alphabet: unreserved characters stay,
    every other code unit is percent-encoded from its UTF-8 bytes. *)
Definition hexDigit (n : N) : ascii :=
  if (n <? 10)%N then ascii_of_N (48 + n) else ascii_of_N (55 + n).

Definition percent (n : N) : string :=
  String "%" (String (hexDigit (n / 16)) (String (hexDigit (n mod 16)) EmptyString)).

Definition unreserved (c : ascii) : bool :=
  in_range "a" "z" c || in_range "A" "Z" c || in_range "0" "9" c
  || existsb (Ascii.eqb c) ["-"; "_"; "."; "!"; "~"; "*"; "'"; "("; ")"]%char.

Fixpoint encodeURIComponent (s : string) : string :=
  match s with
  | EmptyString => EmptyString
  | String c t =>
      (if unreserved c then String c EmptyString
       else if (code c <? 128)%N then percent (code c)
       else percent (192 + code c / 64) +:+ percent (128 + code c mod 64))
      +:+ encodeURIComponent t
  end.

Definition modelNamePattern : regex :=
  cat [ Bol; Plus (ASet [IRange "a" "z"; IRange "A" "Z"; IRange "0" "9"; IChar "."; IChar "-"]);
        Eol ].

Definition drivePathPattern : regex :=
  cat [ Bol; One (ASet [IRange "a" "z"; IRange "A" "Z"]); lit ":\" ].

(** [validateModelName(model)] with its default options. *)
Definition validateModelName (model : option string) : Res unit :=
  match model with
  | None => Throw (BadRequestException "Model name is required and must be a string")
  | Some m =>
      if String.eqb m "" then
        Throw (BadRequestException "Model name is required and must be a string")
      else
        let trimmedModel := trim m in
        if (String.length trimmedModel =? 0)%nat then
          Throw (BadRequestException "Model name cannot be empty")
        else if (100 <? String.length trimmedModel)%nat then
          Throw (BadRequestException "Model name is too long (max 100 characters)")
        else if includes trimmedModel ".." then
          Throw (BadRequestException
                   "Model name cannot contain path traversal sequences (..)")
        else if startsWith trimmedModel "/" || test no_flags drivePathPattern trimmedModel then
          Throw (BadRequestException "Model name cannot be an absolute path")
        else if negb (test no_flags modelNamePattern trimmedModel) then
          Throw (BadRequestException "Model name contains invalid characters")
        else Ok tt
  end.

(** [v?.[0]] *)
Definition optFirst (v : value) : value :=
  match v with
  | VArray (x :: _) => x
  | VString (String c _) => VString (String c EmptyString)
  | VObject props => getOwn props "0"
  | _ => VUndefined
  end.

(** [data.k] where [data] may be [null]: reading a property of [null]
    or [undefined] throws. *)
Definition propOf (data : value) (k : string) : Res value :=
  match data with
  | VUndefined | VNull =>
      Throw (Error ("Cannot read properties of null (reading '" +:+ k +:+ "')"))
  | _ => Ok (getProp data k)
  end.

(** The text of the reply, by provider: [... || '']. *)
Definition replyText (provider : string) (data : value) : Res value :=
  if String.eqb provider "anthropic" then
    match propOf data "content" with
    | Throw e => Throw e
    | Ok content => Ok (or_else (optProp (optFirst content) "text") (VString ""))
    end
  else if String.eqb provider "google" then
    match propOf data "candidates" with
    | Throw e => Throw e
    | Ok candidates =>
        Ok (or_else
              (optProp (optFirst (optProp (optProp (optFirst candidates) "content") "parts"))
                       "text")
              (VString ""))
    end
  else
    match propOf data "choices" with
    | Throw e => Throw e
    | Ok choices =>
        Ok (or_else (optProp (optProp (optFirst choices) "message") "content") (VString ""))
    end.

(** The message of [new BadRequestException(x)] for an arbitrary [x]. *)
Definition exceptionMessage (x : value) : string :=
  match x with
  | VString s => s
  | VObject props =>
      match getOwn props "message" with
      | VString s => s
      | _ => "Bad Request Exception"
      end
  | _ => "Bad Request Exception"
  end.

Definition decimalZ (z : Z) : string :=
  if z <? 0 then "-" +:+ decimal (Z.to_N (- z)) else decimal (Z.to_N z).

(** The exception raised for a response that is not [ok]. *)
Definition providerError (response : HttpResponse.t) : exn :=
  let errorData :=
    match HttpResponse.json response with Ok d => d | Throw _ => VObject [] end in
  if HttpResponse.status response =? 401 then
    BadRequestException "Invalid API key. Please check your OpenRouter API key in settings."
  else if HttpResponse.status response =? 429 then
    BadRequestException "Rate limit exceeded by API provider. Please try again in a moment."
  else if HttpResponse.status response =? 402 then
    BadRequestException "Insufficient credits. Please check your OpenRouter account."
  else
    match propOf errorData "error" with
    | Throw e => e
    | Ok err =>
        BadRequestException
          (exceptionMessage
             (or_else (optProp err "message")
                (VString ("API request failed with status "
                          +:+ decimalZ (HttpResponse.status response)))))
    end.

(** The session key: [chatRequest.sessionId || 'default']. *)
Definition sessionKey (chatRequest : ChatRequest.t) : string :=
  match ChatRequest.sessionId chatRequest with
  | Some s => if String.eqb s "" then "default" else s
  | None => "default"
  end.

Definition truthy (s : option string) : bool :=
  match s with
  | Some x => negb (String.eqb x "")
  | None => false
  end.

Section Service.
Variable commands : list Command.t.
Variable URL_parse : string -> option URL.
Variable env : Services.t.

(** The end point of the request, by provider. *)
Definition requestUrlFor (provider apiUrl : string) (model : option string)
    (apiKey : string) : Res string :=
  if String.eqb provider "openrouter" || String.eqb provider "openai" then
    Ok (apiUrl +:+ "/chat/completions")
  else if String.eqb provider "anthropic" then Ok (apiUrl +:+ "/messages")
  else if String.eqb provider "google" then
    match validateModelName model with
    | Throw e => Throw e
    | Ok _ =>
        Ok (apiUrl +:+ "/models/" +:+ encodeURIComponent (default "null" model)
            +:+ ":generateContent?key=" +:+ encodeURIComponent apiKey)
    end
  else Ok (apiUrl +:+ "/chat/completions").

(** The auto-fill block.  The identity test that guards the project
    slug holds when the workspace slug was just copied from the context
    ([fillWorkspace]); otherwise it compares a freshly parsed value with
    the one the context holds. *)
Definition autoFill (commandName : string) (parameters : value)
    (sessionContext : Context.t) : value :=
  let fillWorkspace :=
    negb (String.eqb commandName "listWorkspaces")
    && negb (String.eqb commandName "createWorkspace")
    && negb (ToBoolean (getProp parameters "workspaceSlug"))
    && ToBoolean (Context.workspaceSlug sessionContext) in
  let p1 :=
    if fillWorkspace
    then setProp parameters "workspaceSlug" (Context.workspaceSlug sessionContext)
    else parameters in
  if (includes commandName "Task" || includes commandName "Project")
     && negb (ToBoolean (getProp p1 "projectSlug"))
     && ToBoolean (Context.projectSlug sessionContext)
     && (fillWorkspace
         || strictEquals (getProp p1 "workspaceSlug") (Context.workspaceSlug sessionContext))
  then setProp p1 "projectSlug" (Context.projectSlug sessionContext)
  else p1.

(** The [switch] on the command name: the slug check of
    [navigateToProject], giving the parameters and the message.  The
    pictographs and the typographic apostrophe of the fixed messages are
    kept as their UTF-8 bytes. *)
Definition resolveProjectSlug (commandName : string) (parameters : value)
    (aiMessage : string) : Res (value * string) :=
  if String.eqb commandName "navigateToProject" then
    match Services.validateProjectSlug env (getProp parameters "projectSlug") with
    | Throw e => Throw e
    | Ok projectSlug =>
        match SlugCheck.status_of projectSlug with
        | SlugCheck.exact =>
            Ok (setProp parameters "projectSlug" (VString (SlugCheck.slug projectSlug)),
                "✅ Great! I found the project **" +:+ SlugCheck.slug projectSlug
                +:+ "**. Taking you there now.")
        | SlugCheck.fuzzy =>
            Ok (setProp parameters "projectSlug" (VString (SlugCheck.slug projectSlug)),
                "🤔 I couldn’t find an exact match, but I found something close: **"
                +:+ SlugCheck.slug projectSlug +:+ "**. Navigating there for you.")
        | SlugCheck.not_found =>
            Ok (setProp parameters "projectSlug" (VString ""),
                "⚠️ I couldn't find any project matching that name."
                +:+ String (ascii_of_N 10) (repeat_char " " 18)
                +:+ "Try again with a different project name, or use **list all projects** to see what's available.")
        end
    end
  else Ok (parameters, aiMessage).

Definition plainReply (aiMessage : string) (action : option Action.t) : ChatResponse.t :=
  {| ChatResponse.message := aiMessage;
     ChatResponse.action := action;
     ChatResponse.success := true;
     ChatResponse.error := None |}.

(** The part of [chat] from "Parse command if detected" to the final
    [return]: the response and the context left in the map. *)
Definition resolveCommand (aiMessage : string) (sessionContext : Context.t)
    : ChatResponse.t * Context.t :=
  match extractCommand aiMessage with
  | None => (plainReply aiMessage None, sessionContext)
  | Some (commandName, parametersString) =>
      match parseParameters parametersString with
      | None => (plainReply aiMessage None, sessionContext)
      | Some parameters =>
          let validation := validateCommandParameters commands commandName parameters in
          if negb (Validation.valid validation) then
            let missingParamsList :=
              if (0 <? length (Validation.missing validation))%nat
              then "I need the following information to proceed: "
                   +:+ join ", " (Validation.missing validation) +:+ "."
              else default "undefined" (Validation.message validation) in
            (plainReply (aiMessage +:+ String (ascii_of_N 10) (String (ascii_of_N 10) EmptyString)
                         +:+ missingParamsList) None,
             sessionContext)
          else
            let filled := autoFill commandName parameters sessionContext in
            match resolveProjectSlug commandName filled aiMessage with
            | Throw _ => (plainReply aiMessage None, sessionContext)
            | Ok (resolved, aiMessage') =>
                let action := {| Action.name := commandName; Action.parameters := resolved |} in
                match updateContextFromCommand (Services.getIdBySlug env)
                        (Services.getAllSlugsByWorkspaceId env) (Services.now env)
                        commandName resolved sessionContext with
                | Throw _ => (plainReply aiMessage' (Some action), sessionContext)
                | Ok context' => (plainReply aiMessage' (Some action), context')
                end
            end
      end
  end.

(** The map from session id to context. *)
Definition conversationContexts : Type := gmap string Context.t.

(** The turn up to the provider's reply: the reply text and the session
    context in force, or the exception thrown on the way; with the map
    as it stands at that point. *)
Definition obtainReply (chatRequest : ChatRequest.t) (userId : string)
    (contexts : conversationContexts)
    : Res (string * Context.t) * conversationContexts :=
  match Services.settings_get env "ai_enabled" userId None with
  | Throw e => (Throw e, contexts)
  | Ok isEnabled =>
  if negb (bool_decide (isEnabled = Some "true")) then
    (Throw (BadRequestException
              "AI chat is currently disabled. Please enable it in settings."), contexts)
  else
  match Services.findAllSlugs env (default "" (ChatRequest.currentOrganizationId chatRequest)) with
  | Throw e => (Throw e, contexts)
  | Ok slugs =>
  let sessionId := sessionKey chatRequest in
  let sessionContext :=
    match contexts !! sessionId with
    | Some c => c
    | None => Context.fresh (Services.now env)
    end in
  let contexts1 := <[sessionId := sessionContext]> contexts in
  match Services.settings_get env "ai_api_key" userId None with
  | Throw e => (Throw e, contexts1)
  | Ok apiKey =>
  match Services.settings_get env "ai_model" userId
          (Some "deepseek/deepseek-chat-v3-0324:free") with
  | Throw e => (Throw e, contexts1)
  | Ok model =>
  match Services.settings_get env "ai_api_url" userId (Some "https://openrouter.ai/api/v1") with
  | Throw e => (Throw e, contexts1)
  | Ok rawApiUrl =>
  match (if truthy rawApiUrl then validateApiUrl URL_parse (default "" rawApiUrl)
         else Ok "https://openrouter.ai/api/v1") with
  | Throw e => (Throw e, contexts1)
  | Ok apiUrl =>
  let provider := detectProvider URL_parse apiUrl in
  if negb (truthy apiKey) then
    (Throw (BadRequestException "AI API key not configured. Please set it in settings."),
     contexts1)
  else
  let sessionContext2 :=
    extractContextFromMessage (Services.now env) (ChatRequest.message chatRequest)
      sessionContext in
  let contexts2 := <[sessionId := sessionContext2]> contexts1 in
  match requestUrlFor provider apiUrl model (default "" apiKey) with
  | Throw e => (Throw e, contexts2)
  | Ok requestUrl =>
  match Services.fetch env requestUrl with
  | Throw e => (Throw e, contexts2)
  | Ok response =>
  if negb (HttpResponse.ok response) then (Throw (providerError response), contexts2)
  else
  match HttpResponse.json response with
  | Throw e => (Throw e, contexts2)
  | Ok data =>
  match replyText provider data with
  | Throw e => (Throw e, contexts2)
  | Ok (VString aiMessage) => (Ok (aiMessage, sessionContext2), contexts2)
  | Ok _ => (Throw (Error "aiMessage.match is not a function"), contexts2)
  end end end end end end end end end end.

(** The outer [catch]. *)
Definition failure (e : exn) : ChatResponse.t :=
  let errorMessage := exn_message e in
  if includes errorMessage "Failed to fetch" || includes errorMessage "NetworkError" then
    {| ChatResponse.message := "";
       ChatResponse.action := None;
       ChatResponse.success := false;
       ChatResponse.error := Some "Network error. Please check your internet connection." |}
  else
    {| ChatResponse.message := "";
       ChatResponse.action := None;
       ChatResponse.success := false;
       ChatResponse.error :=
         Some (if String.eqb errorMessage "" then "Failed to process chat request"
               else errorMessage) |}.

(** [chat(chatRequest, userId)] as a transformer of [conversationContexts]. *)
Definition chat (chatRequest : ChatRequest.t) (userId : string)
    (contexts : conversationContexts)
    : ChatResponse.t * conversationContexts :=
  match obtainReply chatRequest userId contexts with
  | (Throw e, contexts') => (failure e, contexts')
  | (Ok (aiMessage, sessionContext), contexts') =>
      let '(response, context') := resolveCommand aiMessage sessionContext in
      (response, <[sessionKey chatRequest := context']> contexts')
  end.

End Service.

(** [clearContext(sessionId)] *)
Definition clearContext (sessionId : string) (contexts : conversationContexts)
    : conversationContexts :=
  delete sessionId contexts.

(** [cleanupOldContexts()] at time [now]: entries last updated more than
    an hour (in milliseconds) ago are deleted. *)
Definition cleanupOldContexts (now : Z) (contexts : conversationContexts)
    : conversationContexts :=
  filter (fun entry => negb (Context.lastUpdated (snd entry) <? now - 3600000) = true)
         contexts.

End Chat.
(** ** A concrete environment, to run the turn on concrete inputs *)

Module Samples.
Import Text Js Json Guard Validator Chat.

(** A command as the assistant embeds it in a reply. *)
Definition listCommand : string := "[COMMAND: listWorkspaces] {}".

(** AI enabled, a key for every user, defaults otherwise. *)
Definition sample_settings (key userId : string) (dflt : option string)
    : Res (option string) :=
  if String.eqb key "ai_enabled" then Ok (Some "true")
  else if String.eqb key "ai_api_key" then Ok (Some ("key-of-" +:+ userId))
  else Ok dflt.

(** The body of a provider response carrying [text] as the reply. *)
Definition reply_body (text : string) : value :=
  VObject [("choices",
            VArray [VObject [("message", VObject [("content", VString text)])]])].

(** Collaborators that answer every call, a provider that replies
    [reply], and a slug check that answers [check]. *)
Definition sample_services (reply : string) (check : SlugCheck.t) : Services.t :=
  {| Services.settings_get := sample_settings;
     Services.findAllSlugs := fun _ => Ok ["w1"; "beta"];
     Services.getIdBySlug := fun _ => Ok (Some "workspace-id");
     Services.getAllSlugsByWorkspaceId := fun _ => Ok ["alpha"; "marketing"];
     Services.validateProjectSlug := fun _ => Ok check;
     Services.fetch := fun _ =>
       Ok {| HttpResponse.ok := true; HttpResponse.status := 200;
             HttpResponse.json := Ok (reply_body reply) |};
     Services.now := 1000 |}.

Definition found_exact (slug : string) : SlugCheck.t :=
  {| SlugCheck.status_of := SlugCheck.exact; SlugCheck.slug := slug |}.

Definition nothing_found : SlugCheck.t :=
  {| SlugCheck.status_of := SlugCheck.not_found; SlugCheck.slug := "" |}.

(** A context left by earlier turns: workspace [w0] with a project. *)
Definition previous_context : Context.t :=
  Context.set_projectName (VString "Old Project")
    (Context.set_projectSlug (VString "old-project")
       (Context.set_workspaceName (VString "Workspace Zero")
          (Context.set_workspaceSlug (VString "w0") (Context.fresh 0)))).

(** A request that names no session. *)
Definition sample_request (message : string) : ChatRequest.t :=
  {| ChatRequest.message := message;
     ChatRequest.sessionId := None;
     ChatRequest.currentOrganizationId := Some "org-1" |}.

(** The turn with the sample grammar and parser. *)
Definition sample_chat (reply : string) (check : SlugCheck.t) (message userId : string)
    (contexts : conversationContexts) : ChatResponse.t * conversationContexts :=
  chat sample_commands sample_parse (sample_services reply check)
       (sample_request message) userId contexts.

End Samples.
(** ** Notions used to state further properties *)

Module Shape.
Import Text Regex Js.

(** Every character of [s] satisfies [p]. *)
Fixpoint all_chars (p : ascii -> bool) (s : string) : bool :=
  match s with
  | EmptyString => true
  | String c t => p c && all_chars p t
  end.

(** The characters of a model name: letters, digits, [.] and [-]. *)
Definition modelChar (c : ascii) : bool :=
  in_range "a" "z" c || in_range "A" "Z" c || in_range "0" "9" c
  || Ascii.eqb c "." || Ascii.eqb c "-".

(** The characters of a slug: lower-case letters, digits and [-]. *)
Definition slugChar (c : ascii) : bool :=
  in_range "a" "z" c || in_range "0" "9" c || Ascii.eqb c "-".

(** The hosts the last check of the endpoint guard names. *)
Definition providerHosts : list string :=
  ["api.openai.com"; "openrouter.ai"; "api.openrouter.ai"; "api.anthropic.com"].

Section Reached.
Context {R : Type}.

(** The continuation [k] gave [m] on some suffix of [s]. *)
Definition reached (k : cont R) (s : string) (m : R) : Prop :=
  exists prev' s' c' consumed, k prev' s' c' = Some m /\ s = consumed +:+ s'.

End Reached.

End Shape.

Module ContextShape.
Import Text Js Mutator.

(** What the two loops leave in the project name: the name held
    before, nothing, or a name that passed the filters, with its slug. *)
Definition projectNameOrigin (before c : Context.t) : Prop :=
  Context.projectName c = Context.projectName before
  \/ Context.projectName c = VUndefined
  \/ exists projectName,
       Context.projectName c = VString projectName
       /\ Context.projectSlug c = VString (slugOf projectName)
       /\ looksLikeWorkspace projectName = false
       /\ isSkipped projectName = false.

End ContextShape.

(** ** The example payloads of the system prompt *)

Module Prompt.
Import Text Js.

(** [param.replace('?', '')]: the first question mark goes. *)
Fixpoint dropFirstQuestion (param : string) : string :=
  match param with
  | EmptyString => EmptyString
  | String c t => if Ascii.eqb c "?" then t else String c (dropFirstQuestion t)
  end.

(** The body of the [reduce] in [generateSystemPrompt]:
    [obj[cleanParam] = cleanParam.includes('Slug') ? 'slug' : 'value']. *)
Definition addExample (obj : value) (param : string) : value :=
  let cleanParam := dropFirstQuestion param in
  setProp obj cleanParam (VString (if includes cleanParam "Slug" then "slug" else "value")).

(** The object whose JSON text the prompt shows after
    [[COMMAND: name]] for a command of the grammar. *)
Definition paramObj (cmd : Command.t) : value :=
  fold_left addExample (Command.params cmd) (VObject []).

(** One of the two example strings. *)
Definition isExample (v : value) : Prop := v = VString "slug" \/ v = VString "value".

End Prompt.

(** ** More concrete inputs *)

Module MoreSamples.
Import Text Js Guard.

(** The parse of some more end points, as the WHATWG parser gives it. *)
Definition cloud_parse (s : string) : option URL :=
  if String.eqb s "https://bedrock-runtime.us-east-1.amazonaws.com" then
    Some {| protocol := "https:"; hostname := "bedrock-runtime.us-east-1.amazonaws.com";
            port := ""; href := "https://bedrock-runtime.us-east-1.amazonaws.com/" |}
  else if String.eqb s "https://contoso.openai.azure.com/openai" then
    Some {| protocol := "https:"; hostname := "contoso.openai.azure.com";
            port := ""; href := "https://contoso.openai.azure.com/openai" |}
  else if String.eqb s "https://aiplatform.googleapis.com/v1" then
    Some {| protocol := "https:"; hostname := "aiplatform.googleapis.com";
            port := ""; href := "https://aiplatform.googleapis.com/v1" |}
  else if String.eqb s "https://api.anthropic.com/v1/" then
    Some {| protocol := "https:"; hostname := "api.anthropic.com";
            port := ""; href := "https://api.anthropic.com/v1/" |}
  else if String.eqb s "https://api.anthropic.com/v1" then
    Some {| protocol := "https:"; hostname := "api.anthropic.com";
            port := ""; href := "https://api.anthropic.com/v1" |}
  else if String.eqb s "https://generativelanguage.googleapis.com:8443/v1beta" then
    Some {| protocol := "https:"; hostname := "generativelanguage.googleapis.com";
            port := "8443";
            href := "https://generativelanguage.googleapis.com:8443/v1beta" |}
  else None.

(** Collaborators of an installation where the assistant is switched
    off. *)
Definition disabled_services : Services.t :=
  {| Services.settings_get := fun key _ dflt =>
       if String.eqb key "ai_enabled" then Ok (Some "false") else Ok dflt;
     Services.findAllSlugs := fun _ => Ok [];
     Services.getIdBySlug := fun _ => Ok None;
     Services.getAllSlugsByWorkspaceId := fun _ => Ok [];
     Services.validateProjectSlug := fun _ =>
       Ok {| SlugCheck.status_of := SlugCheck.not_found; SlugCheck.slug := "" |};
     Services.fetch := fun _ => Throw (Error "Failed to fetch");
     Services.now := 1000 |}.


(** Collaborators whose workspace lookup fails, with a provider that
    replies [reply]. *)
Definition failing_lookup_services (reply : string) : Services.t :=
  {| Services.settings_get := Samples.sample_settings;
     Services.findAllSlugs := fun _ => Ok ["w1"];
     Services.getIdBySlug := fun _ => Throw (Error "connection refused");
     Services.getAllSlugsByWorkspaceId := fun _ => Ok [];
     Services.validateProjectSlug := fun _ =>
       Ok {| SlugCheck.status_of := SlugCheck.not_found; SlugCheck.slug := "" |};
     Services.fetch := fun _ =>
       Ok {| HttpResponse.ok := true; HttpResponse.status := 200;
             HttpResponse.json := Ok (Samples.reply_body reply) |};
     Services.now := 1000 |}.

End MoreSamples.

(** ** The connection test *)

Module TestConnectionDto.
Record t : Type := { apiKey : string; model : option string; apiUrl : string }.
End TestConnectionDto.

Module TestConnectionResponse.
(** [error] is a value: for a refused request it is whatever the
    provider's body holds under [error.message]. *)
Record t : Type := { success : bool; message : option string; error : option Js.value }.
End TestConnectionResponse.

Module TestConnection.
Import Text Js Guard Mutator Chat.

Definition failed (error : value) : TestConnectionResponse.t :=
  {| TestConnectionResponse.success := false;
     TestConnectionResponse.message := None;
     TestConnectionResponse.error := Some error |}.

Definition connected : TestConnectionResponse.t :=
  {| TestConnectionResponse.success := true;
     TestConnectionResponse.message :=
       Some "Connection successful! Your AI configuration is working correctly.";
     TestConnectionResponse.error := None |}.

(** The [catch] of [testConnection]. *)
Definition caught (e : exn) : TestConnectionResponse.t :=
  let errorMessage := exn_message e in
  if includes errorMessage "Failed to fetch" || includes errorMessage "NetworkError" then
    failed (VString "Network error. Please check your internet connection and API URL.")
  else
    failed (VString (if String.eqb errorMessage ""
                     then "Connection test failed. Please check your configuration."
                     else errorMessage)).

(** The answer for a response that is not [ok]. *)
Definition refused (response : HttpResponse.t) : TestConnectionResponse.t :=
  let errorData :=
    match HttpResponse.json response with Ok d => d | Throw _ => VObject [] end in
  if HttpResponse.status response =? 401 then
    failed (VString "Invalid API key. Please check your API key and try again.")
  else if HttpResponse.status response =? 429 then
    failed (VString "Rate limit exceeded. Please try again in a moment.")
  else if HttpResponse.status response =? 402 then
    failed (VString "Insufficient credits. Please check your account balance.")
  else if HttpResponse.status response =? 404 then
    failed (VString "Model not found. Please check the model name and try again.")
  else
    match propOf errorData "error" with
    | Throw e => caught e
    | Ok err =>
        failed (or_else (optProp err "message")
                  (VString ("API request failed with status "
                            +:+ decimalZ (HttpResponse.status response))))
    end.

Section Service.
Variable URL_parse : string -> option URL.
Variable env : Services.t.

(** [testConnection(testConnectionDto)].  As for [chat], the headers and
    the body of the request do not enter the control flow and are not
    modelled. *)
Definition testConnection (testConnectionDto : TestConnectionDto.t)
    : TestConnectionResponse.t :=
  let apiKey := TestConnectionDto.apiKey testConnectionDto in
  let model := TestConnectionDto.model testConnectionDto in
  let apiUrl := TestConnectionDto.apiUrl testConnectionDto in
  match validateApiUrl URL_parse apiUrl with
  | Throw e => caught e
  | Ok validatedUrl =>
  let provider := detectProvider URL_parse validatedUrl in
  match requestUrlFor provider validatedUrl model apiKey with
  | Throw e => caught e
  | Ok requestUrl =>
  match Services.fetch env requestUrl with
  | Throw e => caught e
  | Ok response =>
  if negb (HttpResponse.ok response) then refused response
  else
  match HttpResponse.json response with
  | Throw e => caught e
  | Ok data =>
  match replyText provider data with
  | Throw e => caught e
  | Ok aiMessage =>
      if ToBoolean aiMessage then connected
      else failed (VString
                     "Received empty response from AI provider. Please check your configuration.")
  end end end end end.

End Service.

End TestConnection.
(** * Properties of the endpoint guard *)

Module GuardFacts.
Import Text Regex Guard Chat.

(** The guard accepts exactly when all six checks pass. *)
Lemma validateApiUrl_Ok_inv (URL_parse : string -> option URL) (apiUrl canonical : string) :
  validateApiUrl URL_parse apiUrl = Ok canonical ->
  exists url,
    URL_parse apiUrl = Some url /\
    protocol url = "https:" /\
    hostAllowed (normalizedHost url) = true /\
    internalAddress (normalizedHost url) = false /\
    effectivePort url = Some 443%N /\
    supportedProvider (normalizedHost url) = true /\
    canonical = stripTrailingSlash (href url).
Proof.
  unfold validateApiUrl. intros H.
  destruct (URL_parse apiUrl) as [url|]; [|discriminate].
  exists url.
  destruct (String.eqb (protocol url) "https:") eqn:Hp; simpl in H; [|discriminate].
  destruct (hostAllowed (normalizedHost url)) eqn:Ha; simpl in H; [|discriminate].
  destruct (internalAddress (normalizedHost url)) eqn:Hi; [discriminate|].
  destruct (bool_decide (effectivePort url = Some 443%N)) eqn:Hport; simpl in H; [|discriminate].
  destruct (supportedProvider (normalizedHost url)) eqn:Hs; simpl in H; [|discriminate].
  apply bool_decide_eq_true_1 in Hport. apply String.eqb_eq in Hp.
  injection H as <-. repeat split; assumption.
Qed.

(** Every outcome of the guard other than acceptance is a
    [BadRequestException]. *)
Lemma validateApiUrl_throws_bad_request (URL_parse : string -> option URL)
    (apiUrl : string) (e : exn) :
  validateApiUrl URL_parse apiUrl = Throw e -> exists message, e = BadRequestException message.
Proof.
  unfold validateApiUrl. intros H.
  destruct (URL_parse apiUrl) as [url|]; [|injection H as <-; eauto].
  repeat match type of H with
         | (if ?b then _ else _) = _ => destruct b; [try (injection H as <-; eauto)|try (injection H as <-; eauto)]
         end; discriminate.
Qed.

(** A configured end point that the guard rejects ends the turn before
    the network is consulted: the turn fails, and fails the same way
    whatever the network would have answered. *)
Lemma rejected_endpoint_skips_fetch (commands : list Command.t)
    (URL_parse : string -> option URL) (env : Services.t)
    (chatRequest : ChatRequest.t) (userId : string)
    (contexts : conversationContexts)
    (rawApiUrl : string) (e : exn) (fetch' : string -> Res HttpResponse.t) :
  Services.settings_get env "ai_api_url" userId (Some "https://openrouter.ai/api/v1")
  = Ok (Some rawApiUrl) ->
  rawApiUrl <> EmptyString ->
  validateApiUrl URL_parse rawApiUrl = Throw e ->
  chat commands URL_parse (with_fetch fetch' env) chatRequest userId contexts
  = chat commands URL_parse env chatRequest userId contexts
  /\ ChatResponse.success (fst (chat commands URL_parse env chatRequest userId contexts))
     = false.
Proof.
  intros Hurl Hne Hrej.
  assert (Htruthy : truthy (Some rawApiUrl) = true).
  { simpl. destruct (String.eqb rawApiUrl "") eqn:E; [|reflexivity].
    apply String.eqb_eq in E. contradiction. }
  assert (Hfail : forall e', ChatResponse.success (failure e') = false).
  { intros e'. unfold failure. destruct (_ || _); reflexivity. }
  unfold chat, obtainReply. simpl.
  destruct (Services.settings_get env "ai_enabled" userId None) as [isEnabled|e0];
    [|split; [reflexivity|apply Hfail]].
  destruct (negb (bool_decide (isEnabled = Some "true")));
    [split; [reflexivity|apply Hfail]|].
  destruct (Services.findAllSlugs env _) as [slugs|e0];
    [|split; [reflexivity|apply Hfail]].
  destruct (Services.settings_get env "ai_api_key" userId None) as [apiKey|e0];
    [|split; [reflexivity|apply Hfail]].
  destruct (Services.settings_get env "ai_model" userId _) as [model|e0];
    [|split; [reflexivity|apply Hfail]].
  rewrite Hurl, Htruthy. simpl. rewrite Hrej.
  split; [reflexivity|apply Hfail].
Qed.

End GuardFacts.

Module GuardClaims.
Import Text Regex Guard Chat MoreSamples GuardFacts.

(** C1.  Whatever the platform's URL parser is: when [validateApiUrl]
    returns a canonical URL, the parsed URL has the https scheme, the
    port 443, a host (lower-cased, brackets removed) in the allow-set
    and not a loopback, link-local or private address; conversely a URL
    that does not parse, or that violates one of these conditions, is
    rejected with a [BadRequestException]; and a URL with scheme http is
    rejected for its scheme, as [http://api.openai.com] is although
    [api.openai.com] is an allowed host.  In a chat turn a rejected
    end point ends the turn before the network is consulted. *)
Theorem validateApiUrl_guard (URL_parse : string -> option URL) (apiUrl : string) :
  (forall canonical, validateApiUrl URL_parse apiUrl = Ok canonical ->
     exists url,
       URL_parse apiUrl = Some url /\
       protocol url = "https:" /\
       effectivePort url = Some 443%N /\
       hostAllowed (normalizedHost url) = true /\
       internalAddress (normalizedHost url) = false /\
       canonical = stripTrailingSlash (href url))
  /\ (URL_parse apiUrl = None ->
      validateApiUrl URL_parse apiUrl = Throw (BadRequestException "Invalid URL format"))
  /\ (forall url, URL_parse apiUrl = Some url ->
        protocol url <> "https:" \/
        effectivePort url <> Some 443%N \/
        hostAllowed (normalizedHost url) = false \/
        internalAddress (normalizedHost url) = true ->
        exists message,
          validateApiUrl URL_parse apiUrl = Throw (BadRequestException message))
  /\ (forall url, URL_parse apiUrl = Some url -> protocol url = "http:" ->
        validateApiUrl URL_parse apiUrl
        = Throw (BadRequestException "Only HTTPS URLs allowed"))
  /\ hostAllowed "api.openai.com" = true
  /\ (forall commands env chatRequest userId contexts e fetch',
        Services.settings_get env "ai_api_url" userId (Some "https://openrouter.ai/api/v1")
        = Ok (Some apiUrl) ->
        apiUrl <> EmptyString ->
        validateApiUrl URL_parse apiUrl = Throw e ->
        chat commands URL_parse (with_fetch fetch' env) chatRequest userId contexts
        = chat commands URL_parse env chatRequest userId contexts
        /\ ChatResponse.success
             (fst (chat commands URL_parse env chatRequest userId contexts)) = false).
Proof.
  split; [|split; [|split; [|split; [|split]]]].
  - intros canonical H.
    destruct (validateApiUrl_Ok_inv _ _ _ H) as (url & ? & ? & ? & ? & ? & ? & ?).
    exists url. repeat split; assumption.
  - intros H. unfold validateApiUrl. rewrite H. reflexivity.
  - intros url Hparse Hbad.
    destruct (validateApiUrl URL_parse apiUrl) as [canonical|e] eqn:H.
    + exfalso.
      destruct (validateApiUrl_Ok_inv _ _ _ H) as (url' & Hp' & ? & ? & ? & ? & ? & ?).
      rewrite Hparse in Hp'. injection Hp' as <-.
      destruct Hbad as [Hb|[Hb|[Hb|Hb]]]; congruence.
    + destruct (validateApiUrl_throws_bad_request _ _ _ H) as [message ->]. eauto.
  - intros url Hparse Hp. unfold validateApiUrl. rewrite Hparse, Hp. reflexivity.
  - vm_compute. reflexivity.
  - intros. eapply rejected_endpoint_skips_fetch; eassumption.
Qed.

Lemma validateApiUrl_guard_witness :
  (exists url,
     sample_parse "https://api.openai.com/v1/" = Some url /\
     protocol url = "https:" /\
     effectivePort url = Some 443%N /\
     hostAllowed (normalizedHost url) = true /\
     internalAddress (normalizedHost url) = false /\
     "https://api.openai.com/v1" = stripTrailingSlash (href url))
  /\ validateApiUrl sample_parse "http://api.openai.com"
     = Throw (BadRequestException "Only HTTPS URLs allowed")
  /\ (exists message,
        validateApiUrl sample_parse "https://api.openai.com:8443/v1"
        = Throw (BadRequestException message)).
Proof.
  split; [|split].
  - apply (proj1 (validateApiUrl_guard sample_parse "https://api.openai.com/v1/")).
    vm_compute. reflexivity.
  - eapply (proj1 (proj2 (proj2 (proj2
              (validateApiUrl_guard sample_parse "http://api.openai.com"))))).
    + vm_compute. reflexivity.
    + reflexivity.
  - eapply (proj1 (proj2 (proj2
              (validateApiUrl_guard sample_parse "https://api.openai.com:8443/v1")))).
    + vm_compute. reflexivity.
    + right. left. vm_compute. discriminate.
Defined.

(** C10, as the code has it.  A URL whose host is
    [generativelanguage.googleapis.com] is always rejected, although the
    host is in [allowedHosts] and [detectProvider] classifies it as
    google, because [googlePattern] does not match it.  The message is
    ['Only HTTPS URLs allowed'] when the scheme is not https,
    ['Only standard HTTPS port 443 is allowed'] when the scheme is https
    and the port is not 443, and ['Unsupported AI provider host'] when
    the scheme is https and the port is 443. *)
Theorem gemini_host_rejected (URL_parse : string -> option URL) (apiUrl : string)
    (url : URL) :
  URL_parse apiUrl = Some url ->
  hostname url = "generativelanguage.googleapis.com" ->
  (exists message, validateApiUrl URL_parse apiUrl = Throw (BadRequestException message))
  /\ (protocol url = "https:" -> effectivePort url = Some 443%N ->
      validateApiUrl URL_parse apiUrl
      = Throw (BadRequestException "Unsupported AI provider host"))
  /\ In (hostname url) allowedHosts
  /\ detectProvider URL_parse apiUrl = "google"
  /\ test no_flags googlePattern (normalizedHost url) = false
  /\ (protocol url <> "https:" ->
      validateApiUrl URL_parse apiUrl
      = Throw (BadRequestException "Only HTTPS URLs allowed"))
  /\ (protocol url = "https:" -> effectivePort url <> Some 443%N ->
      validateApiUrl URL_parse apiUrl
      = Throw (BadRequestException "Only standard HTTPS port 443 is allowed"))
  /\ validateApiUrl URL_parse apiUrl
     = Throw (BadRequestException
                (if negb (String.eqb (protocol url) "https:")
                 then "Only HTTPS URLs allowed"
                 else if bool_decide (effectivePort url = Some 443%N)
                      then "Unsupported AI provider host"
                      else "Only standard HTTPS port 443 is allowed")).
Proof.
  intros Hparse Hhost.
  assert (Hnorm : normalizedHost url = "generativelanguage.googleapis.com").
  { unfold normalizedHost. rewrite Hhost. vm_compute. reflexivity. }
  assert (Hallowed : hostAllowed "generativelanguage.googleapis.com" = true)
    by (vm_compute; reflexivity).
  assert (Hinternal : internalAddress "generativelanguage.googleapis.com" = false)
    by (vm_compute; reflexivity).
  assert (Hsupported : supportedProvider "generativelanguage.googleapis.com" = false)
    by (vm_compute; reflexivity).
  assert (Hall : validateApiUrl URL_parse apiUrl
                 = Throw (BadRequestException
                            (if negb (String.eqb (protocol url) "https:")
                             then "Only HTTPS URLs allowed"
                             else if bool_decide (effectivePort url = Some 443%N)
                                  then "Unsupported AI provider host"
                                  else "Only standard HTTPS port 443 is allowed"))).
  { unfold validateApiUrl. rewrite Hparse, Hnorm, Hallowed, Hinternal, Hsupported.
    destruct (negb (String.eqb (protocol url) "https:")); [reflexivity|]. simpl.
    destruct (bool_decide (effectivePort url = Some 443%N)); reflexivity. }
  assert (Hhttps : protocol url = "https:" -> effectivePort url = Some 443%N ->
            validateApiUrl URL_parse apiUrl
            = Throw (BadRequestException "Unsupported AI provider host")).
  { intros Hp Hport. rewrite Hall, Hp. simpl.
    rewrite bool_decide_eq_true_2 by exact Hport. reflexivity. }
  split; [|split; [|split; [|split; [|split; [|split; [|split]]]]]].
  - rewrite Hall. eauto.
  - exact Hhttps.
  - rewrite Hhost. vm_compute. tauto.
  - unfold detectProvider. rewrite Hparse, Hhost. vm_compute. reflexivity.
  - rewrite Hnorm. vm_compute. reflexivity.
  - intros Hp. rewrite Hall.
    destruct (String.eqb (protocol url) "https:") eqn:E; [|reflexivity].
    apply String.eqb_eq in E. contradiction.
  - intros Hp Hport. rewrite Hall, Hp. simpl.
    rewrite bool_decide_eq_false_2 by exact Hport. reflexivity.
  - exact Hall.
Qed.

Lemma gemini_host_rejected_witness :
  validateApiUrl sample_parse "https://generativelanguage.googleapis.com/v1beta"
  = Throw (BadRequestException "Unsupported AI provider host")
  /\ validateApiUrl sample_parse "http://generativelanguage.googleapis.com/v1beta"
     = Throw (BadRequestException "Only HTTPS URLs allowed")
  /\ validateApiUrl cloud_parse "https://generativelanguage.googleapis.com:8443/v1beta"
     = Throw (BadRequestException "Only standard HTTPS port 443 is allowed").
Proof.
  split; [|split].
  - apply (proj1 (proj2 (gemini_host_rejected sample_parse
             "https://generativelanguage.googleapis.com/v1beta"
             {| protocol := "https:"; hostname := "generativelanguage.googleapis.com";
                port := ""; href := "https://generativelanguage.googleapis.com/v1beta" |}
             eq_refl eq_refl))).
    + reflexivity.
    + vm_compute. reflexivity.
  - apply (proj1 (proj2 (proj2 (proj2 (proj2 (proj2 (gemini_host_rejected sample_parse
             "http://generativelanguage.googleapis.com/v1beta"
             {| protocol := "http:"; hostname := "generativelanguage.googleapis.com";
                port := ""; href := "http://generativelanguage.googleapis.com/v1beta" |}
             eq_refl eq_refl))))))).
    discriminate.
  - apply (proj1 (proj2 (proj2 (proj2 (proj2 (proj2 (proj2 (gemini_host_rejected cloud_parse
             "https://generativelanguage.googleapis.com:8443/v1beta"
             {| protocol := "https:"; hostname := "generativelanguage.googleapis.com";
                port := "8443";
                href := "https://generativelanguage.googleapis.com:8443/v1beta" |}
             eq_refl eq_refl)))))))).
    + reflexivity.
    + vm_compute. discriminate.
Defined.

(** C10 as stated fails: with the scheme http a URL of the same host is
    rejected by the scheme check, with another message. *)
Lemma gemini_message_counterexample :
  exists url,
    sample_parse "http://generativelanguage.googleapis.com/v1beta" = Some url
    /\ hostname url = "generativelanguage.googleapis.com"
    /\ validateApiUrl sample_parse "http://generativelanguage.googleapis.com/v1beta"
       = Throw (BadRequestException "Only HTTPS URLs allowed")
    /\ validateApiUrl sample_parse "http://generativelanguage.googleapis.com/v1beta"
       <> Throw (BadRequestException "Unsupported AI provider host").
Proof.
  eexists. split; [reflexivity|]. split; [reflexivity|].
  split; [vm_compute; reflexivity|vm_compute; discriminate].
Qed.

End GuardClaims.
(** * Properties of the parameter validator *)

Module TextFacts.
Import Text.

Lemma trimStart_blank (s : string) :
  trimStart s = EmptyString <-> forallb is_space (list_ascii_of_string s) = true.
Proof.
  induction s as [|c t IH]; simpl; [tauto|].
  destruct (is_space c); simpl; [exact IH|]. split; discriminate.
Qed.

Lemma trimStart_head (s : string) (c : ascii) (t : string) :
  trimStart s = String c t -> is_space c = false.
Proof.
  induction s as [|x u IH]; simpl; [discriminate|].
  destruct (is_space x) eqn:Hx; [exact IH|]. intros H. injection H as <- _. exact Hx.
Qed.

Lemma trimEnd_nonblank (c : ascii) (t : string) :
  is_space c = false -> trimEnd (String c t) <> EmptyString.
Proof. intros Hc. simpl. destruct (trimEnd t); [rewrite Hc|]; discriminate. Qed.

(** A text is blank after trimming exactly when it consists of white
    space only. *)
Lemma trim_blank (s : string) :
  trim s = EmptyString <-> forallb is_space (list_ascii_of_string s) = true.
Proof.
  rewrite <- trimStart_blank. unfold trim.
  destruct (trimStart s) as [|c t] eqn:E; [simpl; tauto|].
  split; [|discriminate].
  intros H. exfalso. eapply trimEnd_nonblank; [|exact H]. eapply trimStart_head; eauto.
Qed.

End TextFacts.

Module ValidatorFacts.
Import Text Js Json Validator.

(** Validation fails exactly when a required parameter tests missing. *)
Lemma valid_false_iff (commands : list Command.t) (commandName : string)
    (parameters : value) (command : Command.t) :
  findCommand commands commandName = Some command ->
  (Validation.valid (validateCommandParameters commands commandName parameters) = false
   <-> exists p, In p (requiredParams command) /\ isMissing parameters p = true).
Proof.
  intros H. unfold validateCommandParameters. rewrite H.
  destruct (List.filter (isMissing parameters) (requiredParams command)) as [|m rest] eqn:E;
    simpl.
  - split; [discriminate|]. intros [p Hp].
    apply (proj2 (filter_In _ _ _)) in Hp. rewrite E in Hp. destruct Hp.
  - split; [|reflexivity]. intros _. exists m. apply filter_In. rewrite E. left. reflexivity.
Qed.

End ValidatorFacts.

Module ValidatorClaims.
Import Text Js Json Validator TextFacts.

(** What the claim calls absent or blank. *)
Definition absentOrBlank (parameters : value) (param : string) : Prop :=
  getProp parameters param = VUndefined
  \/ trim (ToString (getProp parameters param)) = EmptyString.

(** What the code tests: falsy, or blank once converted to a string. *)
Definition falsyOrBlank (parameters : value) (param : string) : Prop :=
  ToBoolean (getProp parameters param) = false
  \/ trim (ToString (getProp parameters param)) = EmptyString.

Lemma isMissing_spec (parameters : value) (param : string) :
  isMissing parameters param = true <-> falsyOrBlank parameters param.
Proof.
  unfold isMissing, falsyOrBlank. rewrite orb_true_iff, negb_true_iff, String.eqb_eq.
  tauto.
Qed.

Lemma requiredParams_spec (command : Command.t) (p : string) :
  In p (requiredParams command)
  <-> In p (Command.params command) /\ endsWith p "?" = false.
Proof. unfold requiredParams. rewrite filter_In, negb_true_iff. tauto. Qed.

(** C4, as the code has it.  For a name the grammar does not have, the
    validator fails with the unknown-command message and an empty
    missing-list.  For a command of the grammar and a payload whose
    required values have a string conversion (any parsed value but an
    object with an own [toString] property, alone or in an array, for
    which [String] throws), the missing-list is the list of its required
    parameters (those not suffixed [?]) whose value is absent, falsy
    ([null], [false], zero, the empty string) or blank after trimming
    once converted to a string, in the order of the grammar, and
    validation fails exactly when that list is not empty; the message
    then names the command and the missing parameters.  A string is
    blank after trimming exactly when it holds white space only. *)
Theorem validateCommandParameters_spec (commands : list Command.t)
    (commandName : string) (parameters : value) :
  (findCommand commands commandName = None ->
     validateCommandParameters commands commandName parameters
     = {| Validation.valid := false;
          Validation.missing := [];
          Validation.message := Some ("Unknown command: " +:+ commandName) |})
  /\ (forall command, findCommand commands commandName = Some command ->
        (forall p, In p (requiredParams command) ->
                   convertsToString (getProp parameters p) = true) ->
        let result := validateCommandParameters commands commandName parameters in
        Validation.missing result
        = List.filter (isMissing parameters) (requiredParams command)
        /\ (forall p, In p (Validation.missing result)
                      <-> In p (Command.params command) /\ endsWith p "?" = false
                          /\ falsyOrBlank parameters p)
        /\ (Validation.valid result = false
            <-> exists p, In p (Command.params command) /\ endsWith p "?" = false
                          /\ falsyOrBlank parameters p)
        /\ (Validation.valid result = false ->
            Validation.message result
            = Some ("Missing required parameters for " +:+ commandName +:+ ": "
                    +:+ join ", " (Validation.missing result)))
        /\ (Validation.valid result = true ->
            Validation.missing result = [] /\ Validation.message result = None))
  /\ (forall s, trim (ToString (VString s)) = EmptyString
                <-> forallb is_space (list_ascii_of_string s) = true).
Proof.
  split; [intros H; unfold validateCommandParameters; rewrite H; reflexivity|].
  split; [|intros s; apply trim_blank].
  intros command H _ result; subst result; unfold validateCommandParameters; rewrite H.
    set (missing := List.filter (isMissing parameters) (requiredParams command)).
    assert (Hin : forall p, In p missing
                    <-> In p (Command.params command) /\ endsWith p "?" = false
                        /\ falsyOrBlank parameters p).
    { intros p. unfold missing. rewrite filter_In, requiredParams_spec, isMissing_spec.
      tauto. }
    destruct missing as [|m rest] eqn:E; simpl.
    - split; [reflexivity|]. split; [exact Hin|]. split; [|split].
      + split; [discriminate|]. intros [p Hp]. apply (Hin p) in Hp. destruct Hp.
      + discriminate.
      + intros _. split; reflexivity.
    - split; [reflexivity|]. split; [exact Hin|]. split; [|split].
      + split; [|reflexivity]. intros _. exists m. apply Hin. left. reflexivity.
      + intros _. reflexivity.
      + discriminate.
Qed.

Lemma validateCommandParameters_spec_witness :
  Validation.missing
    (validateCommandParameters sample_commands "createTask"
       (VObject [("workspaceSlug", VString "beta"); ("taskTitle", VString "  ")]))
  = ["projectSlug"; "taskTitle"].
Proof.
  assert (Hconv : forall p,
             In p (requiredParams
                     {| Command.name := "createTask";
                        Command.params := ["workspaceSlug"; "projectSlug"; "taskTitle";
                                           "description?"] |}) ->
             convertsToString
               (getProp (VObject [("workspaceSlug", VString "beta");
                                  ("taskTitle", VString "  ")]) p) = true).
  { intros p Hp. vm_compute in Hp. destruct Hp as [<-|[<-|[<-|[]]]]; reflexivity. }
  rewrite (proj1 (proj1 (proj2 (validateCommandParameters_spec sample_commands "createTask"
             (VObject [("workspaceSlug", VString "beta"); ("taskTitle", VString "  ")])))
             {| Command.name := "createTask";
                Command.params := ["workspaceSlug"; "projectSlug"; "taskTitle";
                                   "description?"] |}
             eq_refl Hconv)).
  vm_compute. reflexivity.
Defined.

(** C4 as stated fails: a required parameter that is present with the
    value [false] is neither absent nor blank, yet it is reported missing
    and validation fails. *)
Lemma validateCommandParameters_counterexample :
  let parameters := VObject [("name", VString "MySpace"); ("description", VBool false)] in
  let result := validateCommandParameters sample_commands "createWorkspace" parameters in
  findCommand sample_commands "createWorkspace"
  = Some {| Command.name := "createWorkspace"; Command.params := ["name"; "description"] |}
  /\ Validation.valid result = false
  /\ Validation.missing result = ["description"]
  /\ getProp parameters "description" = VBool false
  /\ trim (ToString (getProp parameters "description")) = "false"
  /\ (forall p, In p ["name"; "description"] -> ~ absentOrBlank parameters p).
Proof.
  repeat split; try (vm_compute; reflexivity).
  intros p [<-|[<-|[]]] [H|H]; vm_compute in H; discriminate.
Qed.

End ValidatorClaims.
(** * Properties of the brace repair *)

Module JsonFacts.
Import Text Js Json Extractor RepairAnalysis.

Lemma append_cons (c : ascii) (t s : string) : String c t +:+ s = String c (t +:+ s).
Proof. reflexivity. Qed.

Lemma append_empty_r (s : string) : s +:+ EmptyString = s.
Proof. induction s as [|c t IH]; [reflexivity|]. rewrite append_cons, IH. reflexivity. Qed.

Lemma append_assoc (a b c : string) : (a +:+ b) +:+ c = a +:+ (b +:+ c).
Proof. induction a as [|x t IH]; [reflexivity|]. rewrite !append_cons, IH. reflexivity. Qed.

Lemma repeat_char_plus (c : ascii) (n m : nat) :
  repeat_char c (n + m) = repeat_char c n +:+ repeat_char c m.
Proof.
  induction n as [|n IH]; [reflexivity|].
  change (repeat_char c (S n + m)) with (String c (repeat_char c (n + m))).
  rewrite IH. reflexivity.
Qed.

(** *** The counting loop *)

Lemma countOpenBraces_step (c : ascii) (t : string) (z : Z) :
  countOpenBraces (String c t) z = countOpenBraces t (z + char_delta c).
Proof.
  simpl. unfold char_delta.
  destruct (Ascii.eqb c "{") eqn:Ho; destruct (Ascii.eqb c "}") eqn:Hc.
  - apply Ascii.eqb_eq in Ho. subst c. discriminate Hc.
  - reflexivity.
  - f_equal; lia.
  - f_equal; lia.
Qed.

Lemma countOpenBraces_shift (s : string) (z : Z) :
  countOpenBraces s z = z + countOpenBraces s 0.
Proof.
  revert z. induction s as [|c t IH]; intros z.
  - simpl. lia.
  - rewrite !countOpenBraces_step. rewrite (IH (z + char_delta c)), (IH (0 + char_delta c)).
    lia.
Qed.

Lemma countOpenBraces_app (a b : string) (z : Z) :
  countOpenBraces (a +:+ b) z = countOpenBraces b (countOpenBraces a z).
Proof.
  revert z. induction a as [|c t IH]; intros z; [reflexivity|].
  rewrite append_cons, !countOpenBraces_step. apply IH.
Qed.

Lemma countOpenBraces_closing (n : nat) (z : Z) :
  countOpenBraces (repeat_char "}" n) z = z - Z.of_nat n.
Proof.
  revert z. induction n as [|n IH]; intros z.
  - simpl. lia.
  - change (repeat_char "}" (S n)) with (String "}" (repeat_char "}" n)).
    rewrite countOpenBraces_step, IH. change (char_delta "}") with (-1). lia.
Qed.

(** *** The lexer, read as a run followed by a flush *)

Lemma lex_from_app (s1 s2 : string) (st : lstate) :
  lex_from st (s1 +:+ s2)
  = match lex_run st s1 with
    | Some (st', out) => option_map (app out) (lex_from st' s2)
    | None => None
    end.
Proof.
  revert st. induction s1 as [|c t IH]; intros st.
  - change (EmptyString +:+ s2) with s2. simpl. destruct (lex_from st s2); reflexivity.
  - rewrite append_cons. simpl. destruct (lstep st c) as [[st' out]|]; [|reflexivity].
    rewrite IH. destruct (lex_run st' t) as [[st'' out']|]; [|reflexivity].
    destruct (lex_from st'' s2); simpl; [|reflexivity].
    rewrite app_assoc. reflexivity.
Qed.

Lemma lex_from_run (s : string) (st : lstate) :
  lex_from st s
  = match lex_run st s with
    | Some (st', out) => option_map (app out) (lfinish st')
    | None => None
    end.
Proof.
  rewrite <- (append_empty_r s) at 1. rewrite lex_from_app. reflexivity.
Qed.

Lemma lex_default_closing (n : nat) :
  lex_from LDefault (repeat_char "}" n) = Some (repeat TRBrace n).
Proof.
  induction n as [|n IH]; [reflexivity|].
  change (repeat_char "}" (S n)) with (String "}" (repeat_char "}" n)).
  change (lex_from LDefault (String "}" (repeat_char "}" n)))
    with (option_map (app [TRBrace]) (lex_from LDefault (repeat_char "}" n))).
  rewrite IH. reflexivity.
Qed.

(** Closing braces after a text that lexes only add closing-brace
    tokens. *)
Lemma lex_flush_closing (st : lstate) (flush : list token) (n : nat) :
  lfinish st = Some flush ->
  lex_from st (repeat_char "}" n) = Some (flush ++ repeat TRBrace n).
Proof.
  intros Hf. destruct n as [|n].
  - simpl. rewrite Hf, app_nil_r. reflexivity.
  - change (repeat_char "}" (S n)) with (String "}" (repeat_char "}" n)).
    destruct st as [|acc|acc|acc hex|acc|acc]; simpl in Hf; try discriminate.
    + injection Hf as <-. apply (lex_default_closing (S n)).
    + destruct (number_token (text_of acc)) as [t|] eqn:Ht; [|discriminate].
      injection Hf as <-.
      change (lex_from (LNumber acc) (String "}" (repeat_char "}" n)))
        with (match after_lexeme (number_token (text_of acc)) "}" with
              | None => None
              | Some (st', out) => option_map (app out) (lex_from st' (repeat_char "}" n))
              end).
      rewrite Ht. simpl. rewrite lex_default_closing. reflexivity.
    + destruct (word_token (text_of acc)) as [t|] eqn:Ht; [|discriminate].
      injection Hf as <-.
      change (lex_from (LWord acc) (String "}" (repeat_char "}" n)))
        with (match after_lexeme (word_token (text_of acc)) "}" with
              | None => None
              | Some (st', out) => option_map (app out) (lex_from st' (repeat_char "}" n))
              end).
      rewrite Ht. simpl. rewrite lex_default_closing. reflexivity.
Qed.

Lemma lex_append_closing (s : string) (ts : list token) (n : nat) :
  lex s = Some ts ->
  lex (s +:+ repeat_char "}" n) = Some (ts ++ repeat TRBrace n).
Proof.
  unfold lex. rewrite lex_from_run, lex_from_app.
  destruct (lex_run LDefault s) as [[st out]|]; [|discriminate].
  destruct (lfinish st) as [flush|] eqn:Hf; [|discriminate].
  simpl. intros H. injection H as <-.
  rewrite (lex_flush_closing _ _ n Hf). simpl. rewrite app_assoc. reflexivity.
Qed.

(** *** The parser stops at the end of the value *)

Lemma parse_from_app (ts1 ts2 : list token) (st : pstate) :
  parse_from st (ts1 ++ ts2)
  = match parse_from st ts1 with
    | Some st' => parse_from st' ts2
    | None => None
    end.
Proof.
  revert st. induction ts1 as [|t rest IH]; intros st; [reflexivity|].
  simpl. destruct (pstep st t); [apply IH|reflexivity].
Qed.

Lemma parse_tokens_proper_prefix (ts1 ts2 : list token) (v : value) :
  parse_tokens (ts1 ++ ts2) = Some v -> ts2 <> [] -> parse_tokens ts1 = None.
Proof.
  unfold parse_tokens. rewrite parse_from_app. intros H Hne.
  destruct (parse_from (PValue []) ts1) as [st|]; [|reflexivity].
  destruct st; try reflexivity.
  destruct ts2 as [|t rest]; [contradiction|]. simpl in H. discriminate.
Qed.

(** A text that parses no longer parses once closing braces are taken
    from its end. *)
Lemma JSON_parse_truncated (truncated : string) (n : nat) (v : value) :
  JSON_parse (truncated +:+ repeat_char "}" (S n)) = Some v ->
  JSON_parse truncated = None.
Proof.
  unfold JSON_parse. intros H.
  destruct (lex truncated) as [ts|] eqn:Hl; [|reflexivity].
  rewrite (lex_append_closing _ _ (S n) Hl) in H.
  eapply parse_tokens_proper_prefix; [exact H|]. discriminate.
Qed.

End JsonFacts.
Module BalanceFacts.
Import Text Regex Js Json Extractor RepairAnalysis JsonFacts.

Ltac each_char c :=
  destruct c as [[] [] [] [] [] [] [] []].

Lemma tokens_delta_app (a b : list token) :
  tokens_delta (a ++ b) = tokens_delta a + tokens_delta b.
Proof. induction a as [|t rest IH]; simpl; [reflexivity|]. rewrite IH. lia. Qed.

(** *** Objects open in the parser *)

Lemma complete_depth (v : value) (stk : list frame) :
  depth (complete v stk) = stack_depth stk.
Proof. destruct stk as [|[items|props key] rest]; simpl; lia. Qed.

Lemma begin_value_depth (t : token) (stk : list frame) (st : pstate) :
  begin_value t stk = Some st -> depth st = stack_depth stk + token_delta t.
Proof.
  destruct t; simpl; intros H; try discriminate; injection H as <-;
    rewrite ?complete_depth; simpl; lia.
Qed.

Lemma pstep_depth (st : pstate) (t : token) (st' : pstate) :
  pstep st t = Some st' -> depth st' = depth st + token_delta t.
Proof.
  destruct st; simpl; intros H; try discriminate.
  - apply begin_value_depth in H. exact H.
  - destruct t; try (apply begin_value_depth in H; simpl in *; lia).
    injection H as <-. rewrite complete_depth. simpl. lia.
  - destruct t; try discriminate; injection H as <-; rewrite ?complete_depth; simpl; lia.
  - destruct t; try discriminate; injection H as <-; rewrite ?complete_depth; simpl; lia.
  - destruct t; try discriminate; injection H as <-; simpl; lia.
  - destruct t; try discriminate; injection H as <-; simpl; lia.
  - destruct t; try discriminate; injection H as <-; rewrite ?complete_depth; simpl; lia.
Qed.

Lemma parse_from_depth (ts : list token) (st st' : pstate) :
  parse_from st ts = Some st' -> depth st' = depth st + tokens_delta ts.
Proof.
  revert st. induction ts as [|t rest IH]; intros st; simpl.
  - intros H. injection H as <-. lia.
  - destruct (pstep st t) as [st1|] eqn:Hs; [|discriminate].
    intros H. apply IH in H. apply pstep_depth in Hs. lia.
Qed.

(** The braces of a well-formed token sequence balance. *)
Lemma parse_tokens_balanced (ts : list token) (v : value) :
  parse_tokens ts = Some v -> tokens_delta ts = 0.
Proof.
  unfold parse_tokens. destruct (parse_from (PValue []) ts) as [st|] eqn:H; [|discriminate].
  destruct st; try discriminate. intros _.
  apply parse_from_depth in H. simpl in H. lia.
Qed.

(** *** Braces seen by the lexer *)

Lemma number_token_plain (lexeme : string) (t : token) :
  number_token lexeme = Some t -> token_delta t = 0.
Proof.
  unfold number_token. destruct (exec no_flags numberPattern lexeme); [|discriminate].
  intros H. injection H as <-. reflexivity.
Qed.

Lemma word_token_plain (lexeme : string) (t : token) :
  word_token lexeme = Some t -> token_delta t = 0.
Proof.
  unfold word_token.
  repeat match goal with |- context [if ?b then _ else _] => destruct b end;
    intros H; try discriminate; injection H as <-; reflexivity.
Qed.

Lemma lstep_default_delta (c : ascii) (st : lstate) (out : list token) :
  lstep_default c = Some (st, out) ->
  tokens_delta out = char_delta c /\ clean (pending st) = true.
Proof.
  each_char c; vm_compute; intros H; try discriminate; injection H as <- <-;
    split; reflexivity.
Qed.

Lemma hex_value_plain (c : ascii) (d : N) : hex_value c = Some d -> char_delta c = 0.
Proof. each_char c; vm_compute; intros H; try discriminate; reflexivity. Qed.

Lemma number_char_plain (c : ascii) : number_char c = true -> char_delta c = 0.
Proof. each_char c; vm_compute; intros H; try discriminate; reflexivity. Qed.

Lemma word_char_plain (c : ascii) : word_char c = true -> char_delta c = 0.
Proof. each_char c; vm_compute; intros H; try discriminate; reflexivity. Qed.

Lemma after_lexeme_delta (tok : option token) (c : ascii) (st : lstate)
    (out : list token) :
  (forall t, tok = Some t -> token_delta t = 0) ->
  after_lexeme tok c = Some (st, out) ->
  tokens_delta out = char_delta c /\ clean (pending st) = true.
Proof.
  intros Ht. unfold after_lexeme. destruct tok as [t|]; [|discriminate].
  destruct (lstep_default c) as [[st0 out0]|] eqn:Hd; [|discriminate].
  intros H. injection H as <- <-. apply lstep_default_delta in Hd.
  simpl. rewrite (Ht t eq_refl). destruct Hd as [-> ->]. split; [lia|reflexivity].
Qed.

(** One step of the lexer: when the literal being read stays free of
    braces, the tokens produced account for the brace just read. *)
Lemma lstep_delta (st : lstate) (c : ascii) (st' : lstate) (out : list token) :
  lstep st c = Some (st', out) ->
  clean (pending st') = true ->
  tokens_delta out = char_delta c.
Proof.
  destruct st as [|acc|acc|acc hex|acc|acc]; simpl.
  - intros H _. apply lstep_default_delta in H. tauto.
  - each_char c; vm_compute; intros H; try discriminate; injection H as <- <-;
      intros Hc; try reflexivity; vm_compute in Hc; discriminate.
  - each_char c; vm_compute; intros H; try discriminate; injection H as <- <-;
      intros Hc; reflexivity.
  - destruct (hex_value c) as [d|] eqn:Hd; [|discriminate].
    apply hex_value_plain in Hd. rewrite Hd.
    destruct hex as [|a [|b [|c' [|x rest]]]]; intros H _;
      try (injection H as <- <-; reflexivity).
    destruct (_ <? 256)%N; [|discriminate]. injection H as <- <-. reflexivity.
  - destruct (number_char c) eqn:Hn.
    + intros H _. injection H as <- <-. apply number_char_plain in Hn. rewrite Hn. reflexivity.
    + intros H _. eapply after_lexeme_delta in H; [tauto|]. apply number_token_plain.
  - destruct (word_char c) eqn:Hn.
    + intros H _. injection H as <- <-. apply word_char_plain in Hn. rewrite Hn. reflexivity.
    + intros H _. eapply after_lexeme_delta in H; [tauto|]. apply word_token_plain.
Qed.

Lemma clean_text_of (acc : list ascii) :
  clean (list_ascii_of_string (text_of acc)) = clean acc.
Proof.
  unfold text_of. rewrite list_ascii_of_string_of_list_ascii. unfold clean.
  induction acc as [|c rest IH]; [reflexivity|].
  simpl. rewrite forallb_app. simpl. rewrite IH, andb_true_r. apply andb_comm.
Qed.

(** The literal being read ends up in a token: if all string tokens are
    free of braces, so is what has been read of the current one. *)
Lemma pending_clean (s : string) (st : lstate) (ts : list token) :
  lex_from st s = Some ts ->
  forallb clean_token ts = true ->
  clean (pending st) = true.
Proof.
  revert st ts. induction s as [|c t IH]; intros st ts.
  - simpl. destruct st; simpl; intros H _; try discriminate; reflexivity.
  - simpl. destruct (lstep st c) as [[st' out]|] eqn:Hs; [|discriminate].
    destruct (lex_from st' t) as [rest|] eqn:Hr; [|discriminate].
    simpl. intros H Hc. injection H as <-.
    rewrite forallb_app in Hc. apply andb_true_iff in Hc. destruct Hc as [Hout Hrest].
    specialize (IH st' rest Hr Hrest).
    destruct st as [|acc|acc|acc hex|acc|acc]; simpl; try reflexivity; simpl in Hs.
    + destruct (Ascii.eqb c dquote).
      { injection Hs as <- <-. simpl in Hout. rewrite clean_text_of, andb_true_r in Hout.
        exact Hout. }
      destruct (Ascii.eqb c "\"); [injection Hs as <- <-; exact IH|].
      destruct (code c <? 32)%N; [discriminate|]. injection Hs as <- <-.
      simpl in IH. apply andb_true_iff in IH. tauto.
    + repeat match type of Hs with
             | (if ?b then _ else _) = _ => destruct b
             end; try discriminate; injection Hs as <- <-; simpl in IH;
        try (apply andb_true_iff in IH; tauto); exact IH.
    + destruct (hex_value c) as [d|]; [|discriminate].
      destruct hex as [|a [|b [|c' [|x more]]]];
        try (injection Hs as <- <-; exact IH).
      destruct (_ <? 256)%N; [|discriminate]. injection Hs as <- <-.
      simpl in IH. apply andb_true_iff in IH. tauto.
Qed.

Lemma lfinish_delta (st : lstate) (ts : list token) :
  lfinish st = Some ts -> tokens_delta ts = 0.
Proof.
  destruct st as [|acc|acc|acc hex|acc|acc]; simpl; intros H; try discriminate.
  - injection H as <-. reflexivity.
  - destruct (number_token (text_of acc)) as [t|] eqn:Ht; [|discriminate].
    injection H as <-. simpl. rewrite (number_token_plain _ _ Ht). reflexivity.
  - destruct (word_token (text_of acc)) as [t|] eqn:Ht; [|discriminate].
    injection H as <-. simpl. rewrite (word_token_plain _ _ Ht). reflexivity.
Qed.

(** When no string token holds a brace, the counting loop over the text
    counts the brace tokens. *)
Lemma lex_from_delta (s : string) (st : lstate) (ts : list token) (z : Z) :
  lex_from st s = Some ts ->
  forallb clean_token ts = true ->
  countOpenBraces s z = z + tokens_delta ts.
Proof.
  revert st ts z. induction s as [|c t IH]; intros st ts z.
  - simpl. intros H _. rewrite (lfinish_delta _ _ H). lia.
  - rewrite countOpenBraces_step. simpl.
    destruct (lstep st c) as [[st' out]|] eqn:Hs; [|discriminate].
    destruct (lex_from st' t) as [rest|] eqn:Hr; [|discriminate].
    simpl. intros H Hc. injection H as <-.
    rewrite forallb_app in Hc. apply andb_true_iff in Hc. destruct Hc as [Hout Hrest].
    rewrite (IH st' rest _ Hr Hrest), tokens_delta_app.
    rewrite (lstep_delta _ _ _ _ Hs (pending_clean _ _ _ Hr Hrest)). lia.
Qed.

(** A well-formed text whose keys and string values hold no brace has
    as many opening as closing braces. *)
Lemma well_formed_balanced (text : string) (v : value) :
  JSON_parse text = Some v ->
  braceFreeStrings text = true ->
  countOpenBraces text 0 = 0.
Proof.
  unfold JSON_parse, braceFreeStrings.
  destruct (lex text) as [ts|] eqn:Hl; [|discriminate].
  intros Hp Hc. rewrite (lex_from_delta _ _ _ 0 Hl Hc).
  rewrite (parse_tokens_balanced _ _ Hp). reflexivity.
Qed.

End BalanceFacts.
(** * The parameters of a command are an object *)

Module RegexFacts.
Import Text Regex Js Json Extractor RepairAnalysis JsonFacts.

Section Called.
Context {R : Type}.
Variable f : flags.

(** What a successful run tells: the continuation was entered, on a
    suffix no longer than the input, with captures extended by groups
    of the pattern only. *)
Definition entered (k : cont R) (s : string) (c : captures) (allowed : list nat)
    (m : R) : Prop :=
  exists prev' s' new,
    k prev' s' (new ++ c) = Some m
    /\ (String.length s' <= String.length s)%nat
    /\ Forall (fun e => In (fst e) allowed) new.

Lemma entered_here (k : cont R) (prev : option ascii) (s : string) (c : captures)
    (allowed : list nat) (m : R) :
  k prev s c = Some m -> entered k s c allowed m.
Proof. intros H. exists prev, s, []. repeat split; [exact H|lia|constructor]. Qed.

Lemma entered_longer (k : cont R) (x : ascii) (t : string) (c : captures)
    (allowed : list nat) (m : R) :
  entered k t c allowed m -> entered k (String x t) c allowed m.
Proof.
  intros (p & s' & new & H & Hl & Hn). exists p, s', new.
  repeat split; [exact H|simpl; lia|exact Hn].
Qed.

Lemma entered_more (k : cont R) (s : string) (c : captures) (a b : list nat) (m : R) :
  (forall n, In n a -> In n b) -> entered k s c a m -> entered k s c b m.
Proof.
  intros Hsub (p & s' & new & H & Hl & Hn). exists p, s', new.
  repeat split; [exact H|exact Hl|].
  eapply Forall_impl; [exact Hn|]. intros e He. apply Hsub. exact He.
Qed.

Lemma one_called (a : atom) (k : cont R) (prev : option ascii) (s : string)
    (c : captures) (m : R) :
  one f a k prev s c = Some m ->
  exists x t, s = String x t /\ atom_matches (ignoreCase f) a x = true
              /\ k (Some x) t c = Some m.
Proof.
  unfold one. destruct s as [|x t]; [discriminate|].
  destruct (atom_matches (ignoreCase f) a x) eqn:E; [|discriminate].
  intros H. exists x, t. repeat split; assumption.
Qed.

Lemma greedy_called (a : atom) (k : cont R) (s : string) :
  forall prev c m, greedy f a k prev s c = Some m -> entered k s c [] m.
Proof.
  induction s as [|x t IH]; intros prev c m; simpl.
  - apply entered_here.
  - destruct (atom_matches (ignoreCase f) a x); [|apply entered_here].
    destruct (greedy f a k (Some x) t c) as [r|] eqn:E.
    + intros H. injection H as <-. apply entered_longer. eapply IH. exact E.
    + apply entered_here.
Qed.

Lemma reluctant_called (a : atom) (k : cont R) (s : string) :
  forall prev c m, reluctant f a k prev s c = Some m -> entered k s c [] m.
Proof.
  induction s as [|x t IH]; intros prev c m; simpl.
  - destruct (k prev EmptyString c) eqn:E; [|discriminate].
    intros H. injection H as <-. eapply entered_here. exact E.
  - destruct (k prev (String x t) c) eqn:E.
    + intros H. injection H as <-. eapply entered_here. exact E.
    + destruct (atom_matches (ignoreCase f) a x); [|discriminate].
      intros H. apply entered_longer. eapply IH. exact H.
Qed.

Lemma run_called (r : regex) :
  forall (k : cont R) prev s c m,
    run f r k prev s c = Some m -> entered k s c (groups_of r) m.
Proof.
  induction r as [|a|r1 IH1 r2 IH2|r1 IH1 r2 IH2|r1 IH1|a|a|a|a|n r1 IH1| |];
    intros k prev s c m; simpl.
  - apply entered_here.
  - intros H. apply one_called in H. destruct H as (x & t & -> & _ & H).
    apply entered_longer. eapply entered_here. exact H.
  - intros H. apply IH1 in H. destruct H as (p1 & s1 & new1 & H & Hl1 & Hn1).
    apply IH2 in H. destruct H as (p2 & s2 & new2 & H & Hl2 & Hn2).
    exists p2, s2, (new2 ++ new1). rewrite <- app_assoc.
    repeat split; [exact H|lia|].
    apply Forall_app. split; (eapply Forall_impl; [eassumption|]);
      intros e He; apply in_or_app; tauto.
  - destruct (run f r1 k prev s c) as [x|] eqn:E.
    + intros H. injection H as <-. apply IH1 in E.
      eapply entered_more; [|exact E]. intros n Hn. apply in_or_app. tauto.
    + intros H. apply IH2 in H.
      eapply entered_more; [|exact H]. intros n Hn. apply in_or_app. tauto.
  - destruct (run f r1 k prev s c) as [x|] eqn:E.
    + intros H. injection H as <-. apply IH1 in E. exact E.
    + apply entered_here.
  - apply greedy_called.
  - intros H. apply one_called in H. destruct H as (x & t & -> & _ & H).
    apply entered_longer. eapply greedy_called. exact H.
  - apply reluctant_called.
  - intros H. apply one_called in H. destruct H as (x & t & -> & _ & H).
    apply entered_longer. eapply reluctant_called. exact H.
  - intros H. apply IH1 in H. destruct H as (p1 & s1 & new1 & H & Hl1 & Hn1).
    exists p1, s1, ((n, take (String.length s - String.length s1) s) :: new1).
    repeat split; [exact H|exact Hl1|].
    constructor; [left; reflexivity|].
    eapply Forall_impl; [exact Hn1|]. intros e He. right. exact He.
  - destruct (at_bol f prev); [apply entered_here|discriminate].
  - destruct (at_eol f s); [apply entered_here|discriminate].
Qed.

End Called.

Lemma capture_skips (n : nat) (new c : captures) :
  Forall (fun e => In (fst e) []) new -> capture n (new ++ c) = capture n c.
Proof. intros H. destruct new as [|e rest]; [reflexivity|]. inversion H as [|? ? []]. Qed.

Lemma capture_past (n : nat) (new c : captures) (allowed : list nat) :
  ~ In n allowed ->
  Forall (fun e => In (fst e) allowed) new ->
  capture n (new ++ c) = capture n c.
Proof.
  intros Hn. induction new as [|[k t] rest IH]; intros H; [reflexivity|].
  inversion H as [|? ? Hk Hrest]. subst. simpl.
  destruct (Nat.eqb k n) eqn:E; [|apply IH; exact Hrest].
  apply Nat.eqb_eq in E. subst. contradiction.
Qed.

(** A group that begins with an opening brace hands on a capture that
    begins with one. *)
Lemma brace_group_called {R : Type} (f : flags) (body : regex) (k : cont R)
    (prev : option ascii) (s : string) (c : captures) (m : R) :
  ignoreCase f = false ->
  run f (Group 2 (Seq (One (AChar "{")) body)) k prev s c = Some m ->
  exists prev' s' c' text, k prev' s' ((2%nat, String "{" text) :: c') = Some m.
Proof.
  intros Hic H. simpl in H.
  apply one_called in H. destruct H as (x & t & -> & Hx & H).
  rewrite Hic in Hx. unfold atom_matches, same_char in Hx.
  rewrite andb_false_l, orb_false_r in Hx.
  apply Ascii.eqb_eq in Hx. subst x.
  apply run_called in H. destruct H as (p1 & s1 & new1 & H & Hl1 & _).
  change (String.length (String "{" t)) with (S (String.length t)) in H.
  replace (S (String.length t) - String.length s1)%nat
    with (S (String.length t - String.length s1)) in H by lia.
  exists p1, s1, (new1 ++ c). eexists. exact H.
Qed.

Lemma brace_group_last (f : flags) (body : regex) (prev : option ascii)
    (s : string) (c : captures) (m : found) :
  ignoreCase f = false ->
  run f (Group 2 (Seq (One (AChar "{")) body)) finish prev s c = Some m ->
  exists text, group 2 (groups m) = String "{" text.
Proof.
  intros Hic H. apply brace_group_called in H; [|exact Hic].
  destruct H as (p & s' & c' & text & H). injection H as <-.
  exists text. reflexivity.
Qed.

Lemma brace_group_then (f : flags) (body after : regex) (prev : option ascii)
    (s : string) (c : captures) (m : found) :
  ignoreCase f = false ->
  ~ In 2%nat (groups_of after) ->
  run f (Seq (Group 2 (Seq (One (AChar "{")) body)) after) finish prev s c = Some m ->
  exists text, group 2 (groups m) = String "{" text.
Proof.
  intros Hic Hafter H. change (run f (Seq ?a ?b) ?k) with (run f a (run f b k)) in H.
  apply brace_group_called in H; [|exact Hic].
  destruct H as (p & s' & c' & text & H).
  apply run_called in H. destruct H as (p2 & s2 & new2 & H & _ & Hn2).
  injection H as <-. exists text. unfold group. cbn [groups].
  rewrite (capture_past 2 new2 _ (groups_of after) Hafter Hn2). reflexivity.
Qed.

(** The patterns that come before the group are passed through. *)
Lemma prefix_passed {R : Type} (f : flags) (pre : list regex) (r : regex) (k : cont R) :
  forall prev s c m,
    run f (fold_right Seq r pre) k prev s c = Some m ->
    exists prev' s' c', run f r k prev' s' c' = Some m.
Proof.
  induction pre as [|a pre IH]; intros prev s c m H.
  - exists prev, s, c. exact H.
  - simpl in H. apply run_called in H. destruct H as (p1 & s1 & new1 & H & _).
    eapply IH. exact H.
Qed.

Lemma exec_from_found (f : flags) (r : regex) (s : string) :
  forall prev m from,
    exec_from f r prev s = Some (m, from) ->
    exists prev', run f r finish prev' from [] = Some m.
Proof.
  induction s as [|x t IH]; intros prev m from; simpl.
  - destruct (run f r finish prev EmptyString []) eqn:E; [|discriminate].
    intros H. injection H as <- <-. eauto.
  - destruct (run f r finish prev (String x t) []) eqn:E.
    + intros H. injection H as <- <-. eauto.
    + apply IH.
Qed.

Lemma exec_found (f : flags) (r : regex) (s : string) (c : captures) :
  exec f r s = Some c ->
  exists prev from m, run f r finish prev from [] = Some m /\ c = groups m.
Proof.
  unfold exec. destruct (exec_from f r None s) as [[m from]|] eqn:E; [|discriminate].
  intros H. injection H as <-. apply exec_from_found in E. destruct E as [prev E].
  exists prev, from, m. split; [exact E|reflexivity].
Qed.

(** Whichever of the three patterns matched, the second group begins
    with an opening brace. *)
Lemma commandMatch_brace (aiMessage : string) (c : captures) :
  commandMatch aiMessage = Some c -> exists text, group 2 c = String "{" text.
Proof.
  unfold commandMatch.
  destruct (exec flag_m commandWithMarkers aiMessage) as [c1|] eqn:E1.
  { intros H. injection H as <-. apply exec_found in E1.
    destruct E1 as (prev & from & m & E1 & ->).
    change commandWithMarkers with
      (fold_right Seq
         (Seq (Group 2 (Seq (One (AChar "{")) (Seq (Star ADot) (One (AChar "}"))))) Eol)
         [lit "**[COMMAND:"; Star ASpace; Group 1 (Plus not_bracket); lit "]**";
          Star ASpace]) in E1.
    apply prefix_passed in E1. destruct E1 as (p & s & c' & E1).
    apply (brace_group_then flag_m (Seq (Star ADot) (One (AChar "}"))) Eol p s c' m);
      [reflexivity|simpl; tauto|exact E1]. }
  destruct (exec flag_m commandPlain aiMessage) as [c2|] eqn:E2.
  { intros H. injection H as <-. apply exec_found in E2.
    destruct E2 as (prev & from & m & E2 & ->).
    change commandPlain with
      (fold_right Seq
         (Seq (Group 2 (Seq (One (AChar "{")) (Seq (Star ADot) (One (AChar "}"))))) Eol)
         [lit "[COMMAND:"; Star ASpace; Group 1 (Plus not_bracket); lit "]";
          Star ASpace]) in E2.
    apply prefix_passed in E2. destruct E2 as (p & s & c' & E2).
    apply (brace_group_then flag_m (Seq (Star ADot) (One (AChar "}"))) Eol p s c' m);
      [reflexivity|simpl; tauto|exact E2]. }
  intros E3. apply exec_found in E3.
  destruct E3 as (prev & from & m & E3 & ->).
  change commandUnclosed with
    (fold_right Seq
       (Group 2 (Seq (One (AChar "{")) (Star ADot)))
       [lit "[COMMAND:"; Star ASpace; Group 1 (Plus not_bracket); lit "]";
        Star ASpace]) in E3.
  apply prefix_passed in E3. destruct E3 as (p & s & c' & E3).
  apply (brace_group_last no_flags (Star ADot) p s c' m); [reflexivity|exact E3].
Qed.

Lemma extractCommand_brace (aiMessage commandName parametersString : string) :
  extractCommand aiMessage = Some (commandName, parametersString) ->
  exists text, parametersString = String "{" text.
Proof.
  unfold extractCommand. destruct (commandMatch aiMessage) as [c|] eqn:E; [|discriminate].
  intros H. injection H as _ <-. apply commandMatch_brace in E. destruct E as [text E].
  rewrite E. simpl. exists text. reflexivity.
Qed.

(** The parser keeps the root: once the outermost value is an object,
    so is the result. *)
Lemma bottom_pop_array (items : list value) (stk : list frame) :
  object_at_bottom (FArray items :: stk) -> object_at_bottom stk.
Proof. unfold object_at_bottom. destruct stk; simpl; tauto. Qed.

Lemma bottom_pop_object (props : list (string * value)) (key : string) (stk : list frame) :
  object_at_bottom (FObject props key :: stk) -> stk = [] \/ object_at_bottom stk.
Proof. unfold object_at_bottom. destruct stk; simpl; tauto. Qed.

Lemma bottom_push (fr : frame) (stk : list frame) :
  object_at_bottom stk -> object_at_bottom (fr :: stk).
Proof. unfold object_at_bottom. destruct stk; simpl; tauto. Qed.

Lemma bottom_push_object (props : list (string * value)) (key : string) (stk : list frame) :
  stk = [] \/ object_at_bottom stk -> object_at_bottom (FObject props key :: stk).
Proof.
  intros [->|H]; [exact I|]. apply bottom_push. exact H.
Qed.

Lemma complete_rooted (v : value) (stk : list frame) :
  (stk = [] /\ exists props, v = VObject props) \/ object_at_bottom stk ->
  rooted_in_object (complete v stk).
Proof.
  destruct stk as [|[items|props key] rest]; simpl.
  - intros [[_ H]|[]]. exact H.
  - intros [[H _]|H]; [discriminate|]. eapply bottom_pop_array. exact H.
  - intros [[H _]|H]; [discriminate|]. eapply bottom_pop_object. exact H.
Qed.

Lemma begin_value_rooted (t : token) (stk : list frame) (st : pstate) :
  object_at_bottom stk -> begin_value t stk = Some st -> rooted_in_object st.
Proof.
  intros Hb. destruct t; simpl; intros H; try discriminate; injection H as <-;
    try (apply complete_rooted; right; exact Hb); simpl; tauto.
Qed.

Lemma pstep_rooted (st st' : pstate) (t : token) :
  rooted_in_object st -> pstep st t = Some st' -> rooted_in_object st'.
Proof.
  destruct st as [stk|stk|items stk|stk|props stk|props k stk|props stk|v]; simpl; intros Hr.
  - apply begin_value_rooted. exact Hr.
  - destruct t; try (apply begin_value_rooted, bottom_push; exact Hr).
    intros H. injection H as <-. apply complete_rooted. right. exact Hr.
  - destruct t; try discriminate; intros H; injection H as <-.
    + apply complete_rooted. right. exact Hr.
    + simpl. apply bottom_push. exact Hr.
  - destruct t; try discriminate; intros H; injection H as <-.
    + apply complete_rooted. destruct Hr as [->|Hr]; [left|right; exact Hr].
      split; [reflexivity|eauto].
    + exact Hr.
  - destruct t; try discriminate; intros H; injection H as <-. exact Hr.
  - destruct t; try discriminate; intros H; injection H as <-.
    simpl. apply bottom_push_object. exact Hr.
  - destruct t; try discriminate; intros H; injection H as <-.
    + apply complete_rooted. destruct Hr as [->|Hr]; [left|right; exact Hr].
      split; [reflexivity|eauto].
    + exact Hr.
  - discriminate.
Qed.

Lemma parse_from_rooted (ts : list token) :
  forall st st', rooted_in_object st -> parse_from st ts = Some st' -> rooted_in_object st'.
Proof.
  induction ts as [|t rest IH]; intros st st' Hr; simpl.
  - intros H. injection H as <-. exact Hr.
  - destruct (pstep st t) as [st1|] eqn:E; [|discriminate].
    apply IH. eapply pstep_rooted; eassumption.
Qed.

Lemma JSON_parse_object (text : string) (v : value) :
  JSON_parse (String "{" text) = Some v -> exists props, v = VObject props.
Proof.
  unfold JSON_parse, lex.
  change (lex_from LDefault (String "{" text))
    with (option_map (app [TLBrace]) (lex_from LDefault text)).
  destruct (lex_from LDefault text) as [ts|]; [|discriminate].
  unfold parse_tokens. simpl.
  destruct (parse_from (PObjectOpen []) ts) as [[| | | | | | |v']|] eqn:E; try discriminate.
  intros H. injection H as <-.
  apply (parse_from_rooted ts (PObjectOpen []) (PDone v')); [left; reflexivity|exact E].
Qed.

(** The parameters of an extracted command are an object. *)
Lemma parameters_are_object (aiMessage commandName parametersString : string) (v : value) :
  extractCommand aiMessage = Some (commandName, parametersString) ->
  parseParameters parametersString = Some v ->
  exists props, v = VObject props.
Proof.
  intros He. apply extractCommand_brace in He. destruct He as [text ->].
  unfold parseParameters.
  destruct (JSON_parse (String "{" text)) as [v1|] eqn:E.
  - intros H. injection H as <-. eapply JSON_parse_object. exact E.
  - unfold repairJson. rewrite append_cons. apply JSON_parse_object.
Qed.

End RegexFacts.
Module ExtractorClaims.
Import Text Regex Js Json Extractor RepairAnalysis Samples JsonFacts BalanceFacts.

(** C5, as the code has it.  Take a well-formed JSON payload whose
    opening and closing brace characters are equal in number, as they
    are whenever no key or string value contains a brace.  If [n]
    closing braces are removed from its end, the repair pass appends
    exactly [n] closing braces, giving back the payload, and the
    parameters obtained are the value of the payload; when [n] is
    positive the strict parse of the shortened text fails, so it is the
    repair pass that produces them. *)
Theorem brace_repair_round_trip (payload truncated : string) (n : nat) (v : value) :
  JSON_parse payload = Some v ->
  payload = truncated +:+ repeat_char "}" n ->
  countOpenBraces payload 0 = 0 \/ braceFreeStrings payload = true ->
  repairJson truncated = payload
  /\ parseParameters truncated = Some v
  /\ ((0 < n)%nat -> JSON_parse truncated = None).
Proof.
  intros Hparse Hcut Hbal.
  assert (Hzero : countOpenBraces payload 0 = 0).
  { destruct Hbal as [H|H]; [exact H|]. eapply well_formed_balanced; eauto. }
  assert (Hrepair : repairJson truncated = payload).
  { unfold repairJson. rewrite Hcut in Hzero.
    rewrite countOpenBraces_app, countOpenBraces_closing in Hzero.
    replace (countOpenBraces truncated 0) with (Z.of_nat n) by lia.
    rewrite Nat2Z.id. symmetry. exact Hcut. }
  assert (Hstrict : (0 < n)%nat -> JSON_parse truncated = None).
  { intros Hn. destruct n as [|m]; [lia|].
    eapply JSON_parse_truncated. rewrite <- Hcut. exact Hparse. }
  split; [exact Hrepair|]. split; [|exact Hstrict].
  unfold parseParameters. destruct n as [|m].
  - simpl in Hcut. rewrite append_empty_r in Hcut. subst truncated.
    rewrite Hparse. reflexivity.
  - rewrite Hstrict by lia. rewrite Hrepair. exact Hparse.
Qed.

Lemma brace_repair_round_trip_witness :
  repairJson (q "{'workspaceSlug': 'w1', 'updates': {'name': 'New Title'")
  = q "{'workspaceSlug': 'w1', 'updates': {'name': 'New Title'}}"
  /\ parseParameters (q "{'workspaceSlug': 'w1', 'updates': {'name': 'New Title'")
     = Some (VObject [("workspaceSlug", VString "w1");
                      ("updates", VObject [("name", VString "New Title")])]).
Proof.
  pose proof (brace_repair_round_trip
                (q "{'workspaceSlug': 'w1', 'updates': {'name': 'New Title'}}")
                (q "{'workspaceSlug': 'w1', 'updates': {'name': 'New Title'")
                2
                (VObject [("workspaceSlug", VString "w1");
                          ("updates", VObject [("name", VString "New Title")])])) as H.
  destruct H as (H1 & H2 & _).
  - vm_compute. reflexivity.
  - vm_compute. reflexivity.
  - right. vm_compute. reflexivity.
  - split; assumption.
Defined.

(** C5 as stated fails: a brace inside a string value is counted by the
    repair pass, which then appends nothing to a payload that lacks its
    closing brace, and the parameters are lost. *)
Lemma brace_repair_counterexample :
  let payload := q "{'title':'}'}" in
  let truncated := q "{'title':'}'" in
  JSON_parse payload = Some (VObject [("title", VString "}")])
  /\ payload = truncated +:+ repeat_char "}" 1
  /\ repairJson truncated = truncated
  /\ parseParameters truncated = None.
Proof. repeat split; vm_compute; reflexivity. Qed.

(** *** The reply is searched whole *)

Lemma commandWithMarkers_skips (prev : option ascii) (s : string) :
  exec_from flag_m commandWithMarkers prev (String "a" s)
  = exec_from flag_m commandWithMarkers (Some "a"%char) s.
Proof. reflexivity. Qed.

Lemma commandPlain_skips (prev : option ascii) (s : string) :
  exec_from flag_m commandPlain prev (String "a" s)
  = exec_from flag_m commandPlain (Some "a"%char) s.
Proof. reflexivity. Qed.

Lemma commandUnclosed_skips (prev : option ascii) (s : string) :
  exec_from no_flags commandUnclosed prev (String "a" s)
  = exec_from no_flags commandUnclosed (Some "a"%char) s.
Proof. reflexivity. Qed.

Lemma padded_command (n : nat) :
  forall prev,
    exec_from flag_m commandWithMarkers prev (repeat_char "a" n +:+ listCommand) = None
    /\ option_map (fun m => groups (fst m))
         (exec_from flag_m commandPlain prev (repeat_char "a" n +:+ listCommand))
       = Some [(2%nat, "{}"); (1%nat, "listWorkspaces")].
Proof.
  induction n as [|n IH]; intros prev.
  - split; reflexivity.
  - change (repeat_char "a" (S n) +:+ listCommand)
      with (String "a" (repeat_char "a" n +:+ listCommand)).
    rewrite commandWithMarkers_skips, commandPlain_skips. apply IH.
Qed.

Lemma padding_alone (n : nat) :
  forall prev,
    exec_from flag_m commandWithMarkers prev (repeat_char "a" n) = None
    /\ exec_from flag_m commandPlain prev (repeat_char "a" n) = None
    /\ exec_from no_flags commandUnclosed prev (repeat_char "a" n) = None.
Proof.
  induction n as [|n IH]; intros prev.
  - repeat split; reflexivity.
  - change (repeat_char "a" (S n)) with (String "a" (repeat_char "a" n)).
    rewrite commandWithMarkers_skips, commandPlain_skips, commandUnclosed_skips. apply IH.
Qed.

Lemma take_padding (n : nat) (s : string) :
  take n (repeat_char "a" n +:+ s) = repeat_char "a" n.
Proof.
  induction n as [|n IH]; [destruct s; reflexivity|].
  change (repeat_char "a" (S n) +:+ s) with (String "a" (repeat_char "a" n +:+ s)).
  simpl. rewrite IH. reflexivity.
Qed.

Lemma take_all (n : nat) : take n (repeat_char "a" n) = repeat_char "a" n.
Proof. induction n as [|n IH]; [reflexivity|]. simpl. rewrite IH. reflexivity. Qed.

(** C6, on the code.  No prefix length bounds what the extractor reads:
    for every [n], two replies that agree on their first [n] characters
    give different results, because the command found stands after
    them.  This holds for [n = MAX_MESSAGE_LENGTH], the bound that
    [extractContextFromMessage] applies to the user message. *)
Theorem command_extraction_reads_whole_reply (n : nat) :
  let padding := repeat_char "a" n in
  take n (padding +:+ listCommand) = take n padding
  /\ extractCommand padding = None
  /\ extractCommand (padding +:+ listCommand) = Some ("listWorkspaces", "{}").
Proof.
  cbv zeta. split; [|split].
  - rewrite take_padding, take_all. reflexivity.
  - unfold extractCommand, commandMatch, exec.
    destruct (padding_alone n None) as (-> & -> & ->). reflexivity.
  - unfold extractCommand, commandMatch, exec.
    destruct (padded_command n None) as [-> H].
    simpl. revert H.
    destruct (exec_from flag_m commandPlain None (repeat_char "a" n +:+ listCommand))
      as [m|]; simpl; intros H; [|discriminate].
    injection H as ->. reflexivity.
Qed.

End ExtractorClaims.
(** * Properties of the context mutators *)

Module ContextFacts.
Import Text Regex Js Mutator ContextAnalysis.






Lemma project_loop_keeps_workspace (safeMessage : string) (patterns : list regex) :
  forall acc,
    let final := fst (fold_left (projectStep safeMessage) patterns acc) in
    Context.workspaceName final = Context.workspaceName (fst acc)
    /\ Context.workspaceSlug final = Context.workspaceSlug (fst acc).
Proof.
  induction patterns as [|p rest IH]; intros acc; simpl; [split; reflexivity|].
  destruct (IH (projectStep safeMessage acc p)) as [H1 H2]. rewrite H1, H2.
  unfold projectStep. destruct (firstProjectName _); split; reflexivity.
Qed.

Lemma workspace_loop_keeps_slug (safeMessage lowerMessage : string)
    (patterns : list regex) :
  forall acc,
    Context.workspaceSlug
      (fst (fold_left (workspaceStep safeMessage lowerMessage) patterns acc))
    = Context.workspaceSlug (fst acc).
Proof.
  induction patterns as [|p rest IH]; intros acc; simpl; [reflexivity|].
  rewrite IH. unfold workspaceStep. destruct (firstWorkspaceName _); [|reflexivity].
  simpl. destruct (negb _); reflexivity.
Qed.

(** A [navigateToWorkspace] command with a slug, when it does not
    throw, sets the workspace slug and clears the project. *)
Lemma navigateToWorkspace_result (getIdBySlug : value -> Res (option string))
    (getAllSlugsByWorkspaceId : string -> Res (list string)) (now : Z)
    (parameters : value) (context context' : Context.t) :
  ToBoolean (getProp parameters "workspaceSlug") = true ->
  updateContextFromCommand getIdBySlug getAllSlugsByWorkspaceId now
    "navigateToWorkspace" parameters context = Ok context' ->
  Context.workspaceSlug context' = getProp parameters "workspaceSlug"
  /\ projectCleared context'.
Proof.
  intros Hslug H. unfold updateContextFromCommand in H. simpl in H.
  unfold onNavigateToWorkspace in H. rewrite Hslug in H.
  destruct (getIdBySlug _) as [slug|]; [|discriminate].
  destruct (getAllSlugsByWorkspaceId _) as [projects|]; [|discriminate].
  injection H as <-. split; [reflexivity|split; reflexivity].
Qed.

(** It throws only when one of its two lookups does. *)
Lemma navigateToWorkspace_answers (getIdBySlug : value -> Res (option string))
    (getAllSlugsByWorkspaceId : string -> Res (list string)) (now : Z)
    (parameters : value) (context : Context.t) :
  (forall v, exists id, getIdBySlug v = Ok id) ->
  (forall id, exists slugs, getAllSlugsByWorkspaceId id = Ok slugs) ->
  exists context',
    updateContextFromCommand getIdBySlug getAllSlugsByWorkspaceId now
      "navigateToWorkspace" parameters context = Ok context'.
Proof.
  intros Hid Hall. unfold updateContextFromCommand. simpl.
  unfold onNavigateToWorkspace.
  destruct (ToBoolean (getProp parameters "workspaceSlug")); [|eexists; reflexivity].
  destruct (Hid (getProp parameters "workspaceSlug")) as [id ->].
  destruct (Hall (default EmptyString id)) as [slugs ->]. eexists. reflexivity.
Qed.

(** The heuristic extraction never writes the workspace slug. *)
Lemma extract_keeps_workspaceSlug (now : Z) (message : string) (context : Context.t) :
  Context.workspaceSlug (extractContextFromMessage now message context)
  = Context.workspaceSlug context.
Proof.
  unfold extractContextFromMessage. cbv zeta.
  set (safe := safeMessageOf message).
  set (afterWorkspace := fold_left (workspaceStep safe (toLowerCase safe))
                           workspacePatterns (context, false)).
  set (afterProject := fold_left (projectStep safe) projectPatterns afterWorkspace).
  assert (H : Context.workspaceSlug (fst afterProject) = Context.workspaceSlug context).
  { destruct (project_loop_keeps_workspace safe projectPatterns afterWorkspace) as [_ H].
    cbv zeta in H. subst afterProject. rewrite H. apply workspace_loop_keeps_slug. }
  destruct (snd afterProject); exact H.
Qed.

End ContextFacts.

Module ContextClaims.
Import Text Regex Js Mutator ContextAnalysis Samples ContextFacts.




End ContextClaims.
(** * Properties of the chat turn *)

Module ChatFacts.
Import Text Regex Js Json Guard Extractor Validator Mutator Chat ContextFacts.

Lemma getOwn_setOwn_eq (props : list (string * value)) (k : string) (v : value) :
  getOwn (setOwn props k v) k = v.
Proof.
  induction props as [|[k' v'] rest IH]; simpl.
  - rewrite String.eqb_refl. reflexivity.
  - destruct (String.eqb k' k) eqn:E; simpl; rewrite E; [reflexivity|exact IH].
Qed.

Lemma getOwn_setOwn_ne (props : list (string * value)) (k k' : string) (v : value) :
  k <> k' -> getOwn (setOwn props k v) k' = getOwn props k'.
Proof.
  intros Hne. induction props as [|[k0 v0] rest IH]; simpl.
  - destruct (String.eqb k k') eqn:E; [apply String.eqb_eq in E; contradiction|reflexivity].
  - destruct (String.eqb k0 k) eqn:E; simpl.
    + apply String.eqb_eq in E. subst k0.
      destruct (String.eqb k k') eqn:E'; [apply String.eqb_eq in E'; contradiction|].
      reflexivity.
    + destruct (String.eqb k0 k'); [reflexivity|exact IH].
Qed.

Lemma getProp_setProp_ne (o : value) (k k' : string) (v : value) :
  k <> k' -> getProp (setProp o k v) k' = getProp o k'.
Proof.
  intros Hne. destruct o; try reflexivity. simpl. apply getOwn_setOwn_ne. exact Hne.
Qed.

(** The slug check only writes the project slug. *)
Lemma resolveProjectSlug_keeps_workspace (env : Services.t) (commandName : string)
    (parameters : value) (aiMessage : string) (resolved : value) (aiMessage' : string) :
  resolveProjectSlug env commandName parameters aiMessage = Ok (resolved, aiMessage') ->
  getProp resolved "workspaceSlug" = getProp parameters "workspaceSlug".
Proof.
  unfold resolveProjectSlug. destruct (String.eqb commandName "navigateToProject").
  - destruct (Services.validateProjectSlug env _) as [check|]; [|discriminate].
    destruct (SlugCheck.status_of check); intros H; injection H as <- _;
      apply getProp_setProp_ne; discriminate.
  - intros H. injection H as <- _. reflexivity.
Qed.

(** The workspace slug after the auto-fill block, for parameters that
    are an object. *)
Lemma autoFill_workspace (commandName : string) (props : list (string * value))
    (sessionContext : Context.t) :
  getProp (autoFill commandName (VObject props) sessionContext) "workspaceSlug"
  = if negb (String.eqb commandName "listWorkspaces")
       && negb (String.eqb commandName "createWorkspace")
       && negb (ToBoolean (getOwn props "workspaceSlug"))
       && ToBoolean (Context.workspaceSlug sessionContext)
    then Context.workspaceSlug sessionContext
    else getOwn props "workspaceSlug".
Proof.
  unfold autoFill.
  change (getProp (VObject props) "workspaceSlug") with (getOwn props "workspaceSlug").
  set (fill := negb (String.eqb commandName "listWorkspaces")
               && negb (String.eqb commandName "createWorkspace")
               && negb (ToBoolean (getOwn props "workspaceSlug"))
               && ToBoolean (Context.workspaceSlug sessionContext)).
  set (p1 := if fill
             then setProp (VObject props) "workspaceSlug"
                    (Context.workspaceSlug sessionContext)
             else VObject props).
  assert (H : getProp p1 "workspaceSlug"
              = if fill then Context.workspaceSlug sessionContext
                else getOwn props "workspaceSlug").
  { subst p1. destruct fill; simpl; [apply getOwn_setOwn_eq|reflexivity]. }
  match goal with |- getProp (if ?b then _ else _) _ = _ => destruct b end;
    [rewrite getProp_setProp_ne by discriminate|]; exact H.
Qed.

(** What a turn that returns an action went through. *)
Lemma resolveCommand_action (commands : list Command.t) (env : Services.t)
    (aiMessage : string) (sessionContext : Context.t) (a : Action.t) :
  ChatResponse.action (fst (resolveCommand commands env aiMessage sessionContext)) = Some a ->
  exists parametersString parameters aiMessage',
    extractCommand aiMessage = Some (Action.name a, parametersString)
    /\ parseParameters parametersString = Some parameters
    /\ Validation.valid (validateCommandParameters commands (Action.name a) parameters) = true
    /\ resolveProjectSlug env (Action.name a)
         (autoFill (Action.name a) parameters sessionContext) aiMessage
       = Ok (Action.parameters a, aiMessage')
    /\ snd (resolveCommand commands env aiMessage sessionContext)
       = match updateContextFromCommand (Services.getIdBySlug env)
                 (Services.getAllSlugsByWorkspaceId env) (Services.now env)
                 (Action.name a) (Action.parameters a) sessionContext with
         | Ok context' => context'
         | Throw _ => sessionContext
         end.
Proof.
  unfold resolveCommand.
  destruct (extractCommand aiMessage) as [[commandName parametersString]|] eqn:He;
    [|discriminate].
  destruct (parseParameters parametersString) as [parameters|] eqn:Hp; [|discriminate].
  destruct (Validation.valid _) eqn:Hv; simpl; [|discriminate].
  destruct (resolveProjectSlug env commandName _ aiMessage) as [[resolved aiMessage']|]
    eqn:Hr; [|discriminate].
  destruct (updateContextFromCommand _ _ _ commandName resolved sessionContext) eqn:Hu;
    simpl; intros H; injection H as <-; simpl;
    exists parametersString, parameters, aiMessage'; rewrite ?Hu.
  all: repeat split; try reflexivity; assumption.
Qed.

(** The reply obtained is paired with the context that the map holds
    for the session. *)
Lemma obtainReply_context (URL_parse : string -> option URL) (env : Services.t)
    (chatRequest : ChatRequest.t) (userId : string)
    (contexts contexts' : conversationContexts)
    (aiMessage : string) (sessionContext : Context.t) :
  obtainReply URL_parse env chatRequest userId contexts
  = (Ok (aiMessage, sessionContext), contexts') ->
  contexts' !! sessionKey chatRequest = Some sessionContext
  /\ sessionContext
     = extractContextFromMessage (Services.now env) (ChatRequest.message chatRequest)
         (default (Context.fresh (Services.now env))
                  (contexts !! sessionKey chatRequest)).
Proof.
  unfold obtainReply.
  repeat match goal with
         | |- context [match ?x with Ok _ => _ | Throw _ => _ end] =>
             destruct x; [|discriminate]
         | |- context [if ?b then _ else _] => destruct b; [discriminate|]
         | |- context [if ?b then _ else _] => destruct b; [|discriminate]
         end.
  match goal with
  | |- context [match ?x with VString _ => _ | _ => _ end] => destruct x; try discriminate
  end.
  intros H. injection H as <- <- <-. split.
  - apply lookup_insert_eq.
  - destruct (contexts !! sessionKey chatRequest); reflexivity.
Qed.

(** A turn that obtains a reply is the resolution of that reply. *)
Lemma chat_resolves (commands : list Command.t) (URL_parse : string -> option URL)
    (env : Services.t) (chatRequest : ChatRequest.t) (userId : string)
    (contexts contexts' : conversationContexts) (aiMessage : string)
    (sessionContext : Context.t) :
  obtainReply URL_parse env chatRequest userId contexts
  = (Ok (aiMessage, sessionContext), contexts') ->
  chat commands URL_parse env chatRequest userId contexts
  = (fst (resolveCommand commands env aiMessage sessionContext),
     <[sessionKey chatRequest := snd (resolveCommand commands env aiMessage sessionContext)]>
       contexts').
Proof.
  intros H. unfold chat. rewrite H.
  destruct (resolveCommand commands env aiMessage sessionContext). reflexivity.
Qed.

(** A turn that obtains no reply fails without an action. *)
Lemma chat_fails (commands : list Command.t) (URL_parse : string -> option URL)
    (env : Services.t) (chatRequest : ChatRequest.t) (userId : string)
    (contexts contexts' : conversationContexts) (e : exn) :
  obtainReply URL_parse env chatRequest userId contexts = (Throw e, contexts') ->
  chat commands URL_parse env chatRequest userId contexts = (failure e, contexts').
Proof. intros H. unfold chat. rewrite H. reflexivity. Qed.

Lemma failure_no_action (e : exn) : ChatResponse.action (failure e) = None.
Proof. unfold failure. destruct (_ || _); reflexivity. Qed.

End ChatFacts.
Module ChatClaims.
Import Text Regex Js Json Guard Extractor Validator Mutator Chat Samples.
Import ContextAnalysis ValidatorFacts RegexFacts ContextFacts ChatFacts.

(** C8.  When the reply carries a command whose payload parses neither
    as it stands nor after the brace repair, the turn returns the
    assistant's text unchanged, with no action, [success = true] and no
    error; the session context is left as it was. *)
Theorem parse_failure_keeps_reply (commands : list Command.t)
    (URL_parse : string -> option URL) (env : Services.t)
    (chatRequest : ChatRequest.t) (userId : string)
    (contexts contexts' : conversationContexts)
    (aiMessage : string) (sessionContext : Context.t)
    (commandName parametersString : string) :
  obtainReply URL_parse env chatRequest userId contexts
  = (Ok (aiMessage, sessionContext), contexts') ->
  extractCommand aiMessage = Some (commandName, parametersString) ->
  JSON_parse parametersString = None ->
  JSON_parse (repairJson parametersString) = None ->
  chat commands URL_parse env chatRequest userId contexts
  = ({| ChatResponse.message := aiMessage;
        ChatResponse.action := None;
        ChatResponse.success := true;
        ChatResponse.error := None |},
     contexts').
Proof.
  intros Hreply Hcmd Hstrict Hrepaired.
  rewrite (chat_resolves commands _ _ _ _ _ _ _ _ Hreply).
  unfold resolveCommand, parseParameters. rewrite Hcmd, Hstrict, Hrepaired. simpl.
  f_equal. apply insert_id. apply (obtainReply_context _ _ _ _ _ _ _ _ Hreply).
Qed.

Lemma parse_failure_keeps_reply_witness :
  fst (sample_chat (q "On it. [COMMAND: createTask] {'taskTitle':}") nothing_found
         "create a task" "alice" ∅)
  = {| ChatResponse.message := q "On it. [COMMAND: createTask] {'taskTitle':}";
       ChatResponse.action := None;
       ChatResponse.success := true;
       ChatResponse.error := None |}.
Proof.
  unfold sample_chat.
  erewrite (parse_failure_keeps_reply sample_commands sample_parse _ _ _ _ _
              (q "On it. [COMMAND: createTask] {'taskTitle':}") _
              "createTask" (q "{'taskTitle':}")).
  - reflexivity.
  - vm_compute. reflexivity.
  - vm_compute. reflexivity.
  - vm_compute. reflexivity.
  - vm_compute. reflexivity.
Defined.

(** C3, on the code.  The required-parameter check runs before the
    auto-fill: a command that requires [workspaceSlug] and is given none
    is answered with a request for it and no action, whatever workspace
    the session context holds.  (A workspace slug that is supplied is
    kept by the auto-fill.) *)
Theorem required_workspace_not_filled (commands : list Command.t) (env : Services.t)
    (aiMessage : string) (sessionContext : Context.t)
    (commandName parametersString : string) (parameters : value)
    (command : Command.t) :
  extractCommand aiMessage = Some (commandName, parametersString) ->
  parseParameters parametersString = Some parameters ->
  findCommand commands commandName = Some command ->
  In "workspaceSlug" (requiredParams command) ->
  ToBoolean (getProp parameters "workspaceSlug") = false ->
  ChatResponse.action (fst (resolveCommand commands env aiMessage sessionContext)) = None
  /\ In "workspaceSlug"
       (Validation.missing (validateCommandParameters commands commandName parameters))
  /\ (forall props,
        ToBoolean (getOwn props "workspaceSlug") = true ->
        getProp (autoFill commandName (VObject props) sessionContext) "workspaceSlug"
        = getOwn props "workspaceSlug").
Proof.
  intros Hcmd Hparse Hfind Hreq Hnone.
  assert (Hmissing : isMissing parameters "workspaceSlug" = true).
  { unfold isMissing. rewrite Hnone. reflexivity. }
  assert (Hinvalid : Validation.valid
                       (validateCommandParameters commands commandName parameters) = false).
  { apply (valid_false_iff _ _ _ _ Hfind). exists "workspaceSlug". split; assumption. }
  split; [|split].
  - unfold resolveCommand. rewrite Hcmd, Hparse, Hinvalid. reflexivity.
  - unfold validateCommandParameters in *. rewrite Hfind in *.
    destruct (0 <? length _)%nat; [|discriminate]. simpl.
    apply filter_In. split; assumption.
  - intros props Hgiven. rewrite autoFill_workspace, Hgiven.
    rewrite andb_false_r. reflexivity.
Qed.

Lemma required_workspace_not_filled_witness :
  ChatResponse.action
    (fst (resolveCommand sample_commands (sample_services "" nothing_found)
            "Listing. [COMMAND: listProjects] {}"
            (Context.set_workspaceSlug (VString "w1") (Context.fresh 0))))
  = None.
Proof.
  apply (required_workspace_not_filled sample_commands (sample_services "" nothing_found)
           "Listing. [COMMAND: listProjects] {}"
           (Context.set_workspaceSlug (VString "w1") (Context.fresh 0))
           "listProjects" "{}" (VObject [])
           {| Command.name := "listProjects"; Command.params := ["workspaceSlug"] |}).
  - vm_compute. reflexivity.
  - vm_compute. reflexivity.
  - reflexivity.
  - left. reflexivity.
  - reflexivity.
Defined.

Lemma autoFill_object (commandName : string) (props : list (string * value))
    (sessionContext : Context.t) :
  exists props', autoFill commandName (VObject props) sessionContext = VObject props'.
Proof.
  unfold autoFill.
  repeat match goal with |- context [if ?b then _ else _] => destruct b end;
    simpl; eexists; reflexivity.
Qed.

(** C2, on the code.  When the slug check of [navigateToProject] answers
    not-found, the turn still returns the action, with [projectSlug] set
    to the empty string; if the grammar requires [projectSlug], the
    action returned is one the validator itself rejects. *)
Theorem not_found_action_has_blank_slug (commands : list Command.t) (env : Services.t)
    (aiMessage : string) (sessionContext : Context.t) (parametersString : string)
    (parameters : value) (command : Command.t) (check : SlugCheck.t) :
  extractCommand aiMessage = Some ("navigateToProject", parametersString) ->
  parseParameters parametersString = Some parameters ->
  findCommand commands "navigateToProject" = Some command ->
  In "projectSlug" (requiredParams command) ->
  Validation.valid (validateCommandParameters commands "navigateToProject" parameters)
  = true ->
  Services.validateProjectSlug env
    (getProp (autoFill "navigateToProject" parameters sessionContext) "projectSlug")
  = Ok check ->
  SlugCheck.status_of check = SlugCheck.not_found ->
  exists a,
    ChatResponse.action (fst (resolveCommand commands env aiMessage sessionContext)) = Some a
    /\ Action.name a = "navigateToProject"
    /\ getProp (Action.parameters a) "projectSlug" = VString ""
    /\ Validation.valid
         (validateCommandParameters commands (Action.name a) (Action.parameters a))
       = false.
Proof.
  intros Hcmd Hparse Hfind Hreq Hvalid Hcheck Hstatus.
  assert (Hgiven : isMissing parameters "projectSlug" = false).
  { destruct (isMissing parameters "projectSlug") eqn:E; [|reflexivity].
    assert (Hf : Validation.valid
                   (validateCommandParameters commands "navigateToProject" parameters)
                 = false).
    { apply (valid_false_iff _ _ _ _ Hfind). exists "projectSlug". split; assumption. }
    rewrite Hf in Hvalid. discriminate. }
  assert (Hobj : exists props, parameters = VObject props).
  { destruct parameters; try (vm_compute in Hgiven; discriminate). eexists. reflexivity. }
  destruct Hobj as [props ->].
  destruct (autoFill_object "navigateToProject" props sessionContext) as [props' Hfill].
  unfold resolveCommand. rewrite Hcmd, Hparse, Hvalid. simpl negb. cbv iota.
  unfold resolveProjectSlug. simpl String.eqb. cbv iota.
  rewrite Hcheck, Hstatus, Hfill.
  set (resolved := setProp (VObject props') "projectSlug" (VString "")).
  assert (Hblank : getProp resolved "projectSlug" = VString "").
  { apply getOwn_setOwn_eq. }
  assert (Hrejected : Validation.valid
                        (validateCommandParameters commands "navigateToProject" resolved)
                      = false).
  { apply (valid_false_iff _ _ _ _ Hfind). exists "projectSlug". split; [assumption|].
    unfold isMissing. rewrite Hblank. reflexivity. }
  destruct (updateContextFromCommand _ _ _ "navigateToProject" resolved sessionContext);
    simpl; eexists; (split; [reflexivity|]); simpl; repeat split; assumption.
Qed.

Lemma not_found_action_has_blank_slug_witness :
  exists a,
    ChatResponse.action
      (fst (resolveCommand sample_commands (sample_services "" nothing_found)
              (q "Going. [COMMAND: navigateToProject] {'workspaceSlug':'w1','projectSlug':'nope'}")
              (Context.fresh 0)))
    = Some a
    /\ Action.name a = "navigateToProject"
    /\ getProp (Action.parameters a) "projectSlug" = VString ""
    /\ Validation.valid
         (validateCommandParameters sample_commands (Action.name a) (Action.parameters a))
       = false.
Proof.
  apply (not_found_action_has_blank_slug sample_commands (sample_services "" nothing_found)
           (q "Going. [COMMAND: navigateToProject] {'workspaceSlug':'w1','projectSlug':'nope'}")
           (Context.fresh 0)
           (q "{'workspaceSlug':'w1','projectSlug':'nope'}")
           (VObject [("workspaceSlug", VString "w1"); ("projectSlug", VString "nope")])
           {| Command.name := "navigateToProject";
              Command.params := ["workspaceSlug"; "projectSlug"] |}
           nothing_found).
  - vm_compute. reflexivity.
  - vm_compute. reflexivity.
  - reflexivity.
  - right. left. reflexivity.
  - vm_compute. reflexivity.
  - reflexivity.
  - reflexivity.
Defined.

(** C9.  Two requests that name no session (or the empty one) are both
    keyed to ['default'], whoever sends them.  What the first turn wrote
    under that key (for instance the workspace of a
    [navigateToWorkspace] action) is the context the second turn starts
    from, and when the second turn returns an action for a command
    other than [listWorkspaces] and [createWorkspace] whose payload
    supplied no workspace, the action carries the workspace slug stored
    under ['default']. *)
Theorem default_session_shared (commands : list Command.t)
    (URL_parse : string -> option URL) (env1 env2 : Services.t)
    (request1 request2 : ChatRequest.t) (user1 user2 : string)
    (contexts : conversationContexts) :
  ChatRequest.sessionId request1 = None \/ ChatRequest.sessionId request1 = Some "" ->
  ChatRequest.sessionId request2 = None \/ ChatRequest.sessionId request2 = Some "" ->
  let turn1 := chat commands URL_parse env1 request1 user1 contexts in
  let turn2 := chat commands URL_parse env2 request2 user2 (snd turn1) in
  sessionKey request1 = "default"
  /\ sessionKey request2 = "default"
  /\ (forall a1,
        ChatResponse.action (fst turn1) = Some a1 ->
        Action.name a1 = "navigateToWorkspace" ->
        ToBoolean (getProp (Action.parameters a1) "workspaceSlug") = true ->
        (forall v, exists id, Services.getIdBySlug env1 v = Ok id) ->
        (forall id, exists slugs, Services.getAllSlugsByWorkspaceId env1 id = Ok slugs) ->
        exists c1,
          snd turn1 !! "default" = Some c1
          /\ Context.workspaceSlug c1 = getProp (Action.parameters a1) "workspaceSlug")
  /\ (forall aiMessage2 context2 contexts2,
        obtainReply URL_parse env2 request2 user2 (snd turn1)
        = (Ok (aiMessage2, context2), contexts2) ->
        context2
        = extractContextFromMessage (Services.now env2) (ChatRequest.message request2)
            (default (Context.fresh (Services.now env2)) (snd turn1 !! "default"))
        /\ (forall c1 commandName parametersString parameters a2,
              snd turn1 !! "default" = Some c1 ->
              extractCommand aiMessage2 = Some (commandName, parametersString) ->
              parseParameters parametersString = Some parameters ->
              commandName <> "listWorkspaces" ->
              commandName <> "createWorkspace" ->
              ToBoolean (getProp parameters "workspaceSlug") = false ->
              ToBoolean (Context.workspaceSlug c1) = true ->
              ChatResponse.action (fst turn2) = Some a2 ->
              getProp (Action.parameters a2) "workspaceSlug" = Context.workspaceSlug c1)).
Proof.
  intros Hs1 Hs2 turn1 turn2.
  assert (Hk1 : sessionKey request1 = "default").
  { unfold sessionKey. destruct Hs1 as [-> | ->]; reflexivity. }
  assert (Hk2 : sessionKey request2 = "default").
  { unfold sessionKey. destruct Hs2 as [-> | ->]; reflexivity. }
  split; [exact Hk1|]. split; [exact Hk2|]. split.
  - intros a1 Hact Hname Hslug Hid Hall. subst turn1 turn2.
    destruct (obtainReply URL_parse env1 request1 user1 contexts)
      as [[[aiMessage1 context1]|e] contexts1] eqn:Hreply.
    + rewrite (chat_resolves commands _ _ _ _ _ _ _ _ Hreply) in *. simpl in *.
      rewrite Hk1. eexists. split; [apply lookup_insert_eq|].
      destruct (resolveCommand_action _ _ _ _ _ Hact) as (ps & p & ai' & _ & _ & _ & _ & ->).
      rewrite Hname.
      destruct (navigateToWorkspace_answers (Services.getIdBySlug env1)
                  (Services.getAllSlugsByWorkspaceId env1) (Services.now env1)
                  (Action.parameters a1) context1 Hid Hall) as [c' Hc'].
      rewrite Hc'. eapply navigateToWorkspace_result; eassumption.
    + rewrite (chat_fails commands _ _ _ _ _ _ _ Hreply) in Hact. simpl in Hact.
      rewrite failure_no_action in Hact. discriminate.
  - intros aiMessage2 context2 contexts2 Hreply.
    destruct (obtainReply_context _ _ _ _ _ _ _ _ Hreply) as [_ Hctx].
    rewrite Hk2 in Hctx. split; [exact Hctx|].
    intros c1 commandName parametersString parameters a2 Hc1 Hcmd Hparse Hn1 Hn2 Hnone
      Hws Hact.
    destruct (parameters_are_object _ _ _ _ Hcmd Hparse) as [props ->].
    change (getProp (VObject props) "workspaceSlug")
      with (getOwn props "workspaceSlug") in Hnone.
    subst turn2. rewrite (chat_resolves commands _ _ _ _ _ _ _ _ Hreply) in Hact.
    simpl in Hact.
    destruct (resolveCommand_action _ _ _ _ _ Hact)
      as (ps & p & ai' & Hcmd' & Hparse' & _ & Hres & _).
    rewrite Hcmd in Hcmd'. injection Hcmd' as Hname <-.
    rewrite Hparse in Hparse'. injection Hparse' as <-.
    rewrite (resolveProjectSlug_keeps_workspace _ _ _ _ _ _ Hres).
    rewrite autoFill_workspace, <- Hname, Hnone.
    assert (Hsame : Context.workspaceSlug context2 = Context.workspaceSlug c1).
    { rewrite Hctx, Hc1. apply extract_keeps_workspaceSlug. }
    rewrite Hsame, Hws.
    destruct (String.eqb commandName "listWorkspaces") eqn:E1;
      [apply String.eqb_eq in E1; contradiction|].
    destruct (String.eqb commandName "createWorkspace") eqn:E2;
      [apply String.eqb_eq in E2; contradiction|].
    reflexivity.
Qed.

Lemma default_session_shared_witness :
  let turn1 :=
    sample_chat (q "Going. [COMMAND: navigateToWorkspace] {'workspaceSlug':'w1'}")
      nothing_found "open w1" "alice" ∅ in
  let turn2 :=
    sample_chat (q "Searching. [COMMAND: searchTasks] {'query':'bug'}")
      nothing_found "find bug" "bob" (snd turn1) in
  exists a2,
    ChatResponse.action (fst turn2) = Some a2
    /\ getProp (Action.parameters a2) "workspaceSlug" = VString "w1".
Proof.
  cbv zeta. eexists. split; [vm_compute; reflexivity|].
  pose proof (default_session_shared sample_commands sample_parse
                (sample_services
                   (q "Going. [COMMAND: navigateToWorkspace] {'workspaceSlug':'w1'}")
                   nothing_found)
                (sample_services (q "Searching. [COMMAND: searchTasks] {'query':'bug'}")
                   nothing_found)
                (sample_request "open w1") (sample_request "find bug")
                "alice" "bob" ∅ (or_introl eq_refl) (or_introl eq_refl)) as H.
  cbv zeta in H. destruct H as (_ & _ & _ & H).
  edestruct H as [_ Hfill].
  - vm_compute. reflexivity.
  - change (VString "w1")
      with (Context.workspaceSlug
              {| Context.workspaceSlug := VString "w1";
                 Context.workspaceName := VString "w1";
                 Context.projectSlug := VUndefined;
                 Context.projectName := VUndefined;
                 Context.lastUpdated := 1000;
                 Context.currentWorkSpaceProjectSlug := Some ["alpha"; "marketing"] |}).
    eapply (Hfill _ "searchTasks" (q "{'query':'bug'}")
              (VObject [("query", VString "bug")])).
    + vm_compute. reflexivity.
    + vm_compute. reflexivity.
    + vm_compute. reflexivity.
    + discriminate.
    + discriminate.
    + reflexivity.
    + reflexivity.
    + vm_compute. reflexivity.
Defined.

End ChatClaims.
(** * What a match tells about the text *)

Module SuffixFacts.
Import Text Regex Shape JsonFacts RegexFacts.

Section Consumed.
Context {R : Type}.
Variable f : flags.

Lemma reached_here (k : cont R) (prev : option ascii) (s : string) (c : captures) (m : R) :
  k prev s c = Some m -> reached k s m.
Proof. intros H. exists prev, s, c, EmptyString. split; [exact H|reflexivity]. Qed.

Lemma reached_longer (k : cont R) (x : ascii) (t : string) (m : R) :
  reached k t m -> reached k (String x t) m.
Proof.
  intros (p & s' & c' & pre & H & ->). exists p, s', c', (String x pre).
  split; [exact H|reflexivity].
Qed.

Lemma reached_append (k : cont R) (pre s : string) (m : R) :
  reached k s m -> reached k (pre +:+ s) m.
Proof.
  induction pre as [|x pre IH]; intros H; [exact H|].
  rewrite append_cons. apply reached_longer, IH, H.
Qed.

Lemma greedy_reached (a : atom) (k : cont R) (s : string) :
  forall prev c m, greedy f a k prev s c = Some m -> reached k s m.
Proof.
  induction s as [|x t IH]; intros prev c m; simpl.
  - apply reached_here.
  - destruct (atom_matches (ignoreCase f) a x); [|apply reached_here].
    destruct (greedy f a k (Some x) t c) as [r|] eqn:E.
    + intros H. injection H as <-. apply reached_longer. eapply IH. exact E.
    + apply reached_here.
Qed.

Lemma reluctant_reached (a : atom) (k : cont R) (s : string) :
  forall prev c m, reluctant f a k prev s c = Some m -> reached k s m.
Proof.
  induction s as [|x t IH]; intros prev c m; simpl.
  - destruct (k prev EmptyString c) eqn:E; [|discriminate].
    intros H. injection H as <-. eapply reached_here. exact E.
  - destruct (k prev (String x t) c) eqn:E.
    + intros H. injection H as <-. eapply reached_here. exact E.
    + destruct (atom_matches (ignoreCase f) a x); [|discriminate].
      intros H. apply reached_longer. eapply IH. exact H.
Qed.

Lemma run_reached (r : regex) :
  forall (k : cont R) prev s c m, run f r k prev s c = Some m -> reached k s m.
Proof.
  induction r as [|a|r1 IH1 r2 IH2|r1 IH1 r2 IH2|r1 IH1|a|a|a|a|n r1 IH1| |];
    intros k prev s c m; simpl.
  - apply reached_here.
  - intros H. apply one_called in H. destruct H as (x & t & -> & _ & H).
    apply reached_longer. eapply reached_here. exact H.
  - intros H. apply IH1 in H. destruct H as (p1 & s1 & c1 & pre1 & H & ->).
    apply reached_append. eapply IH2. exact H.
  - destruct (run f r1 k prev s c) as [x|] eqn:E.
    + intros H. injection H as <-. eapply IH1. exact E.
    + apply IH2.
  - destruct (run f r1 k prev s c) as [x|] eqn:E.
    + intros H. injection H as <-. eapply IH1. exact E.
    + apply reached_here.
  - apply greedy_reached.
  - intros H. apply one_called in H. destruct H as (x & t & -> & _ & H).
    apply reached_longer. eapply greedy_reached. exact H.
  - apply reluctant_reached.
  - intros H. apply one_called in H. destruct H as (x & t & -> & _ & H).
    apply reached_longer. eapply reluctant_reached. exact H.
  - intros H. apply IH1 in H. destruct H as (p1 & s1 & c1 & pre1 & H & ->).
    exists p1, s1, ((n, take (String.length (pre1 +:+ s1) - String.length s1) (pre1 +:+ s1)) :: c1),
      pre1.
    split; [exact H|reflexivity].
  - destruct (at_bol f prev); [apply reached_here|discriminate].
  - destruct (at_eol f s); [apply reached_here|discriminate].
Qed.

(** A literal consumes exactly its text. *)
Lemma one_char (x : ascii) (k : cont R) (prev : option ascii) (s : string)
    (c : captures) (m : R) :
  ignoreCase f = false ->
  one f (AChar x) k prev s c = Some m ->
  exists t, s = String x t /\ k (Some x) t c = Some m.
Proof.
  intros Hic H. apply one_called in H. destruct H as (y & t & -> & Hy & H).
  rewrite Hic in Hy. unfold atom_matches, same_char in Hy.
  rewrite andb_false_l, orb_false_r in Hy. apply Ascii.eqb_eq in Hy. subst y.
  exists t. split; [reflexivity|exact H].
Qed.

Lemma run_lit (text : string) :
  ignoreCase f = false ->
  forall (k : cont R) prev s c m,
    run f (lit text) k prev s c = Some m ->
    exists prev' s', s = text +:+ s' /\ k prev' s' c = Some m.
Proof.
  intros Hic. induction text as [|x t IH]; intros k prev s c m H.
  - exists prev, s. split; [reflexivity|exact H].
  - destruct t as [|y t'].
    + apply (one_char x k prev s c m Hic) in H. destruct H as (s' & -> & H).
      exists (Some x), s'. split; [reflexivity|exact H].
    + change (lit (String x (String y t'))) with (Seq (One (AChar x)) (lit (String y t'))) in H.
      simpl run in H. apply (one_char x _ prev s c m Hic) in H. destruct H as (s1 & -> & H).
      apply IH in H. destruct H as (p' & s' & -> & H).
      exists p', s'. split; [reflexivity|exact H].
Qed.

Lemma run_eol (k : cont R) (prev : option ascii) (s : string) (c : captures) (m : R) :
  multiline f = false ->
  run f Eol k prev s c = Some m -> s = EmptyString /\ k prev EmptyString c = Some m.
Proof.
  intros Hm. simpl. destruct s as [|x t]; simpl.
  - intros H. split; [reflexivity|exact H].
  - rewrite Hm. discriminate.
Qed.

Lemma run_bol (k : cont R) (prev : option ascii) (s : string) (c : captures) (m : R) :
  multiline f = false ->
  run f Bol k prev s c = Some m -> prev = None /\ k None s c = Some m.
Proof.
  intros Hm. simpl. destruct prev as [x|]; simpl.
  - rewrite Hm. discriminate.
  - intros H. split; [reflexivity|exact H].
Qed.

(** A pattern that ends with a literal and the end anchor matches only
    a text that ends with the literal. *)
Lemma literal_at_end (pre : list regex) (text : string) (k : cont R) :
  ignoreCase f = false -> multiline f = false ->
  forall prev s c m,
    run f (fold_right Seq (Seq (lit text) Eol) pre) k prev s c = Some m ->
    exists before, s = before +:+ text.
Proof.
  intros Hic Hm prev s c m H.
  assert (Hr : reached (run f (Seq (lit text) Eol) k) s m).
  { clear -H. revert prev s c H. induction pre as [|a pre IH]; intros prev s c H.
    - eapply reached_here. exact H.
    - simpl in H. apply run_reached in H. destruct H as (p1 & s1 & c1 & pre1 & H & ->).
      apply reached_append. eapply IH. exact H. }
  destruct Hr as (p & s' & c' & before & Hrun & ->).
  simpl run in Hrun. apply (run_lit text Hic) in Hrun.
  destruct Hrun as (p' & s2 & -> & Hrun).
  apply (run_eol k p' s2 c' m Hm) in Hrun. destruct Hrun as [-> _].
  exists before. rewrite append_empty_r. reflexivity.
Qed.

End Consumed.

(** [exec] finds its match on a suffix of the text; when the pattern is
    tried past the first position, some character precedes. *)
Lemma exec_from_position (f : flags) (r : regex) (s : string) :
  forall prev m from,
    exec_from f r prev s = Some (m, from) ->
    exists prev' skipped,
      run f r finish prev' from [] = Some m
      /\ s = skipped +:+ from
      /\ ((prev' = prev /\ from = s) \/ exists x, prev' = Some x).
Proof.
  induction s as [|x t IH]; intros prev m from; simpl.
  - destruct (run f r finish prev EmptyString []) eqn:E; [|discriminate].
    intros H. injection H as <- <-. exists prev, EmptyString. auto.
  - destruct (run f r finish prev (String x t) []) eqn:E.
    + intros H. injection H as <- <-. exists prev, EmptyString. auto.
    + intros H. apply IH in H. destruct H as (p' & skipped & H & -> & Hp).
      exists p', (String x skipped). split; [exact H|]. split; [reflexivity|].
      right. destruct Hp as [[-> _]|Hp]; [eauto|exact Hp].
Qed.

Lemma test_found (f : flags) (r : regex) (s : string) :
  test f r s = true ->
  exists prev' skipped from m,
    run f r finish prev' from [] = Some m
    /\ s = skipped +:+ from
    /\ ((prev' = None /\ from = s) \/ exists x, prev' = Some x).
Proof.
  unfold test, exec. destruct (exec_from f r None s) as [[m from]|] eqn:E; [|discriminate].
  intros _. apply exec_from_position in E. destruct E as (p & skipped & H1 & H2 & H3).
  exists p, skipped, from, m. auto.
Qed.

(** A match at the first position is a match. *)
Lemma test_at_start (f : flags) (r : regex) (s : string) (m : found) :
  run f r finish None s [] = Some m -> test f r s = true.
Proof.
  intros H. unfold test, exec. destruct s; simpl; rewrite H; reflexivity.
Qed.

Lemma test_literal_at_end (pre : list regex) (text s : string) :
  test no_flags (fold_right Seq (Seq (lit text) Eol) pre) s = true ->
  exists before, s = before +:+ text.
Proof.
  intros H. apply test_found in H. destruct H as (p & skipped & from & m & H & -> & _).
  apply (literal_at_end no_flags pre text finish eq_refl eq_refl) in H.
  destruct H as [before ->]. exists (skipped +:+ before). rewrite append_assoc. reflexivity.
Qed.

(** [endsWith] and concatenation. *)
Lemma endsWith_append (before text : string) : endsWith (before +:+ text) text = true.
Proof.
  induction before as [|x t IH].
  - change (EmptyString +:+ text) with text. destruct text; simpl.
    + reflexivity.
    + rewrite Ascii.eqb_refl, String.eqb_refl. reflexivity.
  - rewrite append_cons. simpl. rewrite IH. apply orb_true_r.
Qed.

Lemma endsWith_split (s text : string) :
  endsWith s text = true -> exists before, s = before +:+ text.
Proof.
  induction s as [|x t IH].
  - destruct text; [|discriminate]. intros _. exists EmptyString. reflexivity.
  - change (endsWith (String x t) text)
      with (String.eqb (String x t) text || endsWith t text).
    intros H. apply orb_true_iff in H. destruct H as [H|H].
    + apply String.eqb_eq in H. subst text. exists EmptyString. reflexivity.
    + destruct (IH H) as [before ->]. exists (String x before). reflexivity.
Qed.

(** Two endings, neither of which ends with the other, exclude each
    other. *)
Lemma endsWith_exclusive (a b : string) :
  endsWith a b = false -> endsWith b a = false ->
  forall s, endsWith s a = true -> endsWith s b = false.
Proof.
  intros Hab Hba. induction s as [|x t IH].
  - destruct a; [|discriminate]. intros _. destruct b; [discriminate|reflexivity].
  - intros H.
    change (endsWith (String x t) a) with (String.eqb (String x t) a || endsWith t a) in H.
    change (endsWith (String x t) b) with (String.eqb (String x t) b || endsWith t b).
    apply orb_true_iff in H. destruct H as [H|H].
    + apply String.eqb_eq in H. subst a. exact Hab.
    + rewrite (IH H), orb_false_r.
      destruct (String.eqb (String x t) b) eqn:E; [|reflexivity].
      apply String.eqb_eq in E. subst b.
      change (endsWith (String x t) a) with (String.eqb (String x t) a || endsWith t a) in Hba.
      rewrite H, orb_true_r in Hba. discriminate.
Qed.

End SuffixFacts.
(** * The endpoint guard and the provider detection, further *)

Module GuardMore.
Import Text Regex Guard Chat Shape MoreSamples JsonFacts SuffixFacts GuardFacts.

Lemma azure_ending (h : string) :
  test no_flags azurePattern h = true -> endsWith h ".openai.azure.com" = true.
Proof.
  intros H.
  change azurePattern
    with (fold_right Seq (Seq (lit ".openai.azure.com") Eol) [Bol; Plus lower_digit_dash]) in H.
  apply test_literal_at_end in H. destruct H as [before ->]. apply endsWith_append.
Qed.

Lemma bedrock_ending (h : string) :
  test no_flags awsBedrockPattern h = true -> endsWith h ".amazonaws.com" = true.
Proof.
  intros H. unfold awsBedrockPattern in H.
  match type of H with
  | test _ (cat [?a; ?b; ?c; ?d; ?e; _; _]) _ = _ =>
      change (test no_flags
                (fold_right Seq (Seq (lit ".amazonaws.com") Eol) [a; b; c; d; e]) h = true) in H
  end.
  apply test_literal_at_end in H. destruct H as [before ->]. apply endsWith_append.
Qed.

Lemma google_ending (h : string) :
  test no_flags googlePattern h = true ->
  endsWith h "aiplatform.googleapis.com" = true \/ endsWith h ".p.googleapis.com" = true.
Proof.
  intros H. apply test_found in H. destruct H as (p & skipped & from & m & H & -> & _).
  unfold googlePattern in H. simpl run in H.
  match type of H with
  | match ?first with Some _ => _ | None => _ end = _ => destruct first as [m1|] eqn:E1
  end.
  - left.
    change (run no_flags
              (fold_right Seq (Seq (lit "aiplatform.googleapis.com") Eol)
                 [Bol; Opt (Group 1 (Seq (Plus lower_digit_dash) (lit ".")))])
              finish p from [] = Some m1) in E1.
    apply (literal_at_end no_flags _ _ finish eq_refl eq_refl) in E1.
    destruct E1 as [before ->]. rewrite <- append_assoc. apply endsWith_append.
  - right.
    change (run no_flags
              (fold_right Seq (Seq (lit ".p.googleapis.com") Eol) [Bol; Plus lower_digit_dash])
              finish p from [] = Some m) in H.
    apply (literal_at_end no_flags _ _ finish eq_refl eq_refl) in H.
    destruct H as [before ->]. rewrite <- append_assoc. apply endsWith_append.
Qed.

Lemma supportedProvider_hosts (h : string) :
  supportedProvider h = true <-> In h providerHosts \/ test no_flags googlePattern h = true.
Proof.
  unfold supportedProvider, providerHosts. split.
  - intros H. repeat (apply orb_true_iff in H; destruct H as [H|H]);
      try (apply String.eqb_eq in H; subst h; left; simpl; tauto).
    right. exact H.
  - intros [H|H].
    + simpl in H. destruct H as [<-|[<-|[<-|[<-|[]]]]]; reflexivity.
    + rewrite H. rewrite !orb_true_r. reflexivity.
Qed.

Lemma supported_is_allowed (h : string) : supportedProvider h = true -> hostAllowed h = true.
Proof.
  intros H. apply supportedProvider_hosts in H. destruct H as [H|H].
  - simpl in H. destruct H as [<-|[<-|[<-|[<-|[]]]]]; reflexivity.
  - unfold hostAllowed. rewrite H. rewrite !orb_true_r. reflexivity.
Qed.

(** A host with an ending that no provider host and no Google pattern
    host has is not a supported provider. *)
Lemma ending_not_supported (ending h : string) :
  forallb (fun host => negb (endsWith host ending)) providerHosts = true ->
  endsWith ending "aiplatform.googleapis.com" = false ->
  endsWith "aiplatform.googleapis.com" ending = false ->
  endsWith ending ".p.googleapis.com" = false ->
  endsWith ".p.googleapis.com" ending = false ->
  endsWith h ending = true ->
  supportedProvider h = false.
Proof.
  intros Hhosts H1 H2 H3 H4 He.
  destruct (supportedProvider h) eqn:Hs; [|reflexivity].
  apply supportedProvider_hosts in Hs. destruct Hs as [Hs|Hs].
  - rewrite forallb_forall in Hhosts. specialize (Hhosts h Hs).
    rewrite He in Hhosts. discriminate.
  - apply google_ending in Hs. destruct Hs as [Hs|Hs].
    + rewrite (endsWith_exclusive _ _ H1 H2 h He) in Hs. discriminate.
    + rewrite (endsWith_exclusive _ _ H3 H4 h He) in Hs. discriminate.
Qed.

Lemma toLowerCase_append (a b : string) :
  toLowerCase (a +:+ b) = toLowerCase a +:+ toLowerCase b.
Proof.
  induction a as [|x t IH]; [reflexivity|].
  rewrite append_cons. simpl. rewrite IH, append_cons. reflexivity.
Qed.

Lemma append_nonempty (a b : string) : b <> EmptyString -> a +:+ b <> EmptyString.
Proof. destruct a; [intros H; exact H|intros _; rewrite append_cons; discriminate]. Qed.

Lemma dropLastBracket_append (before ending : string) :
  ending <> EmptyString -> dropLastBracket ending = ending ->
  dropLastBracket (before +:+ ending) = before +:+ ending.
Proof.
  intros Hne He. induction before as [|x t IH]; [exact He|].
  rewrite append_cons. pose proof (append_nonempty t ending Hne) as Hn.
  destruct (t +:+ ending) as [|y r] eqn:E; [contradiction|].
  change (dropLastBracket (String x (String y r)))
    with (String x (dropLastBracket (String y r))).
  rewrite IH. reflexivity.
Qed.

(** Lower-casing and the removal of brackets keep a lower-case ending
    that has no bracket at its ends. *)
Lemma normalized_ending (ending h : string) :
  ending <> EmptyString -> toLowerCase ending = ending ->
  dropLastBracket ending = ending -> stripBrackets ending = ending ->
  endsWith h ending = true ->
  endsWith (stripBrackets (toLowerCase h)) ending = true.
Proof.
  intros Hne Hlow Hdrop Hstrip H. apply endsWith_split in H. destruct H as [before ->].
  rewrite toLowerCase_append, Hlow.
  destruct (toLowerCase before) as [|x t].
  - change (EmptyString +:+ ending) with ending. rewrite Hstrip.
    apply (endsWith_append EmptyString).
  - rewrite append_cons. pose proof (append_nonempty t ending Hne) as Hn.
    pose proof (dropLastBracket_append t ending Hne Hdrop) as Ht.
    pose proof (dropLastBracket_append (String x t) ending Hne Hdrop) as Hxt.
    rewrite append_cons in Hxt.
    destruct (t +:+ ending) as [|y r] eqn:E; [contradiction|].
    destruct (Ascii.eqb x "[") eqn:Ex.
    + apply Ascii.eqb_eq in Ex. subst x.
      change (stripBrackets (String "[" (String y r))) with (dropLastBracket (String y r)).
      rewrite Ht, <- E. apply endsWith_append.
    + assert (Hs : stripBrackets (String x (String y r)) = dropLastBracket (String x (String y r))).
      { destruct x as [[] [] [] [] [] [] [] []]; try reflexivity. discriminate. }
      rewrite Hs, Hxt, <- E, <- append_cons. apply endsWith_append.
Qed.

(** A branch of [detectProvider] is taken only for a host name with the
    provider's ending. *)
Lemma provider_branch_ending (h host : string) :
  String.eqb h host || endsWith h (String "." host) = true -> endsWith h host = true.
Proof.
  intros H. apply orb_true_iff in H. destruct H as [H|H].
  - apply String.eqb_eq in H. subst h. apply (endsWith_append EmptyString).
  - apply endsWith_split in H. destruct H as [before ->].
    change (String "." host) with ("." +:+ host). rewrite <- append_assoc.
    apply endsWith_append.
Qed.

Lemma detectProvider_range (URL_parse : string -> option URL) (apiUrl : string) :
  In (detectProvider URL_parse apiUrl) ["openrouter"; "openai"; "anthropic"; "google"; "custom"].
Proof.
  unfold detectProvider. destruct (URL_parse apiUrl) as [u|]; [|simpl; tauto].
  repeat match goal with |- context [if ?b then _ else _] => destruct b end; simpl; tauto.
Qed.

(** X1.  The guard returns a URL exactly when the text parses, the
    scheme is https, the port is 443 (written out or by default), the
    host is one of the four provider hosts or matches the Google
    pattern, and the host is not an internal address; the result is the
    serialised URL without one trailing slash.  The allow-list test that
    comes first (allowed hosts, AWS and Azure patterns) never decides. *)
Theorem validateApiUrl_accepts_iff (URL_parse : string -> option URL)
    (apiUrl canonical : string) :
  validateApiUrl URL_parse apiUrl = Ok canonical <->
  exists url,
    URL_parse apiUrl = Some url
    /\ protocol url = "https:"
    /\ effectivePort url = Some 443%N
    /\ (In (normalizedHost url) providerHosts
        \/ test no_flags googlePattern (normalizedHost url) = true)
    /\ internalAddress (normalizedHost url) = false
    /\ canonical = stripTrailingSlash (href url).
Proof.
  split.
  - intros H. apply validateApiUrl_Ok_inv in H.
    destruct H as (url & Hp & Hs & _ & Hi & Hport & Hsup & Hc).
    exists url. apply supportedProvider_hosts in Hsup. repeat split; assumption.
  - intros (url & Hp & Hs & Hport & Hsup & Hi & ->).
    apply supportedProvider_hosts in Hsup.
    unfold validateApiUrl. rewrite Hp, Hs. simpl.
    rewrite (supported_is_allowed _ Hsup), Hi, Hsup. simpl.
    rewrite bool_decide_eq_true_2 by exact Hport. reflexivity.
Qed.

(** X2.  A host that the allow-list admits through the AWS Bedrock or
    the Azure OpenAI pattern is never accepted: it is not a supported
    provider, so the guard throws; with https, port 443 and a host that
    is not taken for an internal address, the exception is
    ['Unsupported AI provider host']. *)
Theorem cloud_hosts_never_accepted (URL_parse : string -> option URL)
    (apiUrl : string) (url : URL) :
  URL_parse apiUrl = Some url ->
  test no_flags awsBedrockPattern (normalizedHost url) = true
  \/ test no_flags azurePattern (normalizedHost url) = true ->
  hostAllowed (normalizedHost url) = true
  /\ (exists message,
        validateApiUrl URL_parse apiUrl = Throw (BadRequestException message))
  /\ (protocol url = "https:" ->
      internalAddress (normalizedHost url) = false ->
      effectivePort url = Some 443%N ->
      validateApiUrl URL_parse apiUrl
      = Throw (BadRequestException "Unsupported AI provider host")).
Proof.
  intros Hp Hcloud.
  assert (Hallowed : hostAllowed (normalizedHost url) = true).
  { unfold hostAllowed. destruct Hcloud as [H|H]; rewrite H; rewrite ?orb_true_r; reflexivity. }
  assert (Hsup : supportedProvider (normalizedHost url) = false).
  { destruct Hcloud as [H|H].
    - apply bedrock_ending in H.
      apply (ending_not_supported ".amazonaws.com"); try reflexivity. exact H.
    - apply azure_ending in H.
      apply (ending_not_supported ".openai.azure.com"); try reflexivity. exact H. }
  split; [exact Hallowed|]. split.
  - unfold validateApiUrl. rewrite Hp, Hallowed, Hsup. simpl.
    destruct (negb (String.eqb (protocol url) "https:")); [eauto|].
    destruct (internalAddress (normalizedHost url)); [eauto|].
    destruct (negb (bool_decide (effectivePort url = Some 443%N))); eauto.
  - intros Hs Hi Hport. unfold validateApiUrl.
    rewrite Hp, Hs, Hallowed, Hi, Hsup. simpl.
    rewrite bool_decide_eq_true_2 by exact Hport. reflexivity.
Qed.

Lemma cloud_hosts_never_accepted_witness :
  validateApiUrl cloud_parse "https://bedrock-runtime.us-east-1.amazonaws.com"
  = Throw (BadRequestException "Unsupported AI provider host")
  /\ exists message,
       validateApiUrl cloud_parse "https://contoso.openai.azure.com/openai"
       = Throw (BadRequestException message).
Proof.
  split.
  - apply (cloud_hosts_never_accepted cloud_parse
             "https://bedrock-runtime.us-east-1.amazonaws.com"
             {| protocol := "https:"; hostname := "bedrock-runtime.us-east-1.amazonaws.com";
                port := ""; href := "https://bedrock-runtime.us-east-1.amazonaws.com/" |}).
    + reflexivity.
    + left. vm_compute. reflexivity.
    + reflexivity.
    + vm_compute. reflexivity.
    + reflexivity.
  - apply (cloud_hosts_never_accepted cloud_parse
             "https://contoso.openai.azure.com/openai"
             {| protocol := "https:"; hostname := "contoso.openai.azure.com";
                port := ""; href := "https://contoso.openai.azure.com/openai" |}).
    + reflexivity.
    + right. vm_compute. reflexivity.
Defined.

(** X3.  An end point the guard accepted is never classified as the
    Google provider by [detectProvider] (the canonical text, when it
    parses, having the host of the original): the hosts the guard accepts
    through the Google pattern are classified ['custom'], and the request
    goes to the path [/chat/completions] or [/messages], never to the
    [generateContent] path of the Google branch. *)
Theorem accepted_endpoint_is_never_google (URL_parse : string -> option URL)
    (apiUrl canonical : string) (url : URL) :
  validateApiUrl URL_parse apiUrl = Ok canonical ->
  URL_parse apiUrl = Some url ->
  (forall url', URL_parse canonical = Some url' -> hostname url' = hostname url) ->
  detectProvider URL_parse canonical <> "google"
  /\ (test no_flags googlePattern (normalizedHost url) = true ->
      detectProvider URL_parse canonical = "custom")
  /\ (forall model apiKey,
        exists path,
          (path = "/chat/completions" \/ path = "/messages")
          /\ requestUrlFor (detectProvider URL_parse canonical) canonical model apiKey
             = Ok (canonical +:+ path)).
Proof.
  intros Hok Hp Hsame.
  apply validateApiUrl_Ok_inv in Hok.
  destruct Hok as (u & Hu & _ & _ & _ & _ & Hsup & _).
  rewrite Hp in Hu. injection Hu as <-.
  assert (Hexcl : forall host ending,
             endsWith (hostname url) host = true ->
             endsWith (normalizedHost url) ending = true ->
             host <> EmptyString -> toLowerCase host = host ->
             dropLastBracket host = host -> stripBrackets host = host ->
             endsWith host ending = false -> endsWith ending host = false -> False).
  { intros host ending Hh He Hne Hlow Hdrop Hstrip H1 H2.
    pose proof (normalized_ending host _ Hne Hlow Hdrop Hstrip Hh) as Hn.
    fold (normalizedHost url) in Hn.
    rewrite (endsWith_exclusive _ _ H1 H2 _ Hn) in He. discriminate. }
  assert (Hnot : detectProvider URL_parse canonical <> "google").
  { unfold detectProvider.
    destruct (URL_parse canonical) as [url'|] eqn:Hp'; [|discriminate].
    rewrite (Hsame url' eq_refl).
    destruct (String.eqb (hostname url) "openrouter.ai" || _); [discriminate|].
    destruct (String.eqb (hostname url) "api.openai.com" || _); [discriminate|].
    destruct (String.eqb (hostname url) "api.anthropic.com" || _); [discriminate|].
    destruct (String.eqb (hostname url) "generativelanguage.googleapis.com" || _) eqn:E;
      [|discriminate].
    intros _. apply provider_branch_ending in E.
    pose proof (normalized_ending "generativelanguage.googleapis.com" _
                  ltac:(discriminate) eq_refl eq_refl eq_refl E) as Hn.
    fold (normalizedHost url) in Hn.
    rewrite (ending_not_supported "generativelanguage.googleapis.com" _
               eq_refl eq_refl eq_refl eq_refl eq_refl Hn) in Hsup.
    discriminate. }
  split; [exact Hnot|]. split.
  - intros Hg. apply google_ending in Hg.
    unfold detectProvider.
    destruct (URL_parse canonical) as [url'|] eqn:Hp'; [|reflexivity].
    rewrite (Hsame url' eq_refl).
    destruct (String.eqb (hostname url) "openrouter.ai" || _) eqn:E1.
    { exfalso. apply provider_branch_ending in E1.
      destruct Hg as [Hg|Hg];
        apply (Hexcl _ _ E1 Hg); try reflexivity; discriminate. }
    destruct (String.eqb (hostname url) "api.openai.com" || _) eqn:E2.
    { exfalso. apply provider_branch_ending in E2.
      destruct Hg as [Hg|Hg];
        apply (Hexcl _ _ E2 Hg); try reflexivity; discriminate. }
    destruct (String.eqb (hostname url) "api.anthropic.com" || _) eqn:E3.
    { exfalso. apply provider_branch_ending in E3.
      destruct Hg as [Hg|Hg];
        apply (Hexcl _ _ E3 Hg); try reflexivity; discriminate. }
    destruct (String.eqb (hostname url) "generativelanguage.googleapis.com" || _) eqn:E4.
    { exfalso. apply provider_branch_ending in E4.
      destruct Hg as [Hg|Hg];
        apply (Hexcl _ _ E4 Hg); try reflexivity; discriminate. }
    reflexivity.
  - intros model apiKey.
    pose proof (detectProvider_range URL_parse canonical) as Hr.
    simpl in Hr. destruct Hr as [Hr|[Hr|[Hr|[Hr|[Hr|[]]]]]]; try rewrite <- Hr in *.
    + exists "/chat/completions". split; [tauto|reflexivity].
    + exists "/chat/completions". split; [tauto|reflexivity].
    + exists "/messages". split; [tauto|reflexivity].
    + contradiction.
    + exists "/chat/completions". split; [tauto|reflexivity].
Qed.

Lemma accepted_endpoint_is_never_google_witness :
  detectProvider cloud_parse "https://aiplatform.googleapis.com/v1" = "custom"
  /\ detectProvider cloud_parse "https://api.anthropic.com/v1" <> "google".
Proof.
  split.
  - apply (accepted_endpoint_is_never_google cloud_parse
             "https://aiplatform.googleapis.com/v1" "https://aiplatform.googleapis.com/v1"
             {| protocol := "https:"; hostname := "aiplatform.googleapis.com";
                port := ""; href := "https://aiplatform.googleapis.com/v1" |}).
    + vm_compute. reflexivity.
    + reflexivity.
    + intros url' H. vm_compute in H. injection H as <-. reflexivity.
    + vm_compute. reflexivity.
  - apply (accepted_endpoint_is_never_google cloud_parse
             "https://api.anthropic.com/v1/" "https://api.anthropic.com/v1"
             {| protocol := "https:"; hostname := "api.anthropic.com";
                port := ""; href := "https://api.anthropic.com/v1/" |}).
    + vm_compute. reflexivity.
    + reflexivity.
    + intros url' H. vm_compute in H. injection H as <-. reflexivity.
Defined.

End GuardMore.
(** * The model name check *)

Module ModelNameMore.
Import Text Regex Guard Chat Shape JsonFacts RegexFacts SuffixFacts.

(** An anchored run of one class matches exactly the non-empty texts
    made of the class. *)
Lemma greedy_to_end (a : atom) (s : string) :
  forall prev c,
    all_chars (atom_matches false a) s = true ->
    exists m, greedy no_flags a (run no_flags Eol finish) prev s c = Some m.
Proof.
  set (k := run no_flags Eol finish).
  induction s as [|x t IH]; intros prev c H.
  - simpl. eexists. reflexivity.
  - simpl in H. apply andb_true_iff in H. destruct H as [Hx Ht].
    destruct (IH (Some x) c Ht) as [m Hm].
    change (greedy no_flags a k prev (String x t) c)
      with (if atom_matches false a x
            then match greedy no_flags a k (Some x) t c with
                 | Some r => Some r
                 | None => k prev (String x t) c
                 end
            else k prev (String x t) c).
    rewrite Hx, Hm. eauto.
Qed.

Lemma greedy_then_end (a : atom) (s : string) :
  forall prev c m,
    greedy no_flags a (run no_flags Eol finish) prev s c = Some m ->
    all_chars (atom_matches false a) s = true.
Proof.
  set (k := run no_flags Eol finish).
  induction s as [|x t IH]; intros prev c m H; [reflexivity|].
  change (greedy no_flags a k prev (String x t) c)
    with (if atom_matches false a x
          then match greedy no_flags a k (Some x) t c with
               | Some r => Some r
               | None => k prev (String x t) c
               end
          else k prev (String x t) c) in H.
  simpl. destruct (atom_matches false a x); [|discriminate].
  destruct (greedy no_flags a k (Some x) t c) as [r|] eqn:E; [|discriminate].
  simpl. eapply IH. exact E.
Qed.

Lemma anchored_class (a : atom) (s : string) :
  test no_flags (cat [Bol; Plus a; Eol]) s = true <->
  s <> EmptyString /\ all_chars (atom_matches false a) s = true.
Proof.
  split.
  - intros H. apply test_found in H.
    destruct H as (p & skipped & from & m & H & Hs & Hpos).
    change (cat [Bol; Plus a; Eol]) with (Seq Bol (Seq (Plus a) Eol)) in H.
    change (run no_flags (Seq Bol ?r) finish) with (run no_flags Bol (run no_flags r finish)) in H.
    apply (run_bol no_flags _ p from [] m eq_refl) in H. destruct H as [-> H].
    destruct Hpos as [[_ ->]|[x Hx]]; [|discriminate].
    simpl run in H. apply one_called in H. destruct H as (x & t & -> & Hx & H).
    split; [discriminate|]. simpl. simpl in Hx. rewrite Hx. simpl.
    eapply greedy_then_end. exact H.
  - intros [Hne H]. destruct s as [|x t]; [contradiction|].
    simpl in H. apply andb_true_iff in H. destruct H as [Hx Ht].
    destruct (greedy_to_end a t (Some x) [] Ht) as [m Hm].
    apply (test_at_start no_flags _ _ m). simpl. rewrite Hx. exact Hm.
Qed.

Lemma modelChar_class (c : ascii) :
  atom_matches false
    (ASet [IRange "a" "z"; IRange "A" "Z"; IRange "0" "9"; IChar "."; IChar "-"]) c
  = modelChar c.
Proof.
  destruct c as [[] [] [] [] [] [] [] []]; reflexivity.
Qed.

Lemma all_chars_ext (p q : ascii -> bool) (s : string) :
  (forall c, p c = q c) -> all_chars p s = all_chars q s.
Proof. intros H. induction s as [|x t IH]; [reflexivity|]. simpl. rewrite H, IH. reflexivity. Qed.

(** A drive path begins with a letter, a colon and a backslash. *)
Lemma drive_path_shape (s : string) :
  test no_flags drivePathPattern s = true ->
  exists x after, s = String x (String ":" after).
Proof.
  intros H. apply test_found in H.
  destruct H as (p & skipped & from & m & H & Hs & Hpos).
  unfold drivePathPattern in H.
  match type of H with
  | run _ (cat [Bol; ?a; ?l]) _ _ _ _ = _ =>
      change (run no_flags Bol (run no_flags a (run no_flags l finish)) p from [] = Some m) in H
  end.
  apply (run_bol no_flags _ p from [] m eq_refl) in H. destruct H as [-> H].
  destruct Hpos as [[_ ->]|[x Hx]]; [|discriminate].
  simpl run at 1 in H. apply one_called in H. destruct H as (x & t & -> & _ & H).
  apply (one_char no_flags ":" _ _ _ _ _ eq_refl) in H. destruct H as (after & -> & _).
  exists x, after. reflexivity.
Qed.

Lemma trim_empty_of_empty : trim EmptyString = EmptyString.
Proof. reflexivity. Qed.

(** X4.  With its default options [validateModelName] accepts a string
    exactly when its trimmed form is not empty, has at most 100
    characters, has no two dots in a row and is made of letters, digits,
    dots and hyphens only.  The two absolute-path tests never decide:
    the character class already excludes a slash and a colon. *)
Theorem validateModelName_accepts_iff (model : string) :
  validateModelName (Some model) = Ok tt <->
  trim model <> EmptyString
  /\ (String.length (trim model) <= 100)%nat
  /\ includes (trim model) ".." = false
  /\ all_chars modelChar (trim model) = true.
Proof.
  unfold validateModelName. split.
  - destruct (String.eqb model "") eqn:Em; [discriminate|].
    destruct (String.length (trim model) =? 0)%nat eqn:E0; [discriminate|].
    destruct (100 <? String.length (trim model))%nat eqn:E100; [discriminate|].
    destruct (includes (trim model) "..") eqn:Edots; [discriminate|].
    destruct (startsWith (trim model) "/" || _) eqn:Eabs; [discriminate|].
    destruct (test no_flags modelNamePattern (trim model)) eqn:Epat; [|discriminate].
    intros _. apply anchored_class in Epat. destruct Epat as [Hne Hall].
    apply Nat.ltb_ge in E100. repeat split; try assumption.
    rewrite (all_chars_ext modelChar (atom_matches false
               (ASet [IRange "a" "z"; IRange "A" "Z"; IRange "0" "9"; IChar "."; IChar "-"])));
      [exact Hall|].
    intros c. symmetry. apply modelChar_class.
  - intros (Hne & Hlen & Hdots & Hall).
    destruct (String.eqb model "") eqn:Em.
    { apply String.eqb_eq in Em. subst model. contradiction. }
    destruct (String.length (trim model) =? 0)%nat eqn:E0.
    { apply Nat.eqb_eq in E0. destruct (trim model); [contradiction|discriminate]. }
    destruct (100 <? String.length (trim model))%nat eqn:E100.
    { apply Nat.ltb_lt in E100. lia. }
    rewrite Hdots.
    assert (Epat : test no_flags modelNamePattern (trim model) = true).
    { apply anchored_class. split; [exact Hne|].
      rewrite (all_chars_ext _ modelChar); [exact Hall|]. apply modelChar_class. }
    rewrite Epat.
    destruct (startsWith (trim model) "/" || _) eqn:Eabs; [|reflexivity].
    exfalso. apply orb_true_iff in Eabs. destruct Eabs as [H|H].
    + destruct (trim model) as [|x t]; [discriminate|].
      change (Ascii.eqb "/" x && startsWith t EmptyString = true) in H.
      apply andb_true_iff in H. destruct H as [H _].
      apply Ascii.eqb_eq in H. subst x. discriminate.
    + apply drive_path_shape in H. destruct H as (x & after & Hshape).
      rewrite Hshape in Hall. simpl in Hall. rewrite andb_false_r in Hall. discriminate.
Qed.

End ModelNameMore.
(** * The connection test *)

Module ConnectionMore.
Import Text Regex Js Guard Mutator Chat Samples TestConnection GuardFacts.

(** The exceptions of the guard. *)
Lemma validateApiUrl_messages (URL_parse : string -> option URL) (apiUrl : string) (e : exn) :
  validateApiUrl URL_parse apiUrl = Throw e ->
  In (exn_message e)
     [ "Invalid URL format"; "Only HTTPS URLs allowed"; "Host not allowed";
       "Internal IPs not allowed"; "Only standard HTTPS port 443 is allowed";
       "Unsupported AI provider host" ].
Proof.
  unfold validateApiUrl. intros H.
  destruct (URL_parse apiUrl) as [url|]; [|injection H as <-; simpl; tauto].
  repeat match type of H with
         | (if ?b then _ else _) = _ =>
             destruct b; [try (injection H as <-; simpl; tauto)|
                          try (injection H as <-; simpl; tauto)]
         end; discriminate.
Qed.

Lemma caught_fails (e : exn) :
  TestConnectionResponse.success (caught e) = false
  /\ TestConnectionResponse.message (caught e) = None
  /\ TestConnectionResponse.error (caught e) <> None.
Proof. unfold caught. destruct (_ || _); repeat split; discriminate. Qed.

Lemma refused_fails (response : HttpResponse.t) :
  TestConnectionResponse.success (refused response) = false
  /\ TestConnectionResponse.message (refused response) = None
  /\ TestConnectionResponse.error (refused response) <> None.
Proof.
  unfold refused.
  repeat match goal with
         | |- context [if ?b then _ else _] => destruct b; [repeat split; discriminate|]
         end.
  destruct (propOf _ "error") as [err|e]; [repeat split; discriminate|apply caught_fails].
Qed.

(** X5.  When the guard rejects the end point, the connection test
    reports the guard's message as its error, with [success = false],
    and the answer is the same whatever the collaborators and the
    network are: no request is made. *)
Theorem testConnection_rejected_endpoint (URL_parse : string -> option URL)
    (env : Services.t) (testConnectionDto : TestConnectionDto.t) (e : exn) :
  validateApiUrl URL_parse (TestConnectionDto.apiUrl testConnectionDto) = Throw e ->
  testConnection URL_parse env testConnectionDto
  = {| TestConnectionResponse.success := false;
       TestConnectionResponse.message := None;
       TestConnectionResponse.error := Some (VString (exn_message e)) |}.
Proof.
  intros H. unfold testConnection. rewrite H.
  apply validateApiUrl_messages in H. unfold caught.
  simpl in H. destruct H as [<-|[<-|[<-|[<-|[<-|[<-|[]]]]]]]; reflexivity.
Qed.

Lemma testConnection_rejected_endpoint_witness :
  testConnection sample_parse (sample_services "hello" nothing_found)
    {| TestConnectionDto.apiKey := "k"; TestConnectionDto.model := Some "gpt-4o";
       TestConnectionDto.apiUrl := "http://api.openai.com" |}
  = {| TestConnectionResponse.success := false;
       TestConnectionResponse.message := None;
       TestConnectionResponse.error := Some (VString "Only HTTPS URLs allowed") |}.
Proof.
  apply (testConnection_rejected_endpoint sample_parse (sample_services "hello" nothing_found)
           {| TestConnectionDto.apiKey := "k"; TestConnectionDto.model := Some "gpt-4o";
              TestConnectionDto.apiUrl := "http://api.openai.com" |}
           (BadRequestException "Only HTTPS URLs allowed")).
  vm_compute. reflexivity.
Defined.

(** X6.  The connection test reports success only for an accepted end
    point whose provider answered with an [ok] response carrying a
    non-empty reply; a success carries the fixed message and no error,
    and every other answer carries an error and no message.  A response
    that is not [ok] is never a success, whatever its body. *)
Theorem testConnection_success_sound (URL_parse : string -> option URL)
    (env : Services.t) (testConnectionDto : TestConnectionDto.t) :
  let answer := testConnection URL_parse env testConnectionDto in
  (TestConnectionResponse.success answer = true ->
     answer = connected
     /\ exists validatedUrl requestUrl response data aiMessage,
          validateApiUrl URL_parse (TestConnectionDto.apiUrl testConnectionDto)
          = Ok validatedUrl
          /\ requestUrlFor (detectProvider URL_parse validatedUrl) validatedUrl
               (TestConnectionDto.model testConnectionDto)
               (TestConnectionDto.apiKey testConnectionDto)
             = Ok requestUrl
          /\ Services.fetch env requestUrl = Ok response
          /\ HttpResponse.ok response = true
          /\ HttpResponse.json response = Ok data
          /\ replyText (detectProvider URL_parse validatedUrl) data = Ok aiMessage
          /\ ToBoolean aiMessage = true)
  /\ (TestConnectionResponse.success answer = false ->
        TestConnectionResponse.message answer = None
        /\ TestConnectionResponse.error answer <> None).
Proof.
  intros answer. subst answer. unfold testConnection.
  destruct (validateApiUrl URL_parse _) as [validatedUrl|e] eqn:Hv;
    [|split; [intros H; rewrite (proj1 (caught_fails e)) in H; discriminate
             |intros _; apply caught_fails]].
  destruct (requestUrlFor _ validatedUrl _ _) as [requestUrl|e] eqn:Hu;
    [|split; [intros H; rewrite (proj1 (caught_fails e)) in H; discriminate
             |intros _; apply caught_fails]].
  destruct (Services.fetch env requestUrl) as [response|e] eqn:Hf;
    [|split; [intros H; rewrite (proj1 (caught_fails e)) in H; discriminate
             |intros _; apply caught_fails]].
  destruct (HttpResponse.ok response) eqn:Hok; simpl negb; cbv iota;
    [|split; [intros H; rewrite (proj1 (refused_fails response)) in H; discriminate
             |intros _; apply refused_fails]].
  destruct (HttpResponse.json response) as [data|e] eqn:Hj;
    [|split; [intros H; rewrite (proj1 (caught_fails e)) in H; discriminate
             |intros _; apply caught_fails]].
  destruct (replyText _ data) as [aiMessage|e] eqn:Hr;
    [|split; [intros H; rewrite (proj1 (caught_fails e)) in H; discriminate
             |intros _; apply caught_fails]].
  destruct (ToBoolean aiMessage) eqn:Ht.
  - split; [|discriminate]. intros _. split; [reflexivity|].
    exists validatedUrl, requestUrl, response, data, aiMessage. repeat split; assumption.
  - split; [discriminate|]. intros _. split; [reflexivity|discriminate].
Qed.

Lemma testConnection_success_sound_witness :
  testConnection sample_parse (sample_services "Connection successful." nothing_found)
    {| TestConnectionDto.apiKey := "k"; TestConnectionDto.model := Some "gpt-4o";
       TestConnectionDto.apiUrl := "https://openrouter.ai/api/v1" |}
  = connected.
Proof.
  apply (proj1 (testConnection_success_sound sample_parse
                  (sample_services "Connection successful." nothing_found)
                  {| TestConnectionDto.apiKey := "k"; TestConnectionDto.model := Some "gpt-4o";
                     TestConnectionDto.apiUrl := "https://openrouter.ai/api/v1" |})).
  vm_compute. reflexivity.
Defined.

End ConnectionMore.
(** * The session map *)

Module SessionMore.
Import Text Regex Js Json Guard Extractor Validator Mutator Chat Samples MoreSamples.
Import ContextFacts ChatFacts.

(** The turn writes the map under the session key only. *)
Lemma obtainReply_frame (URL_parse : string -> option URL) (env : Services.t)
    (chatRequest : ChatRequest.t) (userId : string) (contexts : conversationContexts)
    (sessionId : string) :
  sessionId <> sessionKey chatRequest ->
  snd (obtainReply URL_parse env chatRequest userId contexts) !! sessionId
  = contexts !! sessionId.
Proof.
  intros Hne.
  assert (Hins : forall c (m : conversationContexts),
             <[sessionKey chatRequest := c]> m !! sessionId = m !! sessionId).
  { intros c m. apply lookup_insert_ne. intros E. apply Hne. symmetry. exact E. }
  unfold obtainReply.
  repeat match goal with
         | |- context [match ?x with Ok _ => _ | Throw _ => _ end] => destruct x
         | |- context [if ?b then _ else _] => destruct b
         | |- context [match ?x with VString _ => _ | _ => _ end] => destruct x
         end; simpl; rewrite ?Hins; reflexivity.
Qed.

(** X7.  A chat turn reads and writes the session map under its own
    session key only: the entry of every other session is left as it
    was, whatever the turn does. *)
Theorem chat_touches_one_session (commands : list Command.t)
    (URL_parse : string -> option URL) (env : Services.t)
    (chatRequest : ChatRequest.t) (userId : string) (contexts : conversationContexts)
    (sessionId : string) :
  sessionId <> sessionKey chatRequest ->
  snd (chat commands URL_parse env chatRequest userId contexts) !! sessionId
  = contexts !! sessionId.
Proof.
  intros Hne. pose proof (obtainReply_frame URL_parse env chatRequest userId contexts
                            sessionId Hne) as Hframe.
  unfold chat.
  destruct (obtainReply URL_parse env chatRequest userId contexts)
    as [[[aiMessage sessionContext]|e] contexts'].
  - destruct (resolveCommand commands env aiMessage sessionContext) as [response context'].
    change (<[sessionKey chatRequest := context']> contexts' !! sessionId
            = contexts !! sessionId).
    transitivity (contexts' !! sessionId); [|exact Hframe].
    apply lookup_insert_ne. intros E. apply Hne. symmetry. exact E.
  - exact Hframe.
Qed.

Lemma chat_touches_one_session_witness :
  snd (sample_chat (q "Going. [COMMAND: navigateToWorkspace] {'workspaceSlug':'w1'}")
         nothing_found "open w1" "alice" (<["s-42" := previous_context]> ∅))
    !! "s-42"
  = Some previous_context.
Proof.
  unfold sample_chat.
  rewrite (chat_touches_one_session sample_commands sample_parse _ _ _ _ "s-42").
  - apply lookup_insert_eq.
  - discriminate.
Defined.

(** X8.  The hourly cleanup keeps exactly the entries last updated no
    more than an hour (3600000 ms) before it runs, each as it was: an
    entry exactly one hour old stays, an older one is deleted. *)
Theorem cleanupOldContexts_keeps_recent (now : Z) (contexts : conversationContexts)
    (sessionId : string) (context : Context.t) :
  cleanupOldContexts now contexts !! sessionId = Some context <->
  contexts !! sessionId = Some context /\ now - 3600000 <= Context.lastUpdated context.
Proof.
  unfold cleanupOldContexts. split.
  - intros H. apply map_lookup_filter_Some in H. destruct H as [H1 H2].
    split; [exact H1|]. simpl in H2. apply negb_true_iff, Z.ltb_ge in H2. exact H2.
  - intros [H1 H2]. apply map_lookup_filter_Some. split; [exact H1|].
    simpl. apply negb_true_iff, Z.ltb_ge. exact H2.
Qed.

(** X9.  After [clearContext] the next turn of that session starts from
    a fresh context: the context it works with is what the heuristics
    read off the message alone; the other sessions keep their entries. *)
Theorem cleared_session_starts_afresh (URL_parse : string -> option URL)
    (env : Services.t) (chatRequest : ChatRequest.t) (userId : string)
    (contexts contexts' : conversationContexts) (aiMessage : string)
    (sessionContext : Context.t) :
  obtainReply URL_parse env chatRequest userId
    (clearContext (sessionKey chatRequest) contexts)
  = (Ok (aiMessage, sessionContext), contexts') ->
  sessionContext
  = extractContextFromMessage (Services.now env) (ChatRequest.message chatRequest)
      (Context.fresh (Services.now env))
  /\ contexts' !! sessionKey chatRequest = Some sessionContext
  /\ forall other, other <> sessionKey chatRequest -> contexts' !! other = contexts !! other.
Proof.
  intros H. destruct (obtainReply_context _ _ _ _ _ _ _ _ H) as [Hstored Hctx].
  assert (Hgone : clearContext (sessionKey chatRequest) contexts !! sessionKey chatRequest
                  = None) by apply lookup_delete_eq.
  rewrite Hgone in Hctx.
  split; [exact Hctx|]. split; [exact Hstored|].
  intros other Hne.
  pose proof (obtainReply_frame URL_parse env chatRequest userId
                (clearContext (sessionKey chatRequest) contexts) other Hne) as Hframe.
  rewrite H in Hframe. etransitivity; [exact Hframe|].
  apply lookup_delete_ne. intros E. apply Hne. symmetry. exact E.
Qed.

Lemma cleared_session_starts_afresh_witness :
  exists aiMessage contexts',
    obtainReply sample_parse (sample_services "Hello!" nothing_found)
      (sample_request "hi") "alice"
      (clearContext "default" (<["default" := previous_context]> ∅))
    = (Ok (aiMessage, Context.fresh 1000), contexts').
Proof.
  assert (H : exists aiMessage sessionContext contexts',
             obtainReply sample_parse (sample_services "Hello!" nothing_found)
               (sample_request "hi") "alice"
               (clearContext (sessionKey (sample_request "hi"))
                             (<["default" := previous_context]> ∅))
             = (Ok (aiMessage, sessionContext), contexts')).
  { unfold obtainReply. simpl. eexists _, _, _. reflexivity. }
  destruct H as (aiMessage & sessionContext & contexts' & H).
  exists aiMessage, contexts'.
  destruct (cleared_session_starts_afresh _ _ _ _ _ _ _ _ H) as [Hc _].
  assert (Hf : sessionContext = Context.fresh 1000) by (rewrite Hc; vm_compute; reflexivity).
  rewrite <- Hf. exact H.
Defined.

(** X10.  While the setting [ai_enabled] is anything but ['true'], a
    chat turn fails with the fixed message and leaves the session map
    untouched: no session is created and nothing else of the
    environment is consulted. *)
Theorem disabled_chat_changes_nothing (commands : list Command.t)
    (URL_parse : string -> option URL) (env : Services.t)
    (chatRequest : ChatRequest.t) (userId : string) (contexts : conversationContexts)
    (isEnabled : option string) :
  Services.settings_get env "ai_enabled" userId None = Ok isEnabled ->
  isEnabled <> Some "true" ->
  chat commands URL_parse env chatRequest userId contexts
  = ({| ChatResponse.message := "";
        ChatResponse.action := None;
        ChatResponse.success := false;
        ChatResponse.error :=
          Some "AI chat is currently disabled. Please enable it in settings." |},
     contexts).
Proof.
  intros Hget Hoff. unfold chat, obtainReply. rewrite Hget.
  rewrite bool_decide_eq_false_2 by exact Hoff. reflexivity.
Qed.

Lemma disabled_chat_changes_nothing_witness :
  chat sample_commands sample_parse disabled_services (sample_request "hi") "alice"
    (<["default" := previous_context]> ∅)
  = ({| ChatResponse.message := "";
        ChatResponse.action := None;
        ChatResponse.success := false;
        ChatResponse.error :=
          Some "AI chat is currently disabled. Please enable it in settings." |},
     <["default" := previous_context]> ∅).
Proof.
  apply (disabled_chat_changes_nothing sample_commands sample_parse disabled_services
           (sample_request "hi") "alice" _ (Some "false")).
  - reflexivity.
  - discriminate.
Defined.

End SessionMore.
(** * The resolution of a command, further *)

Module CommandMore.
Import Text Regex Js Json Guard Extractor Validator Mutator Chat Samples.
Import ValidatorFacts RegexFacts ContextFacts ChatFacts.

(** The auto-fill block writes [workspaceSlug] and [projectSlug] only,
    and only where the payload holds nothing. *)
Lemma autoFill_other_keys (commandName : string) (parameters : value)
    (sessionContext : Context.t) (k : string) :
  k <> "workspaceSlug" -> k <> "projectSlug" ->
  getProp (autoFill commandName parameters sessionContext) k = getProp parameters k.
Proof.
  intros Hw Hp. unfold autoFill.
  repeat match goal with
         | |- context [if ?b then _ else _] => destruct b
         end;
    rewrite ?getProp_setProp_ne by (intros E; symmetry in E; contradiction);
    reflexivity.
Qed.

Lemma autoFill_keeps_given (commandName : string) (parameters : value)
    (sessionContext : Context.t) (k : string) :
  ToBoolean (getProp parameters k) = true ->
  getProp (autoFill commandName parameters sessionContext) k = getProp parameters k.
Proof.
  intros Hgiven. unfold autoFill.
  set (fillWorkspace := _ && _ && negb (ToBoolean (getProp parameters "workspaceSlug")) && _).
  set (p1 := if fillWorkspace then _ else parameters).
  assert (H1 : getProp p1 k = getProp parameters k).
  { subst p1. destruct fillWorkspace eqn:Ef; [|reflexivity].
    apply getProp_setProp_ne. intros <-.
    subst fillWorkspace. rewrite Hgiven in Ef. simpl in Ef.
    rewrite andb_false_r in Ef. discriminate. }
  match goal with
  | |- context [if ?b then _ else _] => destruct b eqn:Eb
  end; [|exact H1].
  rewrite getProp_setProp_ne; [exact H1|].
  intros <-. rewrite H1, Hgiven in Eb. simpl in Eb.
  rewrite andb_false_r in Eb. discriminate.
Qed.

Lemma valid_true_iff (commands : list Command.t) (commandName : string)
    (parameters : value) :
  Validation.valid (validateCommandParameters commands commandName parameters) = true
  <-> exists command,
        findCommand commands commandName = Some command
        /\ forall p, In p (requiredParams command) -> isMissing parameters p = false.
Proof.
  destruct (findCommand commands commandName) as [command|] eqn:Hf.
  - split.
    + intros Hv. exists command. split; [reflexivity|]. intros p Hp.
      destruct (isMissing parameters p) eqn:E; [|reflexivity].
      assert (Hfalse : Validation.valid
                         (validateCommandParameters commands commandName parameters)
                       = false)
        by (apply (valid_false_iff commands commandName parameters command Hf); eauto).
      rewrite Hfalse in Hv. discriminate.
    + intros (command' & Hc & Hall). injection Hc as <-.
      destruct (Validation.valid _) eqn:E; [reflexivity|].
      apply (valid_false_iff commands commandName parameters command Hf) in E.
      destruct E as (p & Hp & Hm). rewrite (Hall p Hp) in Hm. discriminate.
  - split.
    + unfold validateCommandParameters. rewrite Hf. discriminate.
    + intros (command & Hc & _). discriminate.
Qed.

Lemma chat_action (commands : list Command.t) (URL_parse : string -> option URL)
    (env : Services.t) (chatRequest : ChatRequest.t) (userId : string)
    (contexts : conversationContexts) (a : Action.t) :
  ChatResponse.action (fst (chat commands URL_parse env chatRequest userId contexts))
  = Some a ->
  exists aiMessage sessionContext contexts',
    obtainReply URL_parse env chatRequest userId contexts
    = (Ok (aiMessage, sessionContext), contexts')
    /\ ChatResponse.action (fst (resolveCommand commands env aiMessage sessionContext))
       = Some a.
Proof.
  destruct (obtainReply URL_parse env chatRequest userId contexts)
    as [[[aiMessage sessionContext]|e] contexts'] eqn:Hreply.
  - rewrite (chat_resolves commands _ _ _ _ _ _ _ _ Hreply). simpl. intros H.
    exists aiMessage, sessionContext, contexts'. split; [reflexivity|exact H].
  - rewrite (chat_fails commands _ _ _ _ _ _ _ Hreply). simpl.
    rewrite failure_no_action. discriminate.
Qed.

(** X11.  An action is returned only for a command of the grammar whose
    payload, as parsed from the reply, had every required parameter: the
    action carries the trimmed command name of the reply, and its
    parameters are those of the payload except, at most, [workspaceSlug]
    and [projectSlug]. *)
Theorem action_only_for_valid_command (commands : list Command.t)
    (URL_parse : string -> option URL) (env : Services.t)
    (chatRequest : ChatRequest.t) (userId : string) (contexts : conversationContexts)
    (a : Action.t) :
  ChatResponse.action (fst (chat commands URL_parse env chatRequest userId contexts))
  = Some a ->
  exists aiMessage sessionContext contexts' command parametersString parameters,
    obtainReply URL_parse env chatRequest userId contexts
    = (Ok (aiMessage, sessionContext), contexts')
    /\ extractCommand aiMessage = Some (Action.name a, parametersString)
    /\ parseParameters parametersString = Some parameters
    /\ findCommand commands (Action.name a) = Some command
    /\ (forall p, In p (requiredParams command) -> isMissing parameters p = false)
    /\ (forall k, k <> "workspaceSlug" -> k <> "projectSlug" ->
                  getProp (Action.parameters a) k = getProp parameters k).
Proof.
  intros H. apply chat_action in H.
  destruct H as (aiMessage & sessionContext & contexts' & Hreply & H).
  apply resolveCommand_action in H.
  destruct H as (parametersString & parameters & aiMessage' & Hcmd & Hparse & Hvalid & Hres & _).
  apply valid_true_iff in Hvalid. destruct Hvalid as (command & Hfind & Hall).
  exists aiMessage, sessionContext, contexts', command, parametersString, parameters.
  repeat split; try assumption.
  intros k Hw Hp.
  rewrite <- (autoFill_other_keys (Action.name a) parameters sessionContext k Hw Hp).
  unfold resolveProjectSlug in Hres.
  destruct (String.eqb (Action.name a) "navigateToProject").
  - destruct (Services.validateProjectSlug env _) as [check|]; [|discriminate].
    destruct (SlugCheck.status_of check); injection Hres as <- _;
      apply getProp_setProp_ne; intros E; symmetry in E; contradiction.
  - injection Hres as <- _. reflexivity.
Qed.

Lemma action_only_for_valid_command_witness :
  exists a,
    ChatResponse.action
      (fst (sample_chat (q "Going. [COMMAND: navigateToWorkspace] {'workspaceSlug':'w1'}")
              nothing_found "open w1" "alice" ∅))
    = Some a
    /\ findCommand sample_commands (Action.name a)
       = Some {| Command.name := "navigateToWorkspace"; Command.params := ["workspaceSlug"] |}.
Proof.
  eexists. split; [vm_compute; reflexivity|].
  edestruct (action_only_for_valid_command sample_commands sample_parse
               (sample_services
                  (q "Going. [COMMAND: navigateToWorkspace] {'workspaceSlug':'w1'}")
                  nothing_found)
               (sample_request "open w1") "alice" ∅)
    as (ai & c & m & command & ps & p & _ & _ & _ & Hfind & _).
  - vm_compute. reflexivity.
  - reflexivity.
Defined.

(** X12.  For every command other than [navigateToProject] the action
    returned to the caller passes the grammar validation as it stands:
    the auto-fill only adds to a payload that was already valid. *)
Theorem returned_action_is_valid (commands : list Command.t)
    (URL_parse : string -> option URL) (env : Services.t)
    (chatRequest : ChatRequest.t) (userId : string) (contexts : conversationContexts)
    (a : Action.t) :
  ChatResponse.action (fst (chat commands URL_parse env chatRequest userId contexts))
  = Some a ->
  Action.name a <> "navigateToProject" ->
  Validation.valid
    (validateCommandParameters commands (Action.name a) (Action.parameters a))
  = true.
Proof.
  intros H Hname. apply chat_action in H.
  destruct H as (aiMessage & sessionContext & contexts' & _ & H).
  apply resolveCommand_action in H.
  destruct H as (parametersString & parameters & aiMessage' & _ & _ & Hvalid & Hres & _).
  unfold resolveProjectSlug in Hres.
  destruct (String.eqb (Action.name a) "navigateToProject") eqn:E;
    [apply String.eqb_eq in E; contradiction|].
  injection Hres as Hparams _.
  apply valid_true_iff in Hvalid. destruct Hvalid as (command & Hfind & Hall).
  apply valid_true_iff. exists command. split; [exact Hfind|].
  intros p Hp. specialize (Hall p Hp). rewrite <- Hparams.
  unfold isMissing in *. apply orb_false_iff in Hall. destruct Hall as [Hgiven Hblank].
  apply negb_false_iff in Hgiven.
  rewrite (autoFill_keeps_given _ _ _ _ Hgiven), Hgiven, Hblank. reflexivity.
Qed.

Lemma returned_action_is_valid_witness :
  exists a,
    ChatResponse.action
      (fst (sample_chat (q "Searching. [COMMAND: searchTasks] {'query':'bug'}")
              nothing_found "find bug" "bob"
              (<["default" := previous_context]> ∅)))
    = Some a
    /\ Validation.valid
         (validateCommandParameters sample_commands (Action.name a) (Action.parameters a))
       = true.
Proof.
  eexists. split; [vm_compute; reflexivity|].
  apply (returned_action_is_valid sample_commands sample_parse
           (sample_services (q "Searching. [COMMAND: searchTasks] {'query':'bug'}")
              nothing_found)
           (sample_request "find bug") "bob" (<["default" := previous_context]> ∅)).
  - vm_compute. reflexivity.
  - discriminate.
Defined.

(** X13.  A reply that names a command outside the grammar yields no
    action: the turn succeeds with the reply followed by a blank line
    and ['Unknown command: '] with the name, and the session context
    stays as it was. *)
Theorem unknown_command_is_reported (commands : list Command.t)
    (URL_parse : string -> option URL) (env : Services.t)
    (chatRequest : ChatRequest.t) (userId : string)
    (contexts contexts' : conversationContexts) (aiMessage : string)
    (sessionContext : Context.t) (commandName parametersString : string)
    (parameters : value) :
  obtainReply URL_parse env chatRequest userId contexts
  = (Ok (aiMessage, sessionContext), contexts') ->
  extractCommand aiMessage = Some (commandName, parametersString) ->
  parseParameters parametersString = Some parameters ->
  findCommand commands commandName = None ->
  chat commands URL_parse env chatRequest userId contexts
  = ({| ChatResponse.message :=
          aiMessage +:+ String (ascii_of_N 10) (String (ascii_of_N 10) EmptyString)
          +:+ ("Unknown command: " +:+ commandName);
        ChatResponse.action := None;
        ChatResponse.success := true;
        ChatResponse.error := None |},
     contexts').
Proof.
  intros Hreply Hcmd Hparse Hfind.
  rewrite (chat_resolves commands _ _ _ _ _ _ _ _ Hreply).
  unfold resolveCommand. rewrite Hcmd, Hparse.
  unfold validateCommandParameters. rewrite Hfind. simpl.
  f_equal. apply insert_id. apply (obtainReply_context _ _ _ _ _ _ _ _ Hreply).
Qed.

Lemma unknown_command_is_reported_witness :
  fst (sample_chat "Sure. [COMMAND: deleteEverything] {}" nothing_found "wipe" "alice" ∅)
  = {| ChatResponse.message :=
         "Sure. [COMMAND: deleteEverything] {}"
         +:+ String (ascii_of_N 10) (String (ascii_of_N 10) EmptyString)
         +:+ "Unknown command: deleteEverything";
       ChatResponse.action := None;
       ChatResponse.success := true;
       ChatResponse.error := None |}.
Proof.
  unfold sample_chat.
  erewrite (unknown_command_is_reported sample_commands sample_parse _ _ _ _ _
              "Sure. [COMMAND: deleteEverything] {}" _ "deleteEverything" "{}" (VObject [])).
  - reflexivity.
  - vm_compute. reflexivity.
  - vm_compute. reflexivity.
  - vm_compute. reflexivity.
  - reflexivity.
Defined.

(** X14.  The auto-fill respects the payload: a parameter the payload
    supplies (any truthy value) is never overwritten, no parameter other
    than [workspaceSlug] and [projectSlug] is written, and when the
    payload supplies a workspace other than the session's, nothing is
    filled in: the session's project is never attached to another
    workspace. *)
Theorem autoFill_respects_payload (commandName : string) (props : list (string * value))
    (sessionContext : Context.t) :
  (forall k, ToBoolean (getOwn props k) = true ->
             getProp (autoFill commandName (VObject props) sessionContext) k
             = getOwn props k)
  /\ (forall k, k <> "workspaceSlug" -> k <> "projectSlug" ->
                getProp (autoFill commandName (VObject props) sessionContext) k
                = getOwn props k)
  /\ (forall supplied,
        getOwn props "workspaceSlug" = VString supplied ->
        supplied <> EmptyString ->
        Context.workspaceSlug sessionContext <> VString supplied ->
        autoFill commandName (VObject props) sessionContext = VObject props).
Proof.
  split; [|split].
  - intros k Hk. apply (autoFill_keeps_given commandName (VObject props)). exact Hk.
  - intros k Hw Hp. apply (autoFill_other_keys commandName (VObject props)); assumption.
  - intros supplied Hs Hne Hother. unfold autoFill.
    change (getProp (VObject props) "workspaceSlug") with (getOwn props "workspaceSlug").
    rewrite Hs.
    assert (Ht : ToBoolean (VString supplied) = true).
    { simpl. destruct (String.eqb supplied "") eqn:E; [|reflexivity].
      apply String.eqb_eq in E. contradiction. }
    rewrite Ht. simpl negb. rewrite !andb_false_r. simpl andb. cbv iota.
    change (getProp (VObject props) "workspaceSlug") with (getOwn props "workspaceSlug").
    rewrite Hs.
    assert (Hneq : strictEquals (VString supplied) (Context.workspaceSlug sessionContext)
                   = false).
    { destruct (Context.workspaceSlug sessionContext) as [| | | |s| |] eqn:Ew;
        try reflexivity.
      simpl. destruct (String.eqb supplied s) eqn:E; [|reflexivity].
      apply String.eqb_eq in E. subst s. contradiction. }
    rewrite Hneq. simpl orb. rewrite !andb_false_r. reflexivity.
Qed.

End CommandMore.
(** * The context mutators, further *)

Module ContextMore.
Import Text Regex Js Json Guard Extractor Validator Mutator Chat Samples Shape.
Import ContextAnalysis ContextShape JsonFacts ContextFacts ChatFacts.

Lemma length_take (n : nat) (s : string) :
  String.length (take n s) = Nat.min n (String.length s).
Proof.
  revert s. induction n as [|n IH]; intros s; [reflexivity|].
  destruct s as [|x t]; [reflexivity|]. simpl. rewrite IH. reflexivity.
Qed.

Lemma take_whole (n : nat) (s : string) : (String.length s <= n)%nat -> take n s = s.
Proof.
  revert s. induction n as [|n IH]; intros s H.
  - destruct s; [reflexivity|simpl in H; lia].
  - destruct s as [|x t]; [reflexivity|]. simpl. rewrite IH; [reflexivity|simpl in H; lia].
Qed.

Lemma safeMessageOf_take (message : string) :
  safeMessageOf (take (N.to_nat MAX_MESSAGE_LENGTH) message) = safeMessageOf message.
Proof.
  unfold safeMessageOf. set (n := N.to_nat MAX_MESSAGE_LENGTH).
  assert (Hn : N.of_nat n = MAX_MESSAGE_LENGTH) by (subst n; apply N2Nat.id).
  rewrite length_take.
  destruct (MAX_MESSAGE_LENGTH <? N.of_nat (String.length message))%N eqn:E.
  - apply N.ltb_lt in E.
    destruct (MAX_MESSAGE_LENGTH <? N.of_nat (Nat.min n (String.length message)))%N eqn:E';
      [|reflexivity].
    apply N.ltb_lt in E'. lia.
  - pose proof (proj1 (N.ltb_ge _ _) E) as E2.
    assert (Hle : (String.length message <= n)%nat) by lia.
    rewrite Nat.min_r by exact Hle. rewrite E. apply take_whole. exact Hle.
Qed.

(** X15.  The heuristic extraction reads the first 10000 code units of
    the user message only: two messages that agree on that prefix leave
    the same context. *)
Theorem extractContext_reads_bounded_prefix (now : Z) (message : string)
    (context : Context.t) :
  (N.of_nat (String.length (safeMessageOf message)) <= MAX_MESSAGE_LENGTH)%N
  /\ extractContextFromMessage now message context
     = extractContextFromMessage now (take (N.to_nat MAX_MESSAGE_LENGTH) message) context.
Proof.
  split.
  - unfold safeMessageOf.
    destruct (MAX_MESSAGE_LENGTH <? N.of_nat (String.length message))%N eqn:E.
    + rewrite length_take. lia.
    + apply N.ltb_ge in E. exact E.
  - unfold extractContextFromMessage. rewrite safeMessageOf_take. reflexivity.
Qed.

Lemma workspace_loop_keeps_list (safeMessage lowerMessage : string)
    (patterns : list regex) :
  forall acc,
    Context.currentWorkSpaceProjectSlug
      (fst (fold_left (workspaceStep safeMessage lowerMessage) patterns acc))
    = Context.currentWorkSpaceProjectSlug (fst acc)
    /\ Context.lastUpdated
         (fst (fold_left (workspaceStep safeMessage lowerMessage) patterns acc))
       = Context.lastUpdated (fst acc).
Proof.
  induction patterns as [|p rest IH]; intros acc; simpl; [split; reflexivity|].
  destruct (IH (workspaceStep safeMessage lowerMessage acc p)) as [H1 H2].
  rewrite H1, H2. unfold workspaceStep. destruct (firstWorkspaceName _); [|split; reflexivity].
  simpl. destruct (negb _); split; reflexivity.
Qed.

Lemma project_loop_keeps_list (safeMessage : string) (patterns : list regex) :
  forall acc,
    Context.currentWorkSpaceProjectSlug
      (fst (fold_left (projectStep safeMessage) patterns acc))
    = Context.currentWorkSpaceProjectSlug (fst acc)
    /\ Context.lastUpdated (fst (fold_left (projectStep safeMessage) patterns acc))
       = Context.lastUpdated (fst acc).
Proof.
  induction patterns as [|p rest IH]; intros acc; simpl; [split; reflexivity|].
  destruct (IH (projectStep safeMessage acc p)) as [H1 H2]. rewrite H1, H2.
  unfold projectStep. destruct (firstProjectName _); split; reflexivity.
Qed.

(** X16.  The heuristic extraction writes the workspace name and the
    project fields only: the workspace slug and the list of project
    slugs stay as they were (so a workspace named in the message changes
    the name the session shows, not the slug the auto-fill uses), and the
    time stamp is either kept or set to the current time. *)
Theorem extractContext_keeps_slug (now : Z) (message : string) (context : Context.t) :
  let context' := extractContextFromMessage now message context in
  Context.workspaceSlug context' = Context.workspaceSlug context
  /\ Context.currentWorkSpaceProjectSlug context'
     = Context.currentWorkSpaceProjectSlug context
  /\ (Context.lastUpdated context' = Context.lastUpdated context
      \/ Context.lastUpdated context' = now).
Proof.
  intros context'. split; [apply extract_keeps_workspaceSlug|].
  subst context'. unfold extractContextFromMessage. cbv zeta.
  set (safe := safeMessageOf message).
  set (afterWorkspace := fold_left (workspaceStep safe (toLowerCase safe))
                           workspacePatterns (context, false)).
  set (afterProject := fold_left (projectStep safe) projectPatterns afterWorkspace).
  destruct (project_loop_keeps_list safe projectPatterns afterWorkspace) as [Hl Ht].
  destruct (workspace_loop_keeps_list safe (toLowerCase safe) workspacePatterns
              (context, false)) as [Hl' Ht'].
  fold afterWorkspace in Hl', Ht'. fold afterProject in Hl, Ht.
  simpl in Hl', Ht'. rewrite Hl' in Hl. rewrite Ht' in Ht.
  destruct (snd afterProject); simpl.
  - split; [exact Hl|right; reflexivity].
  - split; [exact Hl|left; exact Ht].
Qed.

Lemma firstProjectName_passes (matches : list captures) (projectName : string) :
  firstProjectName matches = Some projectName ->
  looksLikeWorkspace projectName = false /\ isSkipped projectName = false.
Proof.
  induction matches as [|m more IH]; [discriminate|]. simpl.
  destruct (String.eqb (group 1 m) ""); [exact IH|].
  destruct (looksLikeWorkspace (trim (group 1 m))) eqn:Ew; [exact IH|].
  destruct (isSkipped (trim (group 1 m))) eqn:Es; [exact IH|].
  intros H. injection H as <-. split; assumption.
Qed.

Lemma workspace_loop_origin (safeMessage lowerMessage : string) (before : Context.t)
    (patterns : list regex) :
  forall acc,
    projectNameOrigin before (fst acc) ->
    projectNameOrigin before
      (fst (fold_left (workspaceStep safeMessage lowerMessage) patterns acc)).
Proof.
  induction patterns as [|p rest IH]; intros acc H; simpl; [exact H|].
  apply IH. unfold workspaceStep. destruct (firstWorkspaceName _); [|exact H].
  simpl. destruct (negb _); [right; left; reflexivity|exact H].
Qed.

Lemma project_loop_origin (safeMessage : string) (before : Context.t)
    (patterns : list regex) :
  forall acc,
    projectNameOrigin before (fst acc) ->
    projectNameOrigin before (fst (fold_left (projectStep safeMessage) patterns acc)).
Proof.
  induction patterns as [|p rest IH]; intros acc H; simpl; [exact H|].
  apply IH. unfold projectStep.
  destruct (firstProjectName (matchAll flag_i p safeMessage)) as [name|] eqn:Hm; [|exact H].
  apply firstProjectName_passes in Hm. destruct Hm as [Hw Hs].
  right. right. exists name. simpl. repeat split; assumption.
Qed.

(** X17.  A project name that the heuristic extraction puts into the
    context contains none of the filler words as a substring, in any
    letter case, and not the word workspace; its slug is stored with it.
    The filler words include [a], [an], [or], [no] and [ok]: a name with
    the letter a in it is never picked up. *)
Theorem extracted_project_name_has_no_filler (now : Z) (message : string)
    (context : Context.t) (projectName : string) :
  Context.projectName (extractContextFromMessage now message context)
  = VString projectName ->
  Context.projectName context <> VString projectName ->
  (forall word, In word skipWords -> includes (toLowerCase projectName) word = false)
  /\ includes (toLowerCase projectName) "a" = false
  /\ includes (toLowerCase projectName) "workspace" = false
  /\ Context.projectSlug (extractContextFromMessage now message context)
     = VString (slugOf projectName).
Proof.
  intros Hname Hnew.
  assert (Horigin : projectNameOrigin context (extractContextFromMessage now message context)).
  { unfold extractContextFromMessage. cbv zeta.
    set (safe := safeMessageOf message).
    assert (H : projectNameOrigin context
                  (fst (fold_left (projectStep safe) projectPatterns
                          (fold_left (workspaceStep safe (toLowerCase safe))
                             workspacePatterns (context, false))))).
    { apply project_loop_origin, workspace_loop_origin. left. reflexivity. }
    destruct (snd _); exact H. }
  destruct Horigin as [H|[H|(name & Hn & Hslug & Hw & Hs)]].
  - rewrite H in Hname. contradiction.
  - rewrite H in Hname. discriminate.
  - rewrite Hn in Hname. injection Hname as ->.
    unfold isSkipped in Hs. apply orb_false_iff in Hs. destruct Hs as [Hs _].
    apply orb_false_iff in Hs. destruct Hs as [Hs _].
    assert (Hall : forall word, In word skipWords ->
                                includes (toLowerCase projectName) word = false).
    { intros word Hin. destruct (includes (toLowerCase projectName) word) eqn:E; [|reflexivity].
      assert (Hex : existsb (fun w => includes (toLowerCase projectName) w) skipWords = true)
        by (apply existsb_exists; exists word; split; assumption).
      rewrite Hex in Hs. discriminate. }
    split; [exact Hall|]. split.
    + apply Hall. unfold skipWords. simpl. tauto.
    + split; [|exact Hslug].
      unfold looksLikeWorkspace in Hw. apply orb_false_iff in Hw. apply Hw.
Qed.

Lemma extracted_project_name_has_no_filler_witness :
  Context.projectName (extractContextFromMessage 5 "Go with HIMS project" previous_context)
  = VString "HIMS"
  /\ Context.projectSlug (extractContextFromMessage 5 "Go with HIMS project" previous_context)
     = VString (slugOf "HIMS").
Proof.
  split; [vm_compute; reflexivity|].
  apply (extracted_project_name_has_no_filler 5 "Go with HIMS project" previous_context "HIMS").
  - vm_compute. reflexivity.
  - discriminate.
Defined.

(** The slug conversion. *)
Lemma keepSlugChars_alphabet (s : string) : all_chars slugChar (keepSlugChars s) = true.
Proof.
  induction s as [|x t IH]; [reflexivity|]. simpl.
  destruct (in_range "a" "z" x || in_range "0" "9" x || Ascii.eqb x "-") eqn:E; [|exact IH].
  change (slugChar x && all_chars slugChar (keepSlugChars t) = true).
  rewrite IH. unfold slugChar. rewrite E. reflexivity.
Qed.

Lemma slugChar_lower (c : ascii) : slugChar c = true -> lower_char c = c.
Proof. destruct c as [[] [] [] [] [] [] [] []]; try discriminate; reflexivity. Qed.

Lemma slugChar_not_space (c : ascii) : slugChar c = true -> is_space c = false.
Proof. destruct c as [[] [] [] [] [] [] [] []]; try discriminate; reflexivity. Qed.

Lemma slug_fixed (s : string) :
  all_chars slugChar s = true ->
  toLowerCase s = s
  /\ (forall inRun, hyphenate inRun s = s)
  /\ keepSlugChars s = s.
Proof.
  induction s as [|x t IH]; intros H; [repeat split; reflexivity|].
  simpl in H. apply andb_true_iff in H. destruct H as [Hx Ht].
  destruct (IH Ht) as (H1 & H2 & H3). repeat split.
  - simpl. rewrite (slugChar_lower x Hx), H1. reflexivity.
  - intros inRun. simpl. rewrite (slugChar_not_space x Hx), H2. reflexivity.
  - simpl. unfold slugChar in Hx. rewrite Hx, H3. reflexivity.
Qed.

(** X18.  A [createWorkspace] command whose name is a non-empty string
    always updates the context: the workspace slug it stores is the
    conversion of the name, made of lower-case letters, digits and
    hyphens only and unchanged by a second conversion; the workspace
    name is the name, the project fields are cleared and the time stamp
    is the current time. *)
Theorem createWorkspace_stores_a_slug (getIdBySlug : value -> Res (option string))
    (getAllSlugsByWorkspaceId : string -> Res (list string)) (now : Z)
    (parameters : value) (context : Context.t) (name : string) :
  getProp parameters "name" = VString name ->
  name <> EmptyString ->
  exists context',
    updateContextFromCommand getIdBySlug getAllSlugsByWorkspaceId now
      "createWorkspace" parameters context = Ok context'
    /\ Context.workspaceSlug context' = VString (slugOf name)
    /\ all_chars slugChar (slugOf name) = true
    /\ slugOf (slugOf name) = slugOf name
    /\ Context.workspaceName context' = VString name
    /\ projectCleared context'
    /\ Context.lastUpdated context' = now
    /\ Context.currentWorkSpaceProjectSlug context'
       = Context.currentWorkSpaceProjectSlug context.
Proof.
  intros Hname Hne.
  assert (Htruthy : ToBoolean (getProp parameters "name") = true).
  { rewrite Hname. simpl. destruct (String.eqb name "") eqn:E; [|reflexivity].
    apply String.eqb_eq in E. contradiction. }
  unfold updateContextFromCommand. simpl.
  unfold onCreateWorkspace. rewrite Htruthy, Hname. simpl ToString.
  eexists. split; [reflexivity|]. simpl.
  assert (Halpha : all_chars slugChar (slugOf name) = true) by apply keepSlugChars_alphabet.
  repeat split; try reflexivity; try exact Halpha.
  destruct (slug_fixed _ Halpha) as (H1 & H2 & H3).
  unfold slugOf at 1. rewrite H1, H2, H3. reflexivity.
Qed.

Lemma createWorkspace_stores_a_slug_witness :
  exists context',
    updateContextFromCommand (fun _ => Ok None) (fun _ => Ok []) 7
      "createWorkspace" (VObject [("name", VString "My  Test Space!")]) previous_context
    = Ok context'
    /\ Context.workspaceSlug context' = VString "my-test-space".
Proof.
  destruct (createWorkspace_stores_a_slug (fun _ => Ok None) (fun _ => Ok []) 7
              (VObject [("name", VString "My  Test Space!")]) previous_context
              "My  Test Space!" eq_refl ltac:(discriminate))
    as (context' & Hupd & Hslug & _).
  exists context'. split; [exact Hupd|]. rewrite Hslug. vm_compute. reflexivity.
Defined.

End ContextMore.
(** * The turn as a whole, and the prompt examples *)

Module TurnMore.
Import Text Regex Js Json Guard Extractor Validator Mutator Chat Samples MoreSamples Prompt.
Import ContextAnalysis ValidatorFacts RegexFacts ContextFacts ChatFacts CommandMore.



(** X20.  When the slug check of [navigateToProject] answers not-found
    and the payload names no project, the session forgets its project:
    the context stored for the session has no project slug and a falsy
    project name, and its time stamp is the current time. *)
Theorem not_found_project_is_forgotten (commands : list Command.t)
    (URL_parse : string -> option URL) (env : Services.t)
    (chatRequest : ChatRequest.t) (userId : string)
    (contexts contexts' : conversationContexts) (aiMessage : string)
    (sessionContext : Context.t) (parametersString : string) (parameters : value)
    (check : SlugCheck.t) :
  obtainReply URL_parse env chatRequest userId contexts
  = (Ok (aiMessage, sessionContext), contexts') ->
  extractCommand aiMessage = Some ("navigateToProject", parametersString) ->
  parseParameters parametersString = Some parameters ->
  Validation.valid (validateCommandParameters commands "navigateToProject" parameters)
  = true ->
  Services.validateProjectSlug env
    (getProp (autoFill "navigateToProject" parameters sessionContext) "projectSlug")
  = Ok check ->
  SlugCheck.status_of check = SlugCheck.not_found ->
  ToBoolean (getProp parameters "name") = false ->
  exists context',
    snd (chat commands URL_parse env chatRequest userId contexts)
      !! sessionKey chatRequest = Some context'
    /\ Context.projectSlug context' = VUndefined
    /\ ToBoolean (Context.projectName context') = false
    /\ Context.lastUpdated context' = Services.now env.
Proof.
  intros Hreply Hcmd Hparse Hvalid Hcheck Hstatus Hname.
  rewrite (chat_resolves commands _ _ _ _ _ _ _ _ Hreply). cbn [snd].
  eexists. split; [apply lookup_insert_eq|].
  unfold resolveCommand. rewrite Hcmd, Hparse, Hvalid. simpl negb. cbv iota.
  unfold resolveProjectSlug. simpl String.eqb. cbv iota. rewrite Hcheck, Hstatus.
  set (filled := autoFill "navigateToProject" parameters sessionContext).
  set (resolved := setProp filled "projectSlug" (VString "")).
  assert (Hn : getProp resolved "name" = getProp parameters "name").
  { subst resolved. rewrite getProp_setProp_ne by discriminate.
    subst filled. apply autoFill_other_keys; discriminate. }
  assert (Hp : ToBoolean (getProp resolved "projectSlug") = false).
  { subst resolved. destruct filled; try reflexivity. simpl.
    rewrite getOwn_setOwn_eq. reflexivity. }
  unfold updateContextFromCommand. simpl String.eqb. cbv iota. simpl orb. cbv iota.
  unfold onProjectCommand. cbv zeta. simpl String.eqb. cbv iota.
  rewrite Hp, Hn, Hname. unfold or_else. rewrite Hp.
  destruct (ToBoolean (getProp resolved "workspaceSlug")); simpl;
    repeat split; try reflexivity; exact Hname.
Qed.

Lemma not_found_project_is_forgotten_witness :
  exists context',
    snd (sample_chat
           (q "Going. [COMMAND: navigateToProject] {'workspaceSlug':'w0','projectSlug':'nope'}")
           nothing_found "open nope" "alice" (<["default" := previous_context]> ∅))
      !! "default" = Some context'
    /\ Context.projectSlug context' = VUndefined.
Proof.
  assert (H : exists aiMessage sessionContext contexts',
             obtainReply sample_parse
               (sample_services
                  (q "Going. [COMMAND: navigateToProject] {'workspaceSlug':'w0','projectSlug':'nope'}")
                  nothing_found)
               (sample_request "open nope") "alice" (<["default" := previous_context]> ∅)
             = (Ok (aiMessage, sessionContext), contexts')).
  { unfold obtainReply. simpl. eexists _, _, _. reflexivity. }
  destruct H as (aiMessage & sessionContext & contexts' & H).
  pose proof H as H'. vm_compute in H'. injection H' as <- <- _.
  edestruct (not_found_project_is_forgotten sample_commands sample_parse _ _ _ _ _ _ _
               (q "{'workspaceSlug':'w0','projectSlug':'nope'}")
               (VObject [("workspaceSlug", VString "w0"); ("projectSlug", VString "nope")])
               nothing_found H)
    as (context' & Hstored & Hslug & _).
  - vm_compute. reflexivity.
  - vm_compute. reflexivity.
  - vm_compute. reflexivity.
  - reflexivity.
  - reflexivity.
  - reflexivity.
  - exists context'. split; [exact Hstored|exact Hslug].
Defined.

(** The example object of the prompt holds, under every cleaned
    parameter name, one of the two example strings. *)
Lemma dropFirstQuestion_plain (param : string) :
  includes param "?" = false -> dropFirstQuestion param = param.
Proof.
  induction param as [|x t IH]; [reflexivity|].
  change (includes (String x t) "?")
    with (Ascii.eqb "?" x && startsWith t EmptyString || includes t "?").
  intros H. apply orb_false_iff in H. destruct H as [Hx Ht].
  assert (Hs : startsWith t EmptyString = true) by (destruct t; reflexivity).
  rewrite Hs, andb_true_r in Hx. simpl. rewrite Ascii.eqb_sym, Hx, (IH Ht). reflexivity.
Qed.

Lemma addExample_object (obj : value) (param : string) :
  (exists props, obj = VObject props) -> exists props, addExample obj param = VObject props.
Proof. intros [props ->]. unfold addExample. simpl. eauto. Qed.

Lemma examples_added (params : list string) (k : string) :
  forall obj,
    (exists props, obj = VObject props) ->
    In k (map dropFirstQuestion params) \/ isExample (getProp obj k) ->
    isExample (getProp (fold_left addExample params obj) k).
Proof.
  induction params as [|param rest IH]; intros obj Hobj H; simpl.
  - destruct H as [[]|H]. exact H.
  - apply IH; [apply addExample_object; exact Hobj|].
    destruct Hobj as [props ->]. unfold addExample.
    destruct (String.eqb (dropFirstQuestion param) k) eqn:E.
    + apply String.eqb_eq in E. right. rewrite <- E. simpl. rewrite getOwn_setOwn_eq.
      unfold isExample. destruct (includes _ "Slug"); tauto.
    + assert (Hne : dropFirstQuestion param <> k).
      { intros Heq. rewrite Heq, String.eqb_refl in E. discriminate. }
      destruct H as [[H|H]|H].
      * contradiction.
      * left. exact H.
      * right. rewrite getProp_setProp_ne by exact Hne. exact H.
Qed.

(** X21.  The example payload that the system prompt shows for a
    command passes the validation of that command, provided no required
    parameter name contains a question mark: every required parameter is
    present in it with the text ['slug'] or ['value']. *)
Theorem prompt_example_is_valid (commands : list Command.t) (command : Command.t) :
  findCommand commands (Command.name command) = Some command ->
  (forall p, In p (requiredParams command) -> includes p "?" = false) ->
  Validation.valid
    (validateCommandParameters commands (Command.name command) (paramObj command))
  = true
  /\ forall p, In p (requiredParams command) ->
               getProp (paramObj command) p = VString "slug"
               \/ getProp (paramObj command) p = VString "value".
Proof.
  intros Hfind Hplain.
  assert (Hex : forall p, In p (requiredParams command) ->
                          isExample (getProp (paramObj command) p)).
  { intros p Hp. unfold paramObj. apply examples_added; [eauto|]. left.
    apply in_map_iff. exists p. split; [apply dropFirstQuestion_plain, Hplain, Hp|].
    unfold requiredParams in Hp. apply filter_In in Hp. apply Hp. }
  split; [|exact Hex].
  apply valid_true_iff. exists command. split; [exact Hfind|].
  intros p Hp. unfold isMissing. destruct (Hex p Hp) as [-> | ->]; reflexivity.
Qed.

Lemma prompt_example_is_valid_witness :
  Validation.valid
    (validateCommandParameters sample_commands "createTask"
       (VObject [("workspaceSlug", VString "slug"); ("projectSlug", VString "slug");
                 ("taskTitle", VString "value"); ("description", VString "value")]))
  = true.
Proof.
  apply (prompt_example_is_valid sample_commands
           {| Command.name := "createTask";
              Command.params := ["workspaceSlug"; "projectSlug"; "taskTitle"; "description?"] |}).
  - reflexivity.
  - intros p Hp. vm_compute in Hp.
    destruct Hp as [<-|[<-|[<-|[]]]]; reflexivity.
Defined.

(** X22.  The payload of a command extracted from a reply always begins
    with an opening brace, so whenever it parses (as it stands or after
    the repair) the parameters are a JSON object, never an array, a
    string, a number, a boolean or null. *)
Theorem command_payload_is_object (aiMessage commandName parametersString : string) :
  extractCommand aiMessage = Some (commandName, parametersString) ->
  (exists text, parametersString = String "{" text)
  /\ forall parameters,
       parseParameters parametersString = Some parameters ->
       exists props, parameters = VObject props.
Proof.
  intros H. split.
  - eapply extractCommand_brace. exact H.
  - intros parameters Hparse. eapply parameters_are_object; eassumption.
Qed.

Lemma command_payload_is_object_witness :
  exists props,
    parseParameters (q "{'workspaceSlug':'w1'") = Some (VObject props).
Proof.
  destruct (command_payload_is_object
              (q "Going. [COMMAND: navigateToWorkspace] {'workspaceSlug':'w1'")
              "navigateToWorkspace" (q "{'workspaceSlug':'w1'"))
    as [_ Hobj].
  - vm_compute. reflexivity.
  - destruct (Hobj (VObject [("workspaceSlug", VString "w1")])) as [props Hp].
    + vm_compute. reflexivity.
    + exists props. rewrite <- Hp. vm_compute. reflexivity.
Defined.

End TurnMore.
(** * How the heuristics, the cleanup and the lookups combine *)

Module CombinedMore.
Import Text Regex Js Json Guard Extractor Validator Mutator Chat Samples MoreSamples.
Import ContextAnalysis ValidatorFacts ContextFacts ChatFacts CommandMore SessionMore.

Lemma workspace_loop_idle (safeMessage lowerMessage : string) (patterns : list regex) :
  (forall p, In p patterns -> firstWorkspaceName (matchAll flag_i p safeMessage) = None) ->
  forall acc, fold_left (workspaceStep safeMessage lowerMessage) patterns acc = acc.
Proof.
  induction patterns as [|p rest IH]; intros Hnone acc; [reflexivity|]. simpl.
  unfold workspaceStep at 2. rewrite (Hnone p) by (left; reflexivity).
  apply IH. intros p' Hp'. apply Hnone. right. exact Hp'.
Qed.

Lemma project_loop_idle (safeMessage : string) (patterns : list regex) :
  (forall p, In p patterns -> firstProjectName (matchAll flag_i p safeMessage) = None) ->
  forall acc, fold_left (projectStep safeMessage) patterns acc = acc.
Proof.
  induction patterns as [|p rest IH]; intros Hnone acc; [reflexivity|]. simpl.
  unfold projectStep at 2. rewrite (Hnone p) by (left; reflexivity).
  apply IH. intros p' Hp'. apply Hnone. right. exact Hp'.
Qed.

(** X23.  Of the workspace patterns that match the message, the last one
    in the list decides: the workspace name left in the context is the
    one read by the last matching pattern, also when an earlier pattern
    read another name. *)
Theorem last_workspace_pattern_decides (now : Z) (message : string) (context : Context.t)
    (earlier later : list regex) (pattern : regex) (workspaceName : string) :
  workspacePatterns = earlier ++ pattern :: later ->
  firstWorkspaceName (matchAll flag_i pattern (safeMessageOf message)) = Some workspaceName ->
  (forall p, In p later ->
             firstWorkspaceName (matchAll flag_i p (safeMessageOf message)) = None) ->
  Context.workspaceName (extractContextFromMessage now message context)
  = VString workspaceName.
Proof.
  intros Hsplit Hmatch Hlater. unfold extractContextFromMessage. cbv zeta.
  set (safe := safeMessageOf message) in *.
  set (afterWorkspace := fold_left (workspaceStep safe (toLowerCase safe))
                           workspacePatterns (context, false)).
  assert (Hw : Context.workspaceName (fst afterWorkspace) = VString workspaceName).
  { subst afterWorkspace. rewrite Hsplit, fold_left_app. simpl.
    rewrite (workspace_loop_idle safe (toLowerCase safe) later Hlater).
    unfold workspaceStep. rewrite Hmatch. simpl.
    destruct (negb (includes (toLowerCase safe) "project")); reflexivity. }
  destruct (project_loop_keeps_workspace safe projectPatterns afterWorkspace) as [Hname _].
  cbv zeta in Hname. rewrite Hw in Hname.
  destruct (snd _); exact Hname.
Qed.

Lemma last_workspace_pattern_decides_witness :
  firstWorkspaceName
    (matchAll flag_i (nth 0 workspacePatterns Eps) (q "use workspace 'beta'"))
  = Some "beta"
  /\ Context.workspaceName
       (extractContextFromMessage 5 (q "use workspace 'beta'") previous_context)
     = VString "use".
Proof.
  split; [vm_compute; reflexivity|].
  apply (last_workspace_pattern_decides 5 (q "use workspace 'beta'") previous_context
           (firstn 5 workspacePatterns) (skipn 6 workspacePatterns)
           (nth 5 workspacePatterns Eps) "use").
  - reflexivity.
  - vm_compute. reflexivity.
  - intros p Hp. simpl in Hp. destruct Hp as [<-|[]]. vm_compute. reflexivity.
Defined.

(** X24.  A turn whose user message tells the heuristics nothing and
    whose reply carries no command leaves the session context exactly as
    it was, time stamp included; so a cleanup that runs more than an hour
    after the last change of the context deletes the session although it
    has just been used. *)
Theorem quiet_turn_does_not_refresh (commands : list Command.t)
    (URL_parse : string -> option URL) (env : Services.t)
    (chatRequest : ChatRequest.t) (userId : string)
    (contexts contexts' : conversationContexts) (aiMessage : string)
    (before sessionContext : Context.t) (later : Z) :
  contexts !! sessionKey chatRequest = Some before ->
  obtainReply URL_parse env chatRequest userId contexts
  = (Ok (aiMessage, sessionContext), contexts') ->
  (forall p, In p workspacePatterns ->
     firstWorkspaceName
       (matchAll flag_i p (safeMessageOf (ChatRequest.message chatRequest))) = None) ->
  (forall p, In p projectPatterns ->
     firstProjectName
       (matchAll flag_i p (safeMessageOf (ChatRequest.message chatRequest))) = None) ->
  extractCommand aiMessage = None ->
  Context.lastUpdated before < later - 3600000 ->
  let after := snd (chat commands URL_parse env chatRequest userId contexts) in
  after !! sessionKey chatRequest = Some before
  /\ cleanupOldContexts later after !! sessionKey chatRequest = None.
Proof.
  intros Hbefore Hreply Hw Hp Hcmd Hold after.
  destruct (obtainReply_context _ _ _ _ _ _ _ _ Hreply) as [_ Hctx].
  rewrite Hbefore in Hctx. simpl in Hctx.
  assert (Hsame : sessionContext = before).
  { rewrite Hctx. unfold extractContextFromMessage. cbv zeta.
    rewrite (workspace_loop_idle _ _ _ Hw), (project_loop_idle _ _ Hp). reflexivity. }
  assert (Hafter : after !! sessionKey chatRequest = Some before).
  { subst after. rewrite (chat_resolves commands _ _ _ _ _ _ _ _ Hreply). cbn [snd].
    etransitivity; [apply lookup_insert_eq|].
    unfold resolveCommand. rewrite Hcmd. simpl. rewrite Hsame. reflexivity. }
  split; [exact Hafter|].
  destruct (cleanupOldContexts later after !! sessionKey chatRequest) as [c|] eqn:E;
    [|reflexivity].
  apply map_lookup_filter_Some in E. destruct E as [E1 E2].
  pose proof (eq_trans (eq_sym E1) Hafter) as Heq. injection Heq as ->. simpl in E2.
  apply negb_true_iff, Z.ltb_ge in E2. lia.
Qed.

Lemma quiet_turn_does_not_refresh_witness :
  let after :=
    snd (sample_chat "Hello! How can I help?" nothing_found "hi" "alice"
           (<["default" := previous_context]> ∅)) in
  after !! "default" = Some previous_context
  /\ cleanupOldContexts 3700000 after !! "default" = None.
Proof.
  assert (H : exists aiMessage sessionContext contexts',
             obtainReply sample_parse (sample_services "Hello! How can I help?" nothing_found)
               (sample_request "hi") "alice" (<["default" := previous_context]> ∅)
             = (Ok (aiMessage, sessionContext), contexts')).
  { unfold obtainReply. simpl. eexists _, _, _. reflexivity. }
  destruct H as (aiMessage & sessionContext & contexts' & H).
  pose proof H as H'. vm_compute in H'. injection H' as <- _ _.
  apply (quiet_turn_does_not_refresh sample_commands sample_parse
           (sample_services "Hello! How can I help?" nothing_found)
           (sample_request "hi") "alice" (<["default" := previous_context]> ∅)
           contexts' "Hello! How can I help?" previous_context sessionContext 3700000).
  - apply lookup_insert_eq.
  - exact H.
  - intros p Hp. unfold workspacePatterns in Hp. simpl in Hp.
    repeat (destruct Hp as [<-|Hp]; [vm_compute; reflexivity|]). destruct Hp.
  - intros p Hp. unfold projectPatterns in Hp. simpl in Hp.
    repeat (destruct Hp as [<-|Hp]; [vm_compute; reflexivity|]). destruct Hp.
  - vm_compute. reflexivity.
  - vm_compute. reflexivity.
Defined.

(** X25.  A failing workspace lookup does not cancel the action: when
    the reply carries a valid [navigateToWorkspace] command and
    [getIdBySlug] throws, the turn still succeeds and returns the action
    with the payload as parsed, and the session context stays exactly as
    it was. *)
Theorem failed_lookup_keeps_action (commands : list Command.t)
    (URL_parse : string -> option URL) (env : Services.t)
    (chatRequest : ChatRequest.t) (userId : string)
    (contexts contexts' : conversationContexts) (aiMessage : string)
    (sessionContext : Context.t) (parametersString : string) (parameters : value)
    (e : exn) :
  obtainReply URL_parse env chatRequest userId contexts
  = (Ok (aiMessage, sessionContext), contexts') ->
  extractCommand aiMessage = Some ("navigateToWorkspace", parametersString) ->
  parseParameters parametersString = Some parameters ->
  Validation.valid (validateCommandParameters commands "navigateToWorkspace" parameters)
  = true ->
  ToBoolean (getProp parameters "workspaceSlug") = true ->
  Services.getIdBySlug env (getProp parameters "workspaceSlug") = Throw e ->
  chat commands URL_parse env chatRequest userId contexts
  = ({| ChatResponse.message := aiMessage;
        ChatResponse.action :=
          Some {| Action.name := "navigateToWorkspace"; Action.parameters := parameters |};
        ChatResponse.success := true;
        ChatResponse.error := None |},
     contexts').
Proof.
  intros Hreply Hcmd Hparse Hvalid Hslug Hthrow.
  rewrite (chat_resolves commands _ _ _ _ _ _ _ _ Hreply).
  assert (Hfill : autoFill "navigateToWorkspace" parameters sessionContext = parameters).
  { unfold autoFill. rewrite Hslug. simpl. reflexivity. }
  unfold resolveCommand. rewrite Hcmd, Hparse, Hvalid. simpl negb. cbv iota.
  rewrite Hfill. unfold resolveProjectSlug. simpl String.eqb. cbv iota.
  unfold updateContextFromCommand. simpl String.eqb. cbv iota.
  unfold onNavigateToWorkspace. rewrite Hslug, Hthrow. cbn [fst snd].
  f_equal. apply insert_id. apply (obtainReply_context _ _ _ _ _ _ _ _ Hreply).
Qed.

Lemma failed_lookup_keeps_action_witness :
  fst (chat sample_commands sample_parse
         (failing_lookup_services
            (q "Going. [COMMAND: navigateToWorkspace] {'workspaceSlug':'w1'}"))
         (sample_request "open w1") "alice" (<["default" := previous_context]> ∅))
  = {| ChatResponse.message :=
         q "Going. [COMMAND: navigateToWorkspace] {'workspaceSlug':'w1'}";
       ChatResponse.action :=
         Some {| Action.name := "navigateToWorkspace";
                 Action.parameters := VObject [("workspaceSlug", VString "w1")] |};
       ChatResponse.success := true;
       ChatResponse.error := None |}.
Proof.
  erewrite (failed_lookup_keeps_action sample_commands sample_parse _ _ _ _ _
              (q "Going. [COMMAND: navigateToWorkspace] {'workspaceSlug':'w1'}") _
              (q "{'workspaceSlug':'w1'}") (VObject [("workspaceSlug", VString "w1")])
              (Error "connection refused")).
  - reflexivity.
  - vm_compute. reflexivity.
  - vm_compute. reflexivity.
  - vm_compute. reflexivity.
  - vm_compute. reflexivity.
  - reflexivity.
  - reflexivity.
Defined.

End CombinedMore.
